(** * video-transcribe-mcp: a shallow embedding of [src/server.py]

    The development follows the layout of the Python module: text utilities
    (Python [str] as a sequence of code points), the naming and formatting
    helpers, the external collaborators (yt-dlp, the Whisper engine, the
    clock, the file system) as an explicit environment, the three tool
    handlers as computations over a world state with exceptions, and the
    JSON rendering performed by the dispatch layer. *)

From Stdlib Require Import List ZArith NArith QArith Qround Qabs Bool Lia Lqa.
From Stdlib Require Import String Ascii.
From Stdlib.Strings Require Import Byte.
From Stdlib Require Import Permutation Sorted.
Import ListNotations.

#[local] Set Warnings "-register-all".

Local Open Scope Z_scope.
Local Open Scope list_scope.
Local Abbreviation length := List.length.

(** ** Python text *)

(** A Python [str] is a sequence of Unicode code points, lone surrogates
    included; values above U+10FFFF do not occur in one. *)
Definition char := N.
Definition pystr := list char.

(** Bytes on disk. *)
Definition bytes := list byte.

Definition byte_of_N (n : N) : byte := byte_of_ascii (ascii_of_N n).

(** UTF-8 encoding of one code point that is not a surrogate, as
    [str.encode] lays it out. *)
Definition utf8_char (c : char) : list N :=
  (if c <? 128 then [c]
   else if c <? 2048 then [192 + c / 64; 128 + c mod 64]
   else if c <? 65536 then
     [224 + c / 4096; 128 + (c / 64) mod 64; 128 + c mod 64]
   else
     [240 + c / 262144; 128 + (c / 4096) mod 64;
      128 + (c / 64) mod 64; 128 + c mod 64])%N.

(** The bytes of a text free of surrogates. *)
Definition utf8_bytes (s : pystr) : bytes :=
  flat_map (fun c => map byte_of_N (utf8_char c)) s.

Definition is_surrogate (c : char) : bool := ((55296 <=? c) && (c <=? 57343))%N.

(** A text that [str.encode] accepts: code points up to U+10FFFF, none
    of them a surrogate. *)
Definition encodable (s : pystr) : bool :=
  forallb (fun c => negb (is_surrogate c) && (c <=? 1114111)%N) s.

(** Decoder, used for the string literals of the source file (which is
    itself UTF-8).  A truncated sequence ends the decoding. *)
Fixpoint utf8_decode (bs : list N) : pystr :=
  match bs with
  | [] => []
  | b0 :: r0 =>
    if (b0 <? 128)%N then b0 :: utf8_decode r0
    else if (b0 <? 224)%N then
      match r0 with
      | b1 :: r1 => ((b0 mod 32) * 64 + b1 mod 64)%N :: utf8_decode r1
      | [] => []
      end
    else if (b0 <? 240)%N then
      match r0 with
      | b1 :: b2 :: r2 =>
        ((b0 mod 16) * 4096 + (b1 mod 64) * 64 + b2 mod 64)%N :: utf8_decode r2
      | _ => []
      end
    else
      match r0 with
      | b1 :: b2 :: b3 :: r3 =>
        ((b0 mod 8) * 262144 + (b1 mod 64) * 4096
         + (b2 mod 64) * 64 + b3 mod 64)%N :: utf8_decode r3
      | _ => []
      end
  end.

(** A literal of the source text. *)
Definition lit (s : string) : pystr :=
  utf8_decode (map N_of_ascii (list_ascii_of_string s)).

Definition chr (a : ascii) : char := N_of_ascii a.

Definition char_eqb (a b : char) : bool := N.eqb a b.

Fixpoint str_eqb (a b : pystr) : bool :=
  match a, b with
  | [], [] => true
  | x :: a', y :: b' => char_eqb x y && str_eqb a' b'
  | _, _ => false
  end.

(** [sep.join(parts)]. *)
Fixpoint join {A} (sep : list A) (parts : list (list A)) : list A :=
  match parts with
  | [] => []
  | [p] => p
  | p :: rest => p ++ sep ++ join sep rest
  end.

(** [str.isspace] for one character, the table of [_PyUnicode_IsWhitespace]. *)
Definition isspace (c : char) : bool :=
  ((9 <=? c) && (c <=? 13) || (28 <=? c) && (c <=? 32)
   || (c =? 133) || (c =? 160) || (c =? 5760)
   || (8192 <=? c) && (c <=? 8202)
   || (c =? 8232) || (c =? 8233) || (c =? 8239) || (c =? 8287)
   || (c =? 12288))%N.

Fixpoint lstrip (s : pystr) : pystr :=
  match s with
  | [] => []
  | c :: r => if isspace c then lstrip r else s
  end.

Definition rstrip (s : pystr) : pystr := rev (lstrip (rev s)).

(** [s.strip()] with no argument. *)
Definition strip (s : pystr) : pystr := rstrip (lstrip s).

(** ** Naming and formatting *)

(** The character class removed by [re.sub] in the source: less-than,
    greater-than, colon, double quote (34), slash, backslash (92), bar,
    question mark and star. *)
Definition invalid_chars : pystr :=
  [chr "<"; chr ">"; chr ":"; 34%N; chr "/"; 92%N; chr "|"; chr "?"; chr "*"].

Definition is_invalid (c : char) : bool := existsb (char_eqb c) invalid_chars.

Definition sanitize_filename (name : pystr) : pystr :=
  let name := filter (fun c => negb (is_invalid c)) name in
  strip (firstn 100 name).

(** *** Numbers as text *)

Fixpoint uint_chars (d : Decimal.uint) : pystr :=
  match d with
  | Decimal.Nil => []
  | Decimal.D0 r => 48%N :: uint_chars r
  | Decimal.D1 r => 49%N :: uint_chars r
  | Decimal.D2 r => 50%N :: uint_chars r
  | Decimal.D3 r => 51%N :: uint_chars r
  | Decimal.D4 r => 52%N :: uint_chars r
  | Decimal.D5 r => 53%N :: uint_chars r
  | Decimal.D6 r => 54%N :: uint_chars r
  | Decimal.D7 r => 55%N :: uint_chars r
  | Decimal.D8 r => 56%N :: uint_chars r
  | Decimal.D9 r => 57%N :: uint_chars r
  end.

(** [str(n)] for a natural number. *)
Definition str_of_N (n : N) : pystr := uint_chars (N.to_uint n).

(** [str(z)], the text of [f"{z}"] for an [int]. *)
Definition str_of_Z (z : Z) : pystr :=
  if z <? 0 then chr "-" :: str_of_N (Z.abs_N z) else str_of_N (Z.abs_N z).

(** Four lower-case hexadecimal digits. *)
Definition hex_digit (n : N) : char :=
  (if n <? 10 then 48 + n else 87 + n)%N.

Definition hex4 (n : N) : pystr :=
  [ hex_digit ((n / 4096) mod 16); hex_digit ((n / 256) mod 16);
    hex_digit ((n / 16) mod 16); hex_digit (n mod 16) ]%N.

(** [s.zfill(w)] on a digit string. *)
Definition zfill (w : nat) (s : pystr) : pystr :=
  repeat 48%N (w - length s) ++ s.

(** [f"{z:02d}"]: sign first, then digits padded with zeros to width 2. *)
Definition fmt_02d (z : Z) : pystr :=
  if z <? 0 then chr "-" :: zfill 1 (str_of_N (Z.abs_N z))
  else zfill 2 (str_of_N (Z.abs_N z)).

(** *** Durations and timestamps *)

(** [format_duration(seconds: int)].  Python's [//] and [%] on [int] with a
    positive divisor are [Z.div] and [Z.modulo]. *)
Definition format_duration (seconds : Z) : pystr :=
  let hours := seconds / 3600 in
  let minutes := (seconds mod 3600) / 60 in
  let secs := seconds mod 60 in
  if hours >? 0 then
    str_of_Z hours ++ lit ":" ++ fmt_02d minutes ++ lit ":" ++ fmt_02d secs
  else
    str_of_Z minutes ++ lit ":" ++ fmt_02d secs.

(** A finite [float] is modelled by the rational it denotes. *)
Definition float_floordiv (a b : Q) : Q := inject_Z (Qfloor (a / b)).
Definition float_mod (a b : Q) : Q := (a - b * inject_Z (Qfloor (a / b)))%Q.

(** [int(x)] on a float truncates toward zero. *)
Definition int_of_float (x : Q) : Z :=
  if Qle_bool 0 x then Qfloor x else Qceiling x.

(** A time on which the float arithmetic of [format_timestamp] is exact:
    a float from 0 up to, not including, 2^53.  There [x // 3600],
    [x % 3600], [(x % 3600) // 60] and [x % 60] are computed without
    rounding, so they are the quotients and remainders of the number the
    float stands for. *)
Definition exact_time (x : Q) : bool :=
  Qle_bool 0 x && negb (Qle_bool 9007199254740992 x).

(** [format_timestamp(seconds: float)], for a time that is [exact_time].
    On a negative float or from 2^53 on the code rounds ([-2**-60 % 3600]
    is [3600.0]), and this definition does not follow it there. *)
Definition format_timestamp (seconds : Q) : pystr :=
  let hours := int_of_float (float_floordiv seconds 3600) in
  let minutes := int_of_float (float_floordiv (float_mod seconds 3600) 60) in
  let secs := int_of_float (float_mod seconds 60) in
  if hours >? 0 then
    lit "[" ++ fmt_02d hours ++ lit ":" ++ fmt_02d minutes ++ lit ":"
      ++ fmt_02d secs ++ lit "]"
  else
    lit "[" ++ fmt_02d minutes ++ lit ":" ++ fmt_02d secs ++ lit "]".

(** *** Wall-clock time *)

Record datetime := {
  dt_year : N; dt_month : N; dt_day : N;
  dt_hour : N; dt_minute : N; dt_second : N
}.

Definition strftime_directive (d : datetime) (c : char) : pystr :=
  if (c =? chr "Y")%N then zfill 4 (str_of_N (dt_year d))
  else if (c =? chr "m")%N then zfill 2 (str_of_N (dt_month d))
  else if (c =? chr "d")%N then zfill 2 (str_of_N (dt_day d))
  else if (c =? chr "H")%N then zfill 2 (str_of_N (dt_hour d))
  else if (c =? chr "M")%N then zfill 2 (str_of_N (dt_minute d))
  else if (c =? chr "S")%N then zfill 2 (str_of_N (dt_second d))
  else [chr "%"; c].

(** [d.strftime(fmt)] for the directives the source uses. *)
Fixpoint strftime (d : datetime) (fmt : pystr) : pystr :=
  match fmt with
  | [] => []
  | c :: r =>
    if (c =? chr "%")%N then
      match r with
      | k :: r' => strftime_directive d k ++ strftime d r'
      | [] => [c]
      end
    else c :: strftime d r
  end.

(** *** Substrings and patterns *)

Fixpoint startswith (p s : pystr) : bool :=
  match p, s with
  | [], _ => true
  | a :: p', b :: s' => char_eqb a b && startswith p' s'
  | _ :: _, [] => false
  end.

(** [s.endswith(suffix)]. *)
Definition endswith (suffix s : pystr) : bool := startswith (rev suffix) (rev s).

(** [needle in hay]. *)
Fixpoint contains (needle hay : pystr) : bool :=
  startswith needle hay
  || match hay with [] => false | _ :: r => contains needle r end.

(** Shell-style matching of one path component, as [Path.glob] does on a
    POSIX system: [*] matches any run of characters, [?] one character,
    anything else itself.  Bracket classes do not occur in the source's
    patterns and are not modelled. *)
Fixpoint fnmatch (pat name : pystr) : bool :=
  match pat with
  | [] => match name with [] => true | _ :: _ => false end
  | p :: pat' =>
    if (p =? chr "*")%N then
      (fix star (n : pystr) : bool :=
         fnmatch pat' n || match n with [] => false | _ :: n' => star n' end) name
    else
      match name with
      | [] => false
      | c :: name' => ((p =? chr "?")%N || (p =? c)%N) && fnmatch pat' name'
      end
  end.

(** Code-point lexicographic order, the order of [str] comparison. *)
Fixpoint str_leb (a b : pystr) : bool :=
  match a, b with
  | [], _ => true
  | _ :: _, [] => false
  | x :: a', y :: b' => (x <? y)%N || ((x =? y)%N && str_leb a' b')
  end.

(** ** Values, exceptions and the world *)

(** JSON-shaped Python values: what [json.loads] produces and what the
    handlers return.  A [dict] keeps its items in insertion order. *)
Inductive json :=
| JNull
| JBool (b : bool)
| JInt (n : Z)
| JFloat (q : Q)
| JStr (s : pystr)
| JList (l : list json)
| JDict (items : list (pystr * json)).

Inductive exn_class :=
| KeyError | TimeoutExpired | OSError | JSONDecodeError
| AttributeError | TypeError | ValueError | RuntimeError
| UnicodeEncodeError.

(** An exception (every class here derives from [Exception]) with the text
    that [str(e)] gives. *)
Record exn := Exn { exn_class_of : exn_class; exn_str : pystr }.

Inductive result (A : Type) :=
| Ret (a : A)
| Raise (e : exn).
Arguments Ret {A} a.
Arguments Raise {A} e.

(** The length of the run of surrogates at the head of a text. *)
Fixpoint surrogate_run (s : pystr) : nat :=
  match s with
  | c :: r => if is_surrogate c then S (surrogate_run r) else 0
  | [] => 0
  end.

(** The first surrogate of a text read from position [i]: its position,
    the character, and the length of the run it starts. *)
Fixpoint first_surrogate (i : N) (s : pystr) : option (N * char * nat) :=
  match s with
  | [] => None
  | c :: r =>
    if is_surrogate c then Some (i, c, S (surrogate_run r))
    else first_surrogate (i + 1) r
  end.

(** [s.encode(utf-8)]: the bytes, or the [UnicodeEncodeError] that names
    the first run of surrogates. *)
Definition utf8_encode (s : pystr) : result bytes :=
  match first_surrogate 0 s with
  | None => Ret (utf8_bytes s)
  | Some (i, c, 1%nat) =>
    Raise (Exn UnicodeEncodeError
             (lit "'utf-8' codec can't encode character '\u" ++ hex4 c
              ++ lit "' in position " ++ str_of_N i
              ++ lit ": surrogates not allowed"))
  | Some (i, _, n) =>
    Raise (Exn UnicodeEncodeError
             (lit "'utf-8' codec can't encode characters in position "
              ++ str_of_N i ++ lit "-" ++ str_of_N (i + N.of_nat n - 1)
              ++ lit ": surrogates not allowed"))
  end.

(** One entry of the temp directory as a scan reports it.  [d_exists] is
    what [Path.exists()] answers for it (false for a dangling link);
    [d_unlinkable] tells whether [Path.unlink()] succeeds on it.  Names are
    unique in a directory, so an entry stands for the path that names it. *)
Record dirent := {
  d_name : pystr;
  d_exists : bool;
  d_unlinkable : bool
}.

Definition dirent_eqb (a b : dirent) : bool :=
  str_eqb (d_name a) (d_name b)
  && Bool.eqb (d_exists a) (d_exists b)
  && Bool.eqb (d_unlinkable a) (d_unlinkable b).

(** An entry of the transcripts directory that [stat()] resolves, with
    the bytes it holds. *)
Record tfile := {
  f_name : pystr;
  f_data : bytes;
  f_mtime : Q
}.

Definition st_size (f : tfile) : Z := Z.of_nat (length (f_data f)).

(** A segment as the handlers carry it: the dict with keys start, end, text. *)
Record segment := {
  seg_start : Q;
  seg_end : Q;
  seg_text : pystr
}.

(** Calls that leave the process, in the order made. *)
Inductive call :=
| CallYtDlp (argv : list pystr) (timeout : Z)
| CallLoadModel
| CallTranscribe (path : pystr) (language : option pystr)
| CallWriteText (path : pystr).

Record world := {
  temp_dir : list dirent;        (* TEMP_DIR, in scan order *)
  transcripts_dir : list tfile;  (* TRANSCRIPTS_DIR, in scan order *)
  ticks : nat;                   (* clock readings taken so far *)
  whisper_model : bool;          (* the lazily loaded global is set *)
  calls : list call              (* oldest first *)
}.

(** What [subprocess.run] can do: return a completed process, or raise
    (timeout, executable not found, undecodable output, ...). *)
Inductive run_outcome :=
| Completed (returncode : Z) (stdout : pystr)
| RunRaised (e : exn).

(** The collaborators and the configuration the module reads at start.
    The two directories are distinct, and each is given by the text of its
    normalised path. *)
Record env := {
  DEFAULT_LANGUAGE : pystr;
  TRANSCRIPTS_DIR : pystr;
  TEMP_DIR : pystr;
  (* str.lower, with Python's Unicode case mapping *)
  str_lower : pystr -> pystr;
  (* the n-th reading of the system clock, seconds since the epoch *)
  clock : nat -> Q;
  (* datetime.fromtimestamp in the local time zone *)
  fromtimestamp : Q -> datetime;
  (* yt-dlp run on an argument vector with the temp directory as it is *)
  yt_dlp : list pystr -> list dirent -> run_outcome * list dirent;
  (* json.loads: None when it raises; an object comes with distinct keys *)
  json_loads : pystr -> option json;
  (* WhisperModel(...): None when the constructor returns *)
  load_model : option exn;
  (* model.transcribe(path, language=...) drained to the end *)
  engine_transcribe : pystr -> option pystr -> result (list segment);
  (* open(path, mode=w, encoding=utf-8) on a path of the transcripts
     directory: None when the file is created or truncated, else what is
     raised (name too long for the file system, embedded null byte, a name
     that cannot be encoded, permission denied, ...) *)
  open_for_writing : pystr -> option exn;
  (* str(Path(p).expanduser()) *)
  expanduser : pystr -> pystr;
  (* Path(p).exists() outside the two directories above *)
  path_exists : pystr -> bool
}.

(** Computations: a world in, a value or an exception and a world out. *)
Definition M (A : Type) : Type := world -> result A * world.

Definition ret {A} (a : A) : M A := fun w => (Ret a, w).
Definition raise {A} (e : exn) : M A := fun w => (Raise e, w).

Definition bind {A B} (m : M A) (k : A -> M B) : M B :=
  fun w =>
    match m w with
    | (Ret a, w1) => k a w1
    | (Raise e, w1) => (Raise e, w1)
    end.

Declare Scope py_scope.
Delimit Scope py_scope with py.
Notation "x <- m ;; k" := (bind m (fun x => k))
  (at level 61, m at next level, right associativity) : py_scope.
Notation "m ;;; k" := (bind m (fun _ => k))
  (at level 61, right associativity) : py_scope.

(** [try: body  except Exception as e: handler]. *)
Definition try_except {A} (body : M A) (handler : exn -> M A) : M A :=
  fun w =>
    match body w with
    | (Ret a, w1) => (Ret a, w1)
    | (Raise e, w1) => handler e w1
    end.

(** [try: body  finally: fin].  The outcome of [body], a value or an
    exception, is resumed after [fin] unless [fin] itself raises. *)
Definition try_finally {A} (body : M A) (fin : M unit) : M A :=
  fun w =>
    match body w with
    | (r, w1) =>
      match fin w1 with
      | (Ret _, w2) => (r, w2)
      | (Raise e, w2) => (Raise e, w2)
      end
    end.

(** [for x in xs: body]. *)
Fixpoint for_each {A} (xs : list A) (body : A -> M unit) : M unit :=
  match xs with
  | [] => ret tt
  | x :: rest => bind (body x) (fun _ => for_each rest body)
  end.

Definition log_call (c : call) : M unit :=
  fun w => (Ret tt,
            {| temp_dir := temp_dir w; transcripts_dir := transcripts_dir w;
               ticks := ticks w; whisper_model := whisper_model w;
               calls := calls w ++ [c] |}).

Definition set_temp_dir (l : list dirent) : M unit :=
  fun w => (Ret tt,
            {| temp_dir := l; transcripts_dir := transcripts_dir w;
               ticks := ticks w; whisper_model := whisper_model w;
               calls := calls w |}).

Definition set_whisper_model (b : bool) : M unit :=
  fun w => (Ret tt,
            {| temp_dir := temp_dir w; transcripts_dir := transcripts_dir w;
               ticks := ticks w; whisper_model := b;
               calls := calls w |}).

Definition get_world : M world := fun w => (Ret w, w).

(** [str(Path(dir) / name)] for the text [dir] of a normalised path and a
    file name: the current directory is not written out, and a root
    already ends in its slash. *)
Definition path_join (dir name : pystr) : pystr :=
  if str_eqb dir (lit ".") then name
  else if endswith (lit "/") dir then dir ++ name
  else dir ++ lit "/" ++ name.

(** Directory entries of either directory carry a name. *)
Class Named (A : Type) := name_of : A -> pystr.
#[export] Instance dirent_named : Named dirent := d_name.
#[export] Instance tfile_named : Named tfile := f_name.

(** [Path.glob(pattern)] on a directory listing: the entries whose name
    matches, in scan order. *)
Definition glob {A} `{Named A} (pattern : pystr) (listing : list A) : list A :=
  filter (fun d => fnmatch pattern (name_of d)) listing.

(** [sorted(paths, reverse=True)] on paths of one directory: descending by
    name, entries of equal name in their original order. *)
Fixpoint insert_desc (f : tfile) (l : list tfile) : list tfile :=
  match l with
  | [] => [f]
  | g :: r =>
    if str_leb (f_name g) (f_name f) then f :: g :: r
    else g :: insert_desc f r
  end.

Definition sorted_reverse (l : list tfile) : list tfile :=
  fold_right insert_desc [] l.

(** [l[:stop]] with Python's treatment of a negative stop. *)
Definition slice_to {A} (stop : Z) (l : list A) : list A :=
  if stop <? 0 then firstn (length l - Z.to_nat (- stop)) l
  else firstn (Z.to_nat stop) l.

(** Rounding to the nearest integer, ties to the even one. *)
Definition round_half_even (q : Q) : Z :=
  let f := Qfloor q in
  match Qcompare (q - inject_Z f) (1 # 2) with
  | Lt => f
  | Gt => f + 1
  | Eq => if Z.even f then f else f + 1
  end.

(** [round(x, 1)]: the tenth nearest to [x].  For a file size below 2^53
    the quotient by 1024 is exact in binary floating point and Python
    rounds the exact value correctly, so the rational model agrees. *)
Definition py_round1 (x : Q) : Q :=
  (inject_Z (round_half_even (x * 10)) / 10)%Q.

(** The line feed, the separator of the persisted file. *)
Definition newline : pystr := [10%N].

(** [str * n]. *)
Definition str_repeat (s : pystr) (n : nat) : pystr := List.concat (repeat s n).

(** ** The pipeline stages *)

Section Pipeline.

Variable E : env.

Local Open Scope py_scope.

Definition detect_platform (url : pystr) : pystr :=
  let url_lower := str_lower E url in
  if contains (lit "youtube.com") url_lower || contains (lit "youtu.be") url_lower
  then lit "YouTube"
  else if contains (lit "instagram.com") url_lower then lit "Instagram"
  else if contains (lit "vk.com") url_lower || contains (lit "vkvideo") url_lower
  then lit "VK"
  else if contains (lit "rutube.ru") url_lower then lit "Rutube"
  else if contains (lit "tiktok.com") url_lower then lit "TikTok"
  else lit "Video".

(** [datetime.now()]. *)
Definition datetime_now : M datetime :=
  fun w => (Ret (fromtimestamp E (clock E (ticks w))),
            {| temp_dir := temp_dir w; transcripts_dir := transcripts_dir w;
               ticks := S (ticks w); whisper_model := whisper_model w;
               calls := calls w |}).

(** [subprocess.run(argv, capture_output=True, text=True, timeout=t)] for
    the yt-dlp command line: the pair (returncode, stdout), or an exception. *)
Definition subprocess_run (argv : list pystr) (timeout : Z) : M (Z * pystr) :=
  fun w =>
    let '(out, listing) := yt_dlp E argv (temp_dir w) in
    let w1 := {| temp_dir := listing; transcripts_dir := transcripts_dir w;
                 ticks := ticks w; whisper_model := whisper_model w;
                 calls := calls w ++ [CallYtDlp argv timeout] |} in
    match out with
    | Completed rc stdout => (Ret (rc, stdout), w1)
    | RunRaised e => (Raise e, w1)
    end.

(** The dict that [get_video_info] returns. *)
Record video_info := {
  vi_title : json;
  vi_duration : json;
  vi_uploader : json
}.

Definition default_info : video_info :=
  {| vi_title := JStr (lit "Unknown");
     vi_duration := JInt 0;
     vi_uploader := JStr (lit "Unknown") |}.

Definition loads (text : pystr) : M json :=
  match json_loads E text with
  | Some v => ret v
  | None => raise (Exn JSONDecodeError (lit "Expecting value"))
  end.

(** [info.get(key, default)]: only a dict has the method. *)
Definition dict_get (info : json) (key : pystr) (default : json) : M json :=
  match info with
  | JDict items =>
    ret (match find (fun kv => str_eqb (fst kv) key) items with
         | Some kv => snd kv
         | None => default
         end)
  | _ => raise (Exn AttributeError (lit "object has no attribute 'get'"))
  end.

Definition info_argv (url : pystr) : list pystr :=
  [lit "yt-dlp"; lit "--dump-json"; lit "--no-download"; url].

(** [get_video_info(url)].  The [try] block returns from inside the [if];
    every other way out of it falls through to the final [return]. *)
Definition get_video_info (url : pystr) : M video_info :=
  early <- try_except
    (p <- subprocess_run (info_argv url) 60 ;;
     if fst p =? 0 then
       info <- loads (snd p) ;;
       t <- dict_get info (lit "title") (JStr (lit "Unknown")) ;;
       d <- dict_get info (lit "duration") (JInt 0) ;;
       u <- dict_get info (lit "uploader") (JStr (lit "Unknown")) ;;
       ret (Some {| vi_title := t; vi_duration := d; vi_uploader := u |})
     else ret None)
    (fun _ => ret None) ;;
  match early with
  | Some info => ret info
  | None => ret default_info
  end.

Definition download_argv (url output_path : pystr) : list pystr :=
  [lit "yt-dlp"; lit "-x"; lit "--audio-format"; lit "mp3";
   lit "--audio-quality"; lit "0"; lit "-o"; output_path;
   lit "--no-playlist"; lit "--no-warnings"; url].

(** [download_audio(url, output_path)]. *)
Definition download_audio (url output_path : pystr) : M bool :=
  try_except
    (p <- subprocess_run (download_argv url output_path) 300 ;;
     ret (fst p =? 0))
    (fun _ => ret false).

(** [get_whisper_model()]. *)
Definition get_whisper_model : M unit :=
  w <- get_world ;;
  if whisper_model w then ret tt
  else
    log_call CallLoadModel ;;;
    match load_model E with
    | Some e => raise e
    | None => set_whisper_model true
    end.

Definition engine_call (path : pystr) (language : option pystr)
  : M (list segment) :=
  log_call (CallTranscribe path language) ;;;
  (fun w => (engine_transcribe E path language, w)).

(** [transcribe_audio(audio_path, language)]. *)
Definition transcribe_audio (audio_path language : pystr) : M (list segment) :=
  get_whisper_model ;;;
  segments <- engine_call audio_path
    (if str_eqb language (lit "auto") then None else Some language) ;;
  ret (fold_left
         (fun result seg =>
            result ++ [{| seg_start := seg_start seg; seg_end := seg_end seg;
                          seg_text := strip (seg_text seg) |}])
         segments []).

(** [Path.write_text(content, encoding=utf-8)] in the transcripts
    directory.  The file is opened for writing, which creates it or
    empties the one of that name, or raises and leaves the directory as it
    was; then the text is encoded and written, and a text that does not
    encode raises and leaves the file empty. *)
Definition write_text (filename content : pystr) : M unit :=
  fun w =>
    let path := path_join (TRANSCRIPTS_DIR E) filename in
    let put data :=
      {| temp_dir := temp_dir w;
         transcripts_dir :=
           filter (fun g => negb (str_eqb (f_name g) filename)) (transcripts_dir w)
           ++ [{| f_name := filename; f_data := data;
                  f_mtime := clock E (ticks w) |}];
         ticks := S (ticks w); whisper_model := whisper_model w;
         calls := calls w ++ [CallWriteText path] |} in
    match open_for_writing E path with
    | Some e =>
      (Raise e,
       {| temp_dir := temp_dir w; transcripts_dir := transcripts_dir w;
          ticks := ticks w; whisper_model := whisper_model w;
          calls := calls w ++ [CallWriteText path] |})
    | None =>
      match utf8_encode content with
      | Ret data => (Ret tt, put data)
      | Raise e => (Raise e, put [])
      end
    end.

(** [type(v).__name__]. *)
Definition type_name (v : json) : pystr :=
  match v with
  | JNull => lit "NoneType"
  | JBool _ => lit "bool"
  | JInt _ => lit "int"
  | JFloat _ => lit "float"
  | JStr _ => lit "str"
  | JList _ => lit "list"
  | JDict _ => lit "dict"
  end.

(** What the callee does with an argument of the wrong dynamic type:
    [re.sub] on a title that is not a [str], and [format_duration] on a
    duration that is not an [int] (the floor division of anything but a
    number raises, the format code d refuses a float). *)
Definition expect_str (v : json) : M pystr :=
  match v with
  | JStr s => ret s
  | _ => raise (Exn TypeError
                  (lit "expected string or bytes-like object, got '"
                   ++ type_name v ++ lit "'"))
  end.

Definition expect_int (v : json) : M Z :=
  match v with
  | JInt n => ret n
  | JBool b => ret (if b then 1 else 0)
  | JFloat _ => raise (Exn ValueError (lit "Unknown format code 'd' for object of type 'float'"))
  | _ => raise (Exn TypeError
                  (lit "unsupported operand type(s) for //: '"
                   ++ type_name v ++ lit "' and 'int'"))
  end.

Definition rule : pystr := str_repeat (lit "=") 50.

Definition header_lines (url platform title : pystr) (written : datetime)
    (duration : Z) (language : pystr) : list pystr :=
  [ lit "Источник: " ++ url;
    lit "Платформа: " ++ platform;
    lit "Название: " ++ title;
    lit "Дата транскрипции: " ++ strftime written (lit "%Y-%m-%d %H:%M");
    lit "Длительность: " ++ format_duration duration;
    lit "Язык: " ++ language;
    [];
    rule;
    [] ].

Definition segment_line (seg : segment) : pystr :=
  format_timestamp (seg_start seg) ++ lit " " ++ seg_text seg.

Definition full_text (segments : list segment) : pystr :=
  join (lit " ") (map seg_text segments).

(** [save_transcript(url, platform, title, duration, segments, language)].
    [title] and [duration] arrive as produced upstream; a title that is not
    a [str] makes [re.sub] raise, a duration that is not an [int] makes
    [format_duration] raise, both before anything is written. *)
Definition save_transcript (url platform : pystr) (title duration : json)
    (segments : list segment) (language : pystr) : M pystr :=
  named <- datetime_now ;;
  let date_str := strftime named (lit "%Y-%m-%d_%H%M") in
  title <- expect_str title ;;
  let safe_title := sanitize_filename title in
  let filename :=
    date_str ++ lit "_" ++ platform ++ lit "_" ++ safe_title ++ lit ".txt" in
  let filepath := path_join (TRANSCRIPTS_DIR E) filename in
  written <- datetime_now ;;
  duration <- expect_int duration ;;
  let lines := header_lines url platform title written duration language in
  let lines :=
    fold_left (fun lines seg => lines ++ [segment_line seg]) segments lines in
  let lines :=
    lines ++ [ []; rule; lit "ПОЛНЫЙ ТЕКСТ (без таймкодов):"; rule; [];
               full_text segments ] in
  write_text filename (join newline lines) ;;;
  ret filepath.

(** ** The tool handlers *)

Definition error_dict (message : pystr) : json :=
  JDict [(lit "error", JStr message)].

(** [language or DEFAULT_LANGUAGE]: [None] and the empty string are falsy. *)
Definition resolve_language (language : option pystr) : pystr :=
  match language with
  | Some (c :: l) => c :: l
  | _ => DEFAULT_LANGUAGE E
  end.

(** [Path.unlink()] on a scanned entry. *)
Definition unlink (f : dirent) : M unit :=
  w <- get_world ;;
  if existsb (dirent_eqb f) (temp_dir w) then
    if d_unlinkable f then
      set_temp_dir (filter (fun d => negb (dirent_eqb f d)) (temp_dir w))
    else raise (Exn OSError (lit "Operation not permitted"))
  else raise (Exn OSError (lit "No such file or directory")).

(** The [finally] block of [handle_transcribe_url]. *)
Definition cleanup_temp : M unit :=
  w <- get_world ;;
  for_each (glob (lit "audio_*") (temp_dir w))
    (fun f => try_except (unlink f) (fun _ => ret tt)).

(** The [try] block of [handle_transcribe_url]. *)
Definition transcribe_url_try (url language platform : pystr)
    (title duration : json) (temp_audio : pystr) : M json :=
  ok <- download_audio url temp_audio ;;
  if negb ok then
    ret (error_dict (lit "Failed to download audio from " ++ url
                     ++ lit ". Make sure the video is public."))
  else
    w <- get_world ;;
    match hd_error (glob (lit "audio_*.mp3") (temp_dir w)) with
    | None => ret (error_dict (lit "Audio file not found after download"))
    | Some actual_file =>
      if negb (d_exists actual_file) then
        ret (error_dict (lit "Audio file not found after download"))
      else
        segments <- transcribe_audio
                      (path_join (TEMP_DIR E) (d_name actual_file)) language ;;
        match segments with
        | [] => ret (error_dict (lit "No speech detected in the video"))
        | _ :: _ =>
          filepath <- save_transcript url platform title duration
                        segments language ;;
          duration <- expect_int duration ;;
          ret (JDict
                 [ (lit "success", JBool true);
                   (lit "platform", JStr platform);
                   (lit "title", title);
                   (lit "duration", JStr (format_duration duration));
                   (lit "language", JStr language);
                   (lit "segments_count", JInt (Z.of_nat (length segments)));
                   (lit "saved_to", JStr filepath);
                   (lit "transcript", JStr (full_text segments)) ])
        end
    end.

(** [handle_transcribe_url(url, language)]. *)
Definition handle_transcribe_url (url : pystr) (language : option pystr)
  : M json :=
  let language := resolve_language language in
  let platform := detect_platform url in
  info <- get_video_info url ;;
  let title := vi_title info in
  let duration := vi_duration info in
  stamp <- datetime_now ;;
  let temp_audio :=
    path_join (TEMP_DIR E)
      (lit "audio_" ++ strftime stamp (lit "%Y%m%d_%H%M%S") ++ lit ".mp3") in
  try_finally
    (transcribe_url_try url language platform title duration temp_audio)
    cleanup_temp.

(** [Path.name] and [Path.stem] of a path given by its text. *)
Fixpoint take_until (c : char) (s : pystr) : pystr :=
  match s with
  | [] => []
  | x :: r => if (x =? c)%N then [] else x :: take_until c r
  end.

(** [s.split(c)]. *)
Fixpoint split_on (c : char) (s : pystr) : list pystr :=
  match s with
  | [] => [[]]
  | x :: r =>
    if (x =? c)%N then [] :: split_on c r
    else
      match split_on c r with
      | part :: parts => (x :: part) :: parts
      | [] => [[x]]
      end
  end.

(** The components of a path below its root, as [pathlib] parses the
    text: split at the slashes, empty components and single dots dropped. *)
Definition path_parts (path : pystr) : list pystr :=
  filter (fun part => negb (str_eqb part [] || str_eqb part (lit ".")))
         (split_on (chr "/") path).

(** [Path(path).name]: the last component, empty when there is none. *)
Definition path_name (path : pystr) : pystr := last (path_parts path) [].

Definition path_stem (path : pystr) : pystr :=
  let name := path_name path in
  let suffix := take_until (chr ".") (rev name) in
  let i := (length name - length suffix - 1)%nat in
  if existsb (char_eqb (chr ".")) name
     && (0 <? i)%nat && (i <? length name - 1)%nat
  then firstn i name else name.

(** [handle_transcribe_file(file_path, language)]. *)
Definition handle_transcribe_file (file_path : pystr)
    (language : option pystr) : M json :=
  let language := resolve_language language in
  let path := expanduser E file_path in
  if negb (path_exists E path) then
    ret (error_dict (lit "File not found: " ++ file_path))
  else
    segments <- transcribe_audio path language ;;
    match segments with
    | [] => ret (error_dict (lit "No speech detected in the file"))
    | first :: _ =>
      let duration := int_of_float (seg_end (last segments first)) in
      filepath <- save_transcript (lit "file://" ++ path) (lit "LocalFile")
                    (JStr (path_stem path)) (JInt duration) segments language ;;
      ret (JDict
             [ (lit "success", JBool true);
               (lit "file", JStr path);
               (lit "duration", JStr (format_duration duration));
               (lit "language", JStr language);
               (lit "segments_count", JInt (Z.of_nat (length segments)));
               (lit "saved_to", JStr filepath);
               (lit "transcript", JStr (full_text segments)) ])
    end.

Definition transcript_entry (f : tfile) : json :=
  JDict
    [ (lit "filename", JStr (f_name f));
      (lit "path", JStr (path_join (TRANSCRIPTS_DIR E) (f_name f)));
      (lit "size_kb", JFloat (py_round1 (inject_Z (st_size f) / 1024)));
      (lit "modified",
       JStr (strftime (fromtimestamp E (f_mtime f)) (lit "%Y-%m-%d %H:%M"))) ].

(** The entries of a listing whose name ends in .txt, in scan order. *)
Definition txt_files (listing : list tfile) : list tfile :=
  filter (fun f => endswith (lit ".txt") (f_name f)) listing.

(** The paths that [handle_list_transcripts] reports, in order. *)
Definition listed_files (limit : Z) (w : world) : list tfile :=
  slice_to limit (sorted_reverse (glob (lit "*.txt") (transcripts_dir w))).

(** [handle_list_transcripts(limit)]. *)
Definition handle_list_transcripts (limit : Z) : M json :=
  w <- get_world ;;
  let files := listed_files limit w in
  let transcripts :=
    fold_left (fun acc f => acc ++ [transcript_entry f]) files [] in
  ret (JDict
         [ (lit "transcripts_dir", JStr (TRANSCRIPTS_DIR E));
           (lit "count", JInt (Z.of_nat (length transcripts)));
           (lit "files", JList transcripts) ]).

End Pipeline.

(** ** Rendering: [json.dumps(obj, indent=2, ensure_ascii=...)] *)

Definition unicode_escape (n : N) : pystr := lit "\u" ++ hex4 n.

(** The replacement of one character inside a JSON string.  The short
    escapes and the control characters are always escaped; with
    [ensure_ascii] everything outside the range space to tilde is, a
    character beyond the basic plane as a surrogate pair. *)
Definition escape_char (ensure_ascii : bool) (c : char) : pystr :=
  (if c =? 34 then lit "\" ++ [34]
   else if c =? 92 then lit "\\"
   else if c =? 10 then lit "\n"
   else if c =? 13 then lit "\r"
   else if c =? 9 then lit "\t"
   else if c =? 8 then lit "\b"
   else if c =? 12 then lit "\f"
   else if c <? 32 then unicode_escape c
   else if ensure_ascii && (126 <? c) then
     if c <? 65536 then unicode_escape c
     else
       let n := c - 65536 in
       unicode_escape (55296 + (n / 1024) mod 1024)
       ++ unicode_escape (56320 + n mod 1024)
   else [c])%N.

Definition encode_str (ensure_ascii : bool) (s : pystr) : pystr :=
  [34%N] ++ flat_map (escape_char ensure_ascii) s ++ [34%N].

(** [repr] of a float that is a whole number of tenths (the only floats
    the handlers produce), below the magnitude where [repr] switches to
    exponent notation. *)
Definition float_repr (q : Q) : pystr :=
  let t := round_half_even (q * 10) in
  (if t <? 0 then lit "-" else [])
  ++ str_of_Z (Z.abs t / 10) ++ lit "." ++ str_of_Z (Z.abs t mod 10).

Definition newline_indent (indent level : nat) : pystr :=
  newline ++ repeat 32%N (indent * level).

Fixpoint dumps (indent : nat) (ensure_ascii : bool) (level : nat) (v : json)
  {struct v} : pystr :=
  match v with
  | JNull => lit "null"
  | JBool true => lit "true"
  | JBool false => lit "false"
  | JInt n => str_of_Z n
  | JFloat q => float_repr q
  | JStr s => encode_str ensure_ascii s
  | JList [] => lit "[]"
  | JList (x :: r) =>
    lit "[" ++ newline_indent indent (S level)
    ++ dumps indent ensure_ascii (S level) x
    ++ (fix rest (l : list json) : pystr :=
          match l with
          | [] => []
          | y :: l' =>
            lit "," ++ newline_indent indent (S level)
            ++ dumps indent ensure_ascii (S level) y ++ rest l'
          end) r
    ++ newline_indent indent level ++ lit "]"
  | JDict [] => lit "{}"
  | JDict ((k, x) :: r) =>
    lit "{" ++ newline_indent indent (S level)
    ++ encode_str ensure_ascii k ++ lit ": "
    ++ dumps indent ensure_ascii (S level) x
    ++ (fix rest (l : list (pystr * json)) : pystr :=
          match l with
          | [] => []
          | (k', y) :: l' =>
            lit "," ++ newline_indent indent (S level)
            ++ encode_str ensure_ascii k' ++ lit ": "
            ++ dumps indent ensure_ascii (S level) y ++ rest l'
          end) r
    ++ newline_indent indent level ++ lit "}"
  end.

Definition json_dumps (indent : nat) (ensure_ascii : bool) (v : json) : pystr :=
  dumps indent ensure_ascii 0 v.

(** ** The dispatch layer *)

(** The argument record of a tool call, read under the tools' input
    schemas: each key is absent or carries a value of its declared type. *)
Record arguments := {
  arg_url : option pystr;
  arg_file_path : option pystr;
  arg_language : option pystr;
  arg_limit : option Z
}.

(** [arguments[key]]. *)
Definition getitem {A} (key : string) (v : option A) : M A :=
  match v with
  | Some a => ret a
  | None => raise (Exn KeyError (lit "'" ++ lit key ++ lit "'"))
  end.

Section Dispatch.

Variable E : env.

Local Open Scope py_scope.

(** The body of the [try] in [handle_tool_call], up to [result]. *)
Definition call_handler (name : pystr) (a : arguments) : M json :=
  if str_eqb name (lit "transcribe_url") then
    url <- getitem "url" (arg_url a) ;;
    handle_transcribe_url E url (arg_language a)
  else if str_eqb name (lit "transcribe_file") then
    file_path <- getitem "file_path" (arg_file_path a) ;;
    handle_transcribe_file E file_path (arg_language a)
  else if str_eqb name (lit "list_transcripts") then
    handle_list_transcripts E
      (match arg_limit a with Some n => n | None => 20 end)
  else ret (error_dict (lit "Unknown tool: " ++ name)).

(** [handle_tool_call(name, arguments)]: the text sent back. *)
Definition handle_tool_call (name : pystr) (a : arguments)
  : world -> pystr * world :=
  fun w =>
    match call_handler name a w with
    | (Ret result, w1) => (json_dumps 2 false result, w1)
    | (Raise e, w1) => (json_dumps 2 true (error_dict (exn_str e)), w1)
    end.

End Dispatch.

(** ** Vocabulary of the statements *)

Section Vocabulary.

Variable E : env.

Local Open Scope py_scope.

(** The world after one run of yt-dlp. *)
Definition after_run (w : world) (argv : list pystr) (timeout : Z) : world :=
  {| temp_dir := snd (yt_dlp E argv (temp_dir w));
     transcripts_dir := transcripts_dir w;
     ticks := ticks w; whisper_model := whisper_model w;
     calls := calls w ++ [CallYtDlp argv timeout] |}.

(** A run that did not end with exit status zero: non-zero status, or an
    exception (timeout, spawn failure, ...). *)
Definition run_failed (o : run_outcome) : Prop :=
  match o with
  | Completed rc _ => rc <> 0
  | RunRaised _ => True
  end.

Definition run_succeeded (o : run_outcome) : Prop :=
  match o with
  | Completed rc _ => rc = 0
  | RunRaised _ => False
  end.

(** The metadata probe failed: the run failed, or its output is not the
    text of a JSON object. *)
Definition probe_failed (url : pystr) (w : world) : Prop :=
  match fst (yt_dlp E (info_argv url) (temp_dir w)) with
  | Completed rc stdout =>
    rc <> 0 \/ forall items, json_loads E stdout <> Some (JDict items)
  | RunRaised _ => True
  end.

(** The temp file name a URL job started in world [w] chooses. *)
Definition temp_audio_name (w : world) : pystr :=
  lit "audio_"
  ++ strftime (fromtimestamp E (clock E (ticks w))) (lit "%Y%m%d_%H%M%S")
  ++ lit ".mp3".

Definition temp_audio_path (w : world) : pystr :=
  path_join (TEMP_DIR E) (temp_audio_name w).

(** The world in which the audio acquisition of that job starts, and what
    the acquisition run does there. *)
Definition before_acquisition (url : pystr) (w : world) : world :=
  {| temp_dir := snd (yt_dlp E (info_argv url) (temp_dir w));
     transcripts_dir := transcripts_dir w;
     ticks := S (ticks w); whisper_model := whisper_model w;
     calls := calls w ++ [CallYtDlp (info_argv url) 60] |}.

Definition acquisition (url : pystr) (w : world) : run_outcome * list dirent :=
  yt_dlp E (download_argv url (temp_audio_path w))
    (temp_dir (before_acquisition url w)).

Definition acquisition_call (url : pystr) (w : world) : call :=
  CallYtDlp (download_argv url (temp_audio_path w)) 300.

(** The pattern of the [finally] block, and the world after it ran. *)
Definition removable (d : dirent) : bool :=
  fnmatch (lit "audio_*") (d_name d) && d_unlinkable d.

Definition cleaned (w : world) : world :=
  {| temp_dir := filter (fun d => negb (removable d)) (temp_dir w);
     transcripts_dir := transcripts_dir w;
     ticks := ticks w; whisper_model := whisper_model w;
     calls := calls w |}.

(** The URL flow with the [finally] block left out: what the [try] block
    returns or raises, and the world it leaves. *)
Definition url_flow_try (url : pystr) (language : option pystr) : M json :=
  info <- get_video_info E url ;;
  stamp <- datetime_now E ;;
  transcribe_url_try E url (resolve_language E language)
    (detect_platform E url) (vi_title info) (vi_duration info)
    (path_join (TEMP_DIR E)
       (lit "audio_" ++ strftime stamp (lit "%Y%m%d_%H%M%S") ++ lit ".mp3")).

(** The error of a download that reported success but left nothing. *)
Definition artifact_missing : json :=
  error_dict (lit "Audio file not found after download").




End Vocabulary.

(** The file content as section 4.5 of the specification lays it out: the
    six labelled lines, a blank line, a rule, a blank line, one line per
    segment, a blank line, the rule, the plain-text title, the rule, a
    blank line, and the texts joined by single spaces. *)
Definition spec_file_content (source platform title : pystr)
    (written : datetime) (duration : Z) (language : pystr)
    (segments : list segment) : pystr :=
  lit "Источник: " ++ source ++ newline
  ++ lit "Платформа: " ++ platform ++ newline
  ++ lit "Название: " ++ title ++ newline
  ++ lit "Дата транскрипции: " ++ strftime written (lit "%Y-%m-%d %H:%M") ++ newline
  ++ lit "Длительность: " ++ format_duration duration ++ newline
  ++ lit "Язык: " ++ language ++ newline
  ++ newline
  ++ lit "==================================================" ++ newline
  ++ newline
  ++ List.concat
       (map (fun seg =>
               (format_timestamp (seg_start seg) ++ lit " " ++ seg_text seg)
               ++ newline)
            segments)
  ++ newline
  ++ lit "==================================================" ++ newline
  ++ lit "ПОЛНЫЙ ТЕКСТ (без таймкодов):" ++ newline
  ++ lit "==================================================" ++ newline
  ++ newline
  ++ join (lit " ") (map seg_text segments).

(** [f] sorts at or before [g] in the listing: its name is at or after the
    name of [g] in code-point order. *)
Definition name_ge (f g : tfile) : Prop := str_leb (f_name g) (f_name f) = true.

(** One turn of the loop in the [finally] block. *)
Definition unlink_swallowed (f : dirent) : M unit :=
  try_except (unlink f) (fun _ => ret tt).

(** A pattern character that stands for itself. *)
Definition is_literal (c : char) : bool :=
  negb (c =? chr "*")%N && negb (c =? chr "?")%N.

(** The lines of the file, as the code builds them. *)
Definition written_lines (url platform title : pystr) (written : datetime)
    (duration : Z) (language : pystr) (segments : list segment) : list pystr :=
  fold_left (fun lines seg => lines ++ [segment_line seg]) segments
    (header_lines url platform title written duration language)
  ++ [ []; rule; lit "ПОЛНЫЙ ТЕКСТ (без таймкодов):"; rule; [];
       full_text segments ].

(** A character of the ASCII range. *)
Definition is_ascii (c : char) : bool := (c <? 128)%N.

(** ** Concrete runs *)

Module Scenario.

Definition noon : datetime :=
  {| dt_year := 2024; dt_month := 1; dt_day := 1;
     dt_hour := 12; dt_minute := 0; dt_second := 0 |}.

Definition idle : world :=
  {| temp_dir := []; transcripts_dir := []; ticks := 0;
     whisper_model := false; calls := [] |}.

(** An environment in which the probe run ends as [probe], the download
    run ends as [download] and leaves [left] in the temp directory next to
    what was there, [local_file] is the one local path that exists, the
    engine answers [engine], and every transcript can be opened for
    writing. *)
Definition make_env (probe download : run_outcome) (left : list dirent)
    (local_file : pystr) (engine : result (list segment)) : env :=
  {| DEFAULT_LANGUAGE := lit "ru";
     TRANSCRIPTS_DIR := lit "/home/user/Documents/Transcripts";
     TEMP_DIR := lit "/opt/video-transcribe/temp";
     str_lower := fun s => s;
     clock := fun n => inject_Z (Z.of_nat n);
     fromtimestamp := fun _ => noon;
     yt_dlp := fun argv listing =>
       match argv with
       | _ :: flag :: _ =>
         if str_eqb flag (lit "-x") then (download, listing ++ left)
         else (probe, listing)
       | _ => (probe, listing)
       end;
     json_loads := fun text =>
       if str_eqb text (lit "{}") then Some (JDict []) else None;
     load_model := None;
     engine_transcribe := fun _ _ => engine;
     open_for_writing := fun _ => None;
     expanduser := fun p => p;
     path_exists := fun p => str_eqb p local_file |}.

Definition url : pystr := lit "https://youtu.be/dQw4w9WgXcQ".

Definition audio (name : string) (exists_ unlinkable : bool) : dirent :=
  {| d_name := lit name; d_exists := exists_; d_unlinkable := unlinkable |}.

Definition two_segments : list segment :=
  [ {| seg_start := 0; seg_end := 5 # 2; seg_text := lit " Привет " |};
    {| seg_start := 65; seg_end := 3725; seg_text := lit "мир" |} ].

Definition ok : run_outcome := Completed 0 (lit "{}").
Definition refused : run_outcome := Completed 1 [].
Definition timed_out : run_outcome :=
  RunRaised (Exn TimeoutExpired (lit "Command timed out after 300 seconds")).

(** The download succeeds and leaves the job's file under another extension. *)
Definition env_m4a : env :=
  make_env ok ok [audio "audio_20240101_120000.m4a" true true] (lit "/home/user/talk.mp3") (Ret two_segments).


Definition env_success : env :=
  make_env ok ok [audio "audio_20240101_120000.mp3" true true] (lit "/home/user/talk.mp3") (Ret two_segments).

Definition env_refused : env :=
  make_env refused refused [audio "audio_20240101_120000.mp3.part" true true]
    (lit "/home/user/talk.mp3") (Ret two_segments).

Definition env_silent : env :=
  make_env ok ok [audio "audio_20240101_120000.mp3" true true]
    (lit "/home/user/talk.mp3") (Ret []).

(** A local recording with a Cyrillic name that the engine cannot decode;
    the decoder's message quotes the path. *)
Definition recording : pystr := lit "/home/user/запись.mp3".

Definition decode_error : exn :=
  Exn OSError
    (lit "Invalid data found when processing input: '/home/user/запись.mp3'").

Definition env_corrupt : env :=
  make_env ok ok [] recording (Raise decode_error).

(** The download runs into its timeout. *)
Definition env_timeout : env :=
  make_env ok timed_out [] (lit "/home/user/talk.mp3") (Ret two_segments).

(** The engine fails on a downloaded file. *)
Definition env_undecodable : env :=
  make_env ok ok [audio "audio_20240101_120000.mp3" true true]
    (lit "/home/user/talk.mp3") (Raise decode_error).

(** The downloaded file cannot be unlinked. *)
Definition env_locked : env :=
  make_env ok ok [audio "audio_20240101_120000.mp3" true false]
    (lit "/home/user/talk.mp3") (Ret two_segments).

Definition transcript (name : string) (size : nat) : tfile :=
  {| f_name := lit name; f_data := repeat Byte.x20 size; f_mtime := 0 |}.

(** A store of five transcripts and one stray file, in no particular order. *)
Definition shelf : world :=
  {| temp_dir := [];
     transcripts_dir :=
       [ transcript "2024-03-01_0900_YouTube_c.txt" 1500;
         transcript "2024-01-01_0900_YouTube_a.txt" 256;
         transcript "notes.md" 10;
         transcript "2024-05-01_0900_VK_e.txt" 768;
         transcript "2024-02-01_0900_TikTok_b.txt" 0;
         transcript "2024-04-01_0900_LocalFile_d.txt" 4096 ];
     ticks := 0; whisper_model := false; calls := [] |}.

Definition file_job (path : pystr) : arguments :=
  {| arg_url := None; arg_file_path := Some path;
     arg_language := None; arg_limit := None |}.

Definition url_job (u : pystr) : arguments :=
  {| arg_url := Some u; arg_file_path := None;
     arg_language := None; arg_limit := None |}.

Definition list_job (limit : Z) : arguments :=
  {| arg_url := None; arg_file_path := None;
     arg_language := None; arg_limit := Some limit |}.

End Scenario.

(** ** The declared tools *)

(** A [Tool] of the MCP library: name, description, input schema. *)
Record tool := {
  tool_name : pystr;
  tool_description : pystr;
  inputSchema : json
}.

Definition language_schema (description : string) : json :=
  JDict [ (lit "type", JStr (lit "string"));
          (lit "enum", JList [JStr (lit "ru"); JStr (lit "en"); JStr (lit "auto")]);
          (lit "description", JStr (lit description)) ].

(** The module-level list [TOOLS]. *)
Definition TOOLS : list tool :=
  [ {| tool_name := lit "transcribe_url";
       tool_description :=
         lit "Download and transcribe a video from YouTube, Instagram, or other platforms to text";
       inputSchema :=
         JDict
           [ (lit "type", JStr (lit "object"));
             (lit "properties",
              JDict
                [ (lit "url",
                   JDict
                     [ (lit "type", JStr (lit "string"));
                       (lit "description",
                        JStr (lit "Video URL (YouTube, Instagram Reels, VK, TikTok, etc.)")) ]);
                  (lit "language",
                   language_schema "Language of the video (default: ru)") ]);
             (lit "required", JList [JStr (lit "url")]) ] |};
    {| tool_name := lit "transcribe_file";
       tool_description := lit "Transcribe a local audio/video file to text";
       inputSchema :=
         JDict
           [ (lit "type", JStr (lit "object"));
             (lit "properties",
              JDict
                [ (lit "file_path",
                   JDict
                     [ (lit "type", JStr (lit "string"));
                       (lit "description",
                        JStr (lit "Absolute path to audio/video file")) ]);
                  (lit "language",
                   language_schema "Language of the audio (default: ru)") ]);
             (lit "required", JList [JStr (lit "file_path")]) ] |};
    {| tool_name := lit "list_transcripts";
       tool_description := lit "List all saved transcripts";
       inputSchema :=
         JDict
           [ (lit "type", JStr (lit "object"));
             (lit "properties",
              JDict
                [ (lit "limit",
                   JDict
                     [ (lit "type", JStr (lit "integer"));
                       (lit "description",
                        JStr (lit "Maximum number of transcripts to list (default: 20)")) ]) ]) ] |} ].

(** The value under a key of a JSON object, if any. *)
Definition json_field (key : pystr) (v : json) : option json :=
  match v with
  | JDict items =>
    match find (fun kv => str_eqb (fst kv) key) items with
    | Some kv => Some (snd kv)
    | None => None
    end
  | _ => None
  end.

(** The keys a tool's schema lists under required. *)
Definition required_keys (t : tool) : list pystr :=
  match json_field (lit "required") (inputSchema t) with
  | Some (JList keys) =>
    flat_map (fun k => match k with JStr s => [s] | _ => [] end) keys
  | _ => []
  end.

(** The keys a tool's schema describes under properties. *)
Definition declared_keys (t : tool) : list pystr :=
  match json_field (lit "properties") (inputSchema t) with
  | Some (JDict items) => map fst items
  | _ => []
  end.

(** Whether the argument record carries a key. *)
Definition arg_present (key : pystr) (a : arguments) : bool :=
  if str_eqb key (lit "url") then
    match arg_url a with Some _ => true | None => false end
  else if str_eqb key (lit "file_path") then
    match arg_file_path a with Some _ => true | None => false end
  else if str_eqb key (lit "language") then
    match arg_language a with Some _ => true | None => false end
  else if str_eqb key (lit "limit") then
    match arg_limit a with Some _ => true | None => false end
  else false.

(** ** Further vocabulary *)

Definition is_digit (c : char) : bool := ((48 <=? c) && (c <=? 57))%N.

(** A digit or a colon. *)
Definition duration_char (c : char) : bool := is_digit c || (c =? chr ":")%N.

(** The bracketed time of a whole number of seconds. *)
Definition timestamp_of (n : Z) : pystr :=
  if n / 3600 >? 0 then
    lit "[" ++ fmt_02d (n / 3600) ++ lit ":" ++ fmt_02d ((n mod 3600) / 60)
      ++ lit ":" ++ fmt_02d (n mod 60) ++ lit "]"
  else
    lit "[" ++ fmt_02d ((n mod 3600) / 60) ++ lit ":" ++ fmt_02d (n mod 60)
      ++ lit "]".

(** [needle] is a substring of [hay]. *)
Definition occurs (needle hay : pystr) : Prop :=
  exists pre post, hay = pre ++ needle ++ post.

(** A computation that, from any world, leaves one related to it by [P]. *)
Definition keeps {A} (P : world -> world -> Prop) (m : M A) : Prop :=
  forall w, P w (snd (m w)).

(** A stored transcript stays as it is unless a file is written under its
    name in the directory [dir]; a loaded model stays loaded and is not
    loaded again; the log and the clock only advance. *)
Definition orderly (dir : pystr) (w w' : world) : Prop :=
  (whisper_model w = true -> whisper_model w' = true)
  /\ (ticks w <= ticks w')%nat
  /\ exists l,
       calls w' = calls w ++ l
       /\ (whisper_model w = true -> ~ In CallLoadModel l)
       /\ (forall f, In f (transcripts_dir w) ->
             In f (transcripts_dir w')
             \/ In (CallWriteText (path_join dir (f_name f))) l).

(** The temp directory is as it was and yt-dlp was not run. *)
Definition away_from_temp (w w' : world) : Prop :=
  temp_dir w' = temp_dir w
  /\ exists l, calls w' = calls w ++ l
              /\ forall argv timeout, ~ In (CallYtDlp argv timeout) l.

(** Every segment starts at a time that is [exact_time]. *)
Definition exact_starts (segments : list segment) : bool :=
  forallb (fun seg => exact_time (seg_start seg)) segments.

(** The segments of the engine with each text stripped. *)
Definition stripped (raw : list segment) : list segment :=
  map (fun seg => {| seg_start := seg_start seg; seg_end := seg_end seg;
                     seg_text := strip (seg_text seg) |}) raw.

(** The language handed to the engine: none for auto. *)
Definition engine_language (language : pystr) : option pystr :=
  if str_eqb language (lit "auto") then None else Some language.

(** The model can be had: it is loaded, or its constructor returns. *)
Definition model_available (E : env) (w : world) : Prop :=
  whisper_model w = true \/ load_model E = None.

(** The world after the engine adapter ran to the end on [path]. *)
Definition after_transcription (w : world) (path : pystr)
    (language : option pystr) : world :=
  {| temp_dir := temp_dir w; transcripts_dir := transcripts_dir w;
     ticks := ticks w; whisper_model := true;
     calls := calls w
              ++ (if whisper_model w then [] else [CallLoadModel])
              ++ [CallTranscribe path language] |}.

Section FlowVocabulary.

Variable E : env.

Local Open Scope py_scope.

(** The record the probe hands to the URL flow started in [w]. *)
Definition probed (url : pystr) (w : world) : video_info :=
  match fst (get_video_info E url w) with
  | Ret info => info
  | Raise _ => default_info
  end.

(** The world after the acquisition run of that job. *)
Definition after_download (url : pystr) (w : world) : world :=
  after_run E (before_acquisition E url w)
    (download_argv url (temp_audio_path E w)) 300.

(** What is left of the [try] block once the segments are there. *)
Definition persist_and_answer (url language platform : pystr)
    (title duration : json) (segments : list segment) : M json :=
  match segments with
  | [] => ret (error_dict (lit "No speech detected in the video"))
  | _ :: _ =>
    filepath <- save_transcript E url platform title duration
                  segments language ;;
    duration <- expect_int duration ;;
    ret (JDict
           [ (lit "success", JBool true);
             (lit "platform", JStr platform);
             (lit "title", title);
             (lit "duration", JStr (format_duration duration));
             (lit "language", JStr language);
             (lit "segments_count", JInt (Z.of_nat (length segments)));
             (lit "saved_to", JStr filepath);
             (lit "transcript", JStr (full_text segments)) ])
  end.

(** The name under which a transcript is stored at clock reading [t]. *)
Definition transcript_name (t : nat) (platform title : pystr) : pystr :=
  strftime (fromtimestamp E (clock E t)) (lit "%Y-%m-%d_%H%M")
  ++ lit "_" ++ platform ++ lit "_" ++ sanitize_filename title ++ lit ".txt".

(** The write that ends a [save_transcript] whose first clock reading is
    the [t]-th goes through, into the transcripts directory: the file can
    be opened for writing, the text, dated by the next reading, encodes,
    and the name holds no slash, so it names an entry of that directory. *)
Definition writable (t : nat) (url platform title : pystr) (duration : Z)
    (language : pystr) (segments : list segment) : Prop :=
  open_for_writing E
    (path_join (TRANSCRIPTS_DIR E) (transcript_name t platform title)) = None
  /\ encodable
       (join newline
          (written_lines url platform title (fromtimestamp E (clock E (S t)))
             duration language segments)) = true
  /\ forallb (fun c => negb (c =? chr "/")%N) (transcript_name t platform title)
     = true.

(** The world after a transcript with the given lines was stored from [w]. *)
Definition saved (w : world) (platform title : pystr) (lines : list pystr)
  : world :=
  {| temp_dir := temp_dir w;
     transcripts_dir :=
       filter (fun g => negb (str_eqb (f_name g)
                                (transcript_name (ticks w) platform title)))
              (transcripts_dir w)
       ++ [{| f_name := transcript_name (ticks w) platform title;
              f_data := utf8_bytes (join newline lines);
              f_mtime := clock E (S (S (ticks w))) |}];
     ticks := S (S (S (ticks w))); whisper_model := whisper_model w;
     calls := calls w
              ++ [CallWriteText
                    (path_join (TRANSCRIPTS_DIR E)
                       (transcript_name (ticks w) platform title))] |}.

(** The answer of a job that went through. *)
Definition success_dict (first : pystr * json) (title : json)
    (duration : Z) (language : pystr) (segments : list segment)
    (filepath : pystr) : json :=
  JDict
    [ (lit "success", JBool true);
      first;
      (lit "title", title);
      (lit "duration", JStr (format_duration duration));
      (lit "language", JStr language);
      (lit "segments_count", JInt (Z.of_nat (length segments)));
      (lit "saved_to", JStr filepath);
      (lit "transcript", JStr (full_text segments)) ].

End FlowVocabulary.

(** [int(segments[-1][end]) if segments else 0]. *)
Definition last_end (segments : list segment) : Z :=
  match segments with
  | [] => 0
  | first :: _ => int_of_float (seg_end (last segments first))
  end.

(** Every value the computation can return satisfies [Q]. *)
Definition answers {A} (Q : A -> Prop) (m : M A) : Prop :=
  forall w a, fst (m w) = Ret a -> Q a.

(** An answer other than the error for a tool that is not known. *)
Definition handled (r : json) : Prop :=
  forall name, r <> JDict [(lit "error", JStr (lit "Unknown tool: " ++ name))].

(** [s] between double quotes. *)
Definition quoted (s : pystr) : pystr := [34%N] ++ s ++ [34%N].

(** A character that a JSON string shows as it is when [ensure_ascii] is
    off: anything from the space on but the double quote and the backslash. *)
Definition shown_as_is (c : char) : bool :=
  ((32 <=? c) && negb (c =? 34) && negb (c =? 92))%N.

(** A character that [sanitize_filename] lets through. *)
Definition valid_char (c : char) : bool := negb (is_invalid c).

(** [info.get(key, default)] on the items of a JSON object. *)
Definition field_or (items : list (pystr * json)) (key : pystr) (default : json)
  : json :=
  match json_field key (JDict items) with
  | Some v => v
  | None => default
  end.

(** ** More concrete runs *)

Module Cases.

(** A process whose model is already loaded, with transcripts on the shelf
    and a stale download in the temp directory. *)
Definition warm : world :=
  {| temp_dir := [Scenario.audio "audio_20231231_235959.mp3" true true];
     transcripts_dir := transcripts_dir Scenario.shelf;
     ticks := 7; whisper_model := true;
     calls := [CallLoadModel; CallTranscribe (lit "/home/user/old.mp3") None] |}.

(** The environment [E] with a probe that ends well and reports [info]. *)
Definition with_metadata (E : env) (info : json) : env :=
  {| DEFAULT_LANGUAGE := DEFAULT_LANGUAGE E;
     TRANSCRIPTS_DIR := TRANSCRIPTS_DIR E;
     TEMP_DIR := TEMP_DIR E;
     str_lower := str_lower E;
     clock := clock E;
     fromtimestamp := fromtimestamp E;
     yt_dlp := yt_dlp E;
     json_loads := fun _ => Some info;
     load_model := load_model E;
     engine_transcribe := engine_transcribe E;
     open_for_writing := open_for_writing E;
     expanduser := expanduser E;
     path_exists := path_exists E |}.

(** A lecture whose duration yt-dlp reports with a fraction. *)
Definition env_fractional : env :=
  with_metadata Scenario.env_success
    (JDict [ (lit "title", JStr (lit "Лекция 1/2: введение"));
             (lit "duration", JFloat (427 # 2));
             (lit "uploader", JStr (lit "МГУ")) ]).

(** The same lecture with a whole number of seconds. *)
Definition env_lecture : env :=
  with_metadata Scenario.env_success
    (JDict [ (lit "title", JStr (lit "Лекция 1/2: введение"));
             (lit "duration", JInt 213);
             (lit "uploader", JStr (lit "МГУ")) ]).

Definition downloaded : dirent :=
  Scenario.audio "audio_20240101_120000.mp3" true true.

(** The environment [E] with a model whose constructor raises [e]. *)
Definition without_model (E : env) (e : exn) : env :=
  {| DEFAULT_LANGUAGE := DEFAULT_LANGUAGE E;
     TRANSCRIPTS_DIR := TRANSCRIPTS_DIR E;
     TEMP_DIR := TEMP_DIR E;
     str_lower := str_lower E;
     clock := clock E;
     fromtimestamp := fromtimestamp E;
     yt_dlp := yt_dlp E;
     json_loads := json_loads E;
     load_model := Some e;
     engine_transcribe := engine_transcribe E;
     open_for_writing := open_for_writing E;
     expanduser := expanduser E;
     path_exists := path_exists E |}.

Definition no_weights : exn :=
  Exn OSError (lit "Unable to open file 'model.bin' in model 'large-v3'").

Definition env_no_model : env := without_model Scenario.env_success no_weights.

Definition talk : pystr := lit "/home/user/talk.mp3".

(** The environment [E] on a file system that answers [verdict] when a
    transcript is opened for writing. *)
Definition with_open (E : env) (verdict : pystr -> option exn) : env :=
  {| DEFAULT_LANGUAGE := DEFAULT_LANGUAGE E;
     TRANSCRIPTS_DIR := TRANSCRIPTS_DIR E;
     TEMP_DIR := TEMP_DIR E;
     str_lower := str_lower E;
     clock := clock E;
     fromtimestamp := fromtimestamp E;
     yt_dlp := yt_dlp E;
     json_loads := json_loads E;
     load_model := load_model E;
     engine_transcribe := engine_transcribe E;
     open_for_writing := verdict;
     expanduser := expanduser E;
     path_exists := path_exists E |}.

(** A file system whose names hold 255 bytes. *)
Definition name_max (path : pystr) : option exn :=
  if (255 <? length (utf8_bytes (path_name path)))%nat
  then Some (Exn OSError
               (lit "[Errno 36] File name too long: '" ++ path ++ lit "'"))
  else None.

Definition env_name_max : env := with_open Scenario.env_success name_max.

(** A title of one hundred characters of three bytes each. *)
Definition long_title : pystr := repeat 23383%N 100.

(** A segment whose text is a lone surrogate. *)
Definition broken_text : list segment :=
  [ {| seg_start := 0; seg_end := 1; seg_text := [55296%N] |} ].

(** The environment [E] with the transcripts directory configured as [dir]. *)
Definition with_transcripts_dir (E : env) (dir : pystr) : env :=
  {| DEFAULT_LANGUAGE := DEFAULT_LANGUAGE E;
     TRANSCRIPTS_DIR := dir;
     TEMP_DIR := TEMP_DIR E;
     str_lower := str_lower E;
     clock := clock E;
     fromtimestamp := fromtimestamp E;
     yt_dlp := yt_dlp E;
     json_loads := json_loads E;
     load_model := load_model E;
     engine_transcribe := engine_transcribe E;
     open_for_writing := open_for_writing E;
     expanduser := expanduser E;
     path_exists := path_exists E |}.

(** The transcripts directory given by a relative path. *)
Definition env_relative : env :=
  with_transcripts_dir Scenario.env_success (lit "out").

(** A store that holds one transcript of 1536 bytes. *)
Definition one_transcript : world :=
  {| temp_dir := [];
     transcripts_dir := [Scenario.transcript "2024-01-01_0900_YouTube_a.txt" 1536];
     ticks := 0; whisper_model := false; calls := [] |}.

(** A local file in which the engine hears nothing. *)
Definition env_quiet_file : env :=
  Scenario.make_env Scenario.ok Scenario.ok [] talk (Ret []).

(** A call that carries no argument at all. *)
Definition no_arguments : arguments :=
  {| arg_url := None; arg_file_path := None;
     arg_language := None; arg_limit := None |}.

End Cases.

(** * Properties *)

(** ** Text utilities *)

Lemma str_eqb_spec a b : str_eqb a b = true <-> a = b.
Proof.
  revert b; induction a as [|x a IH]; intros [|y b]; simpl;
    try (split; [discriminate | congruence]); try tauto.
  unfold char_eqb. rewrite andb_true_iff, N.eqb_eq, IH.
  split; [intros [-> ->]; reflexivity | intros H; inversion H; auto].
Qed.

Lemma startswith_spec p s : startswith p s = true <-> exists r, s = p ++ r.
Proof.
  revert s. induction p as [|a p IH]; intros s; simpl.
  - split; [intros _; exists s; reflexivity | reflexivity].
  - destruct s as [|b s].
    + split; [discriminate | intros (r & H); discriminate].
    + unfold char_eqb. rewrite andb_true_iff, N.eqb_eq, IH. split.
      * intros (-> & r & ->). exists r; reflexivity.
      * intros (r & H). inversion H; subst. split; [reflexivity | exists r; reflexivity].
Qed.

Lemma endswith_spec suffix s :
  endswith suffix s = true <-> exists stem, s = stem ++ suffix.
Proof.
  unfold endswith. rewrite startswith_spec. split.
  - intros (r & H). exists (rev r).
    rewrite <- (rev_involutive s), H, rev_app_distr, rev_involutive.
    reflexivity.
  - intros (stem & ->). exists (rev stem). apply rev_app_distr.
Qed.

Example fnmatch_mp3 :
  fnmatch (lit "audio_*.mp3") (lit "audio_20240101_120000.mp3") = true
  /\ fnmatch (lit "audio_*.mp3") (lit "audio_20240101_120000.mp3.mp3") = true
  /\ fnmatch (lit "audio_*.mp3") (lit "audio_20240101_120000.m4a") = false
  /\ fnmatch (lit "audio_*.mp3") (lit "audio_20240101_120000.mp3.part") = false
  /\ fnmatch (lit "audio_*") (lit "audio_20240101_120000.m4a") = true.
Proof. vm_compute. repeat split. Qed.

Example format_duration_125 : format_duration 125 = lit "2:05".
Proof. reflexivity. Qed.

Example format_duration_3725 : format_duration 3725 = lit "1:02:05".
Proof. reflexivity. Qed.

Example format_timestamp_65 : format_timestamp 65 = lit "[01:05]".
Proof. vm_compute. reflexivity. Qed.

Example format_timestamp_3725 : format_timestamp 3725 = lit "[01:02:05]".
Proof. vm_compute. reflexivity. Qed.

Example format_timestamp_half : format_timestamp (131 # 2) = lit "[01:05]".
Proof. vm_compute. reflexivity. Qed.

(** *** Facts about stripping *)

Lemma lstrip_suffix s : exists p, s = p ++ lstrip s.
Proof.
  induction s as [|c r [p Hp]]; simpl.
  - exists []; reflexivity.
  - destruct (isspace c).
    + exists (c :: p); simpl; congruence.
    + exists []; reflexivity.
Qed.

Lemma rstrip_prefix s : exists q, s = rstrip s ++ q.
Proof.
  unfold rstrip. destruct (lstrip_suffix (rev s)) as [p Hp].
  exists (rev p). rewrite <- rev_app_distr, <- Hp. symmetry; apply rev_involutive.
Qed.

Lemma lstrip_head s c : hd_error (lstrip s) = Some c -> isspace c = false.
Proof.
  induction s as [|a r IH]; simpl; [discriminate|].
  destruct (isspace a) eqn:E; [exact IH|].
  simpl; intros H; injection H as <-; exact E.
Qed.

Lemma lstrip_fixed s :
  (forall c, hd_error s = Some c -> isspace c = false) -> lstrip s = s.
Proof.
  destruct s as [|a r]; simpl; [reflexivity|].
  intros H; rewrite (H a eq_refl); reflexivity.
Qed.

Lemma lstrip_idem s : lstrip (lstrip s) = lstrip s.
Proof. apply lstrip_fixed, lstrip_head. Qed.

Lemma rstrip_idem s : rstrip (rstrip s) = rstrip s.
Proof. unfold rstrip. rewrite rev_involutive, lstrip_idem; reflexivity. Qed.

Lemma rstrip_last s c : hd_error (rev (rstrip s)) = Some c -> isspace c = false.
Proof. unfold rstrip. rewrite rev_involutive. apply lstrip_head. Qed.

Lemma rstrip_keeps_head s c :
  hd_error (rstrip s) = Some c -> hd_error s = Some c.
Proof.
  destruct (rstrip_prefix s) as [q Hq].
  destruct (rstrip s) as [|a u]; simpl; [discriminate|].
  intros H; rewrite Hq; exact H.
Qed.

Lemma strip_head s c : hd_error (strip s) = Some c -> isspace c = false.
Proof. unfold strip. intros H. apply rstrip_keeps_head in H. eapply lstrip_head; eauto. Qed.

Lemma strip_last s c : hd_error (rev (strip s)) = Some c -> isspace c = false.
Proof. apply rstrip_last. Qed.

Lemma strip_idem s : strip (strip s) = strip s.
Proof.
  unfold strip at 1.
  rewrite (lstrip_fixed (strip s)) by apply strip_head.
  unfold strip. apply rstrip_idem.
Qed.

Lemma strip_decompose s : exists p q, s = p ++ strip s ++ q.
Proof.
  destruct (lstrip_suffix s) as [p Hp].
  destruct (rstrip_prefix (lstrip s)) as [q Hq].
  exists p, q. unfold strip. rewrite <- Hq. exact Hp.
Qed.

Lemma strip_In s c : In c (strip s) -> In c s.
Proof.
  destruct (strip_decompose s) as (p & q & H). intros Hc.
  rewrite H. apply in_or_app; right. apply in_or_app; left; exact Hc.
Qed.

Lemma strip_length s : (length (strip s) <= length s)%nat.
Proof.
  destruct (strip_decompose s) as (p & q & H).
  rewrite H at 2. rewrite !length_app. lia.
Qed.

Lemma filter_fixed {A} (f : A -> bool) l :
  (forall x, In x l -> f x = true) -> filter f l = l.
Proof.
  induction l as [|a l IH]; simpl; intros H; [reflexivity|].
  rewrite (H a (or_introl eq_refl)), IH; auto.
Qed.

Lemma In_firstn {A} n (l : list A) x : In x (firstn n l) -> In x l.
Proof.
  intros H. rewrite <- (firstn_skipn n l). apply in_or_app; left; exact H.
Qed.

Lemma sanitize_no_invalid x c :
  In c (sanitize_filename x) -> is_invalid c = false.
Proof.
  unfold sanitize_filename. intros H.
  apply strip_In, In_firstn, filter_In in H.
  destruct H as [_ H]. destruct (is_invalid c); [discriminate | reflexivity].
Qed.

Lemma sanitize_length x : (length (sanitize_filename x) <= 100)%nat.
Proof.
  unfold sanitize_filename.
  etransitivity; [apply strip_length|]. rewrite length_firstn. lia.
Qed.

(** C8: [sanitize_filename] returns a string free of the nine characters
    (less-than, greater-than, colon, double quote, slash, backslash, bar,
    question mark, star), of at most 100 characters, that neither starts nor ends
    with whitespace (it is a fixed point of [strip]), and applying it twice
    equals applying it once. *)
Theorem sanitize_filename_clean_idempotent (x : pystr) :
  (forall c, In c invalid_chars -> ~ In c (sanitize_filename x)) /\
  (length (sanitize_filename x) <= 100)%nat /\
  (forall c, hd_error (sanitize_filename x) = Some c -> isspace c = false) /\
  (forall c, hd_error (rev (sanitize_filename x)) = Some c -> isspace c = false) /\
  strip (sanitize_filename x) = sanitize_filename x /\
  sanitize_filename (sanitize_filename x) = sanitize_filename x.
Proof.
  split; [|split; [|split; [|split; [|split]]]].
  - intros c Hc Hin. apply sanitize_no_invalid in Hin.
    unfold is_invalid in Hin.
    assert (existsb (char_eqb c) invalid_chars = true) as E.
    { apply existsb_exists. exists c; split; [exact Hc | apply N.eqb_refl]. }
    congruence.
  - apply sanitize_length.
  - intros c. apply strip_head.
  - intros c. apply strip_last.
  - apply strip_idem.
  - unfold sanitize_filename at 1.
    rewrite filter_fixed.
    + rewrite firstn_all2 by apply sanitize_length.
      apply strip_idem.
    + intros c Hc. rewrite (sanitize_no_invalid x c Hc). reflexivity.
Qed.

(** ** Running the computations *)

Ltac unfold_py :=
  unfold bind, ret, raise, try_except, try_finally, get_world, log_call,
    set_temp_dir, set_whisper_model, getitem in *.

Lemma dirent_eqb_spec a b : dirent_eqb a b = true <-> a = b.
Proof.
  unfold dirent_eqb. rewrite !andb_true_iff, str_eqb_spec, !Bool.eqb_true_iff.
  destruct a, b; simpl. split.
  - intros [[-> ->] ->]; reflexivity.
  - intros H; inversion H; auto.
Qed.

Lemma dirent_eqb_refl a : dirent_eqb a a = true.
Proof. apply dirent_eqb_spec; reflexivity. Qed.

Lemma str_eqb_refl a : str_eqb a a = true.
Proof. apply str_eqb_spec; reflexivity. Qed.

Lemma str_eqb_neq a b : a <> b -> str_eqb a b = false.
Proof.
  intros H. destruct (str_eqb a b) eqn:Eq; [|reflexivity].
  apply str_eqb_spec in Eq. contradiction.
Qed.

Section FileFlow.

Variable E : env.

(** C7: when the home-expanded path does not exist, [handle_transcribe_file]
    returns the dict with the single key error and the message
    File not found: followed by the path as given, and the world is left
    as it was: no call to the engine, no model load, no file written. *)
Theorem transcribe_file_missing_path
    (file_path : pystr) (language : option pystr) (w : world) :
  path_exists E (expanduser E file_path) = false ->
  handle_transcribe_file E file_path language w
  = (Ret (JDict [(lit "error", JStr (lit "File not found: " ++ file_path))]), w).
Proof.
  intros H. unfold handle_transcribe_file. rewrite H. reflexivity.
Qed.

End FileFlow.

(** ** The URL flow *)

Section UrlFlow.

Variable E : env.

Lemma subprocess_run_run argv timeout w :
  subprocess_run E argv timeout w
  = (match fst (yt_dlp E argv (temp_dir w)) with
     | Completed rc stdout => Ret (rc, stdout)
     | RunRaised e => Raise e
     end, after_run E w argv timeout).
Proof.
  unfold subprocess_run, after_run.
  destruct (yt_dlp E argv (temp_dir w)) as [[rc so|e] l]; reflexivity.
Qed.

(** The probe never raises; it leaves the world that the run left. *)
Lemma get_video_info_run url w :
  exists info,
    get_video_info E url w = (Ret info, after_run E w (info_argv url) 60)
    /\ (probe_failed E url w -> info = default_info).
Proof.
  unfold get_video_info, probe_failed. unfold_py.
  rewrite subprocess_run_run.
  destruct (fst (yt_dlp E (info_argv url) (temp_dir w))) as [rc so|e]; simpl.
  - destruct (rc =? 0) eqn:Hrc.
    + unfold loads. destruct (json_loads E so) as [v|] eqn:Hv; unfold_py.
      * destruct v; simpl;
          try (eexists; split; [reflexivity|];
               intros [H|H]; [apply Z.eqb_eq in Hrc; contradiction | reflexivity]).
        eexists; split; [reflexivity|].
        intros [H|H]; [apply Z.eqb_eq in Hrc; contradiction|].
        exfalso; eapply H; reflexivity.
      * eexists; split; [reflexivity|]. reflexivity.
    + eexists; split; reflexivity.
  - eexists; split; reflexivity.
Qed.

Lemma download_audio_run url out w :
  download_audio E url out w
  = (Ret (match fst (yt_dlp E (download_argv url out) (temp_dir w)) with
          | Completed rc _ => rc =? 0
          | RunRaised _ => false
          end), after_run E w (download_argv url out) 300).
Proof.
  unfold download_audio. unfold_py. rewrite subprocess_run_run.
  destruct (fst (yt_dlp E (download_argv url out) (temp_dir w))); reflexivity.
Qed.

(** *** The [finally] block *)

Lemma filter_filter_and {A} (p q : A -> bool) l :
  filter q (filter p l) = filter (fun x => p x && q x) l.
Proof.
  induction l as [|a l IH]; simpl; [reflexivity|].
  destruct (p a); simpl; [destruct (q a)|]; rewrite IH; reflexivity.
Qed.

Lemma unlink_swallowed_run f w :
  unlink_swallowed f w
  = (Ret tt,
     {| temp_dir :=
          filter (fun d => negb (dirent_eqb f d && d_unlinkable f)) (temp_dir w);
        transcripts_dir := transcripts_dir w; ticks := ticks w;
        whisper_model := whisper_model w; calls := calls w |}).
Proof.
  unfold unlink_swallowed, unlink. unfold_py.
  destruct (existsb (dirent_eqb f) (temp_dir w)) eqn:Hin.
  - destruct (d_unlinkable f) eqn:Hu; simpl.
    + do 2 f_equal. apply filter_ext. intros d. rewrite andb_true_r; reflexivity.
    + destruct w; simpl. do 2 f_equal. symmetry. apply filter_fixed.
      intros d _. rewrite andb_false_r; reflexivity.
  - destruct w; simpl in *. do 2 f_equal. symmetry. apply filter_fixed.
    intros d Hd. destruct (dirent_eqb f d) eqn:Heq; [|reflexivity].
    apply dirent_eqb_spec in Heq; subst d.
    assert (existsb (dirent_eqb f) temp_dir0 = true) as C.
    { apply existsb_exists. exists f. split; [exact Hd | apply dirent_eqb_refl]. }
    congruence.
Qed.

Lemma for_each_unlink_run l w :
  for_each l unlink_swallowed w
  = (Ret tt,
     {| temp_dir :=
          filter (fun d => negb (existsb (fun f => dirent_eqb f d && d_unlinkable f) l))
                 (temp_dir w);
        transcripts_dir := transcripts_dir w; ticks := ticks w;
        whisper_model := whisper_model w; calls := calls w |}).
Proof.
  revert w. induction l as [|f l IH]; intros w.
  - destruct w; simpl. unfold ret. do 2 f_equal. symmetry.
    apply filter_fixed; reflexivity.
  - cbn [for_each]. unfold bind at 1. rewrite unlink_swallowed_run, IH. simpl.
    do 2 f_equal. rewrite filter_filter_and. apply filter_ext. intros d.
    rewrite negb_orb. reflexivity.
Qed.

(** The [finally] block never raises, and removes exactly the entries that
    match its pattern and can be unlinked. *)
Lemma cleanup_temp_run w : cleanup_temp w = (Ret tt, cleaned w).
Proof.
  unfold cleanup_temp. unfold bind at 1. unfold get_world.
  change (fun f : dirent => try_except (unlink f) (fun _ : exn => ret tt))
    with unlink_swallowed.
  rewrite for_each_unlink_run. unfold cleaned. do 2 f_equal.
  apply filter_ext_in. intros d Hd. f_equal. unfold removable, glob.
  destruct (fnmatch (lit "audio_*") (d_name d) && d_unlinkable d) eqn:Hm.
  - apply andb_true_iff in Hm as [Hm Hu].
    apply existsb_exists. exists d. split.
    + apply filter_In. split; [exact Hd | exact Hm].
    + rewrite dirent_eqb_refl, Hu; reflexivity.
  - destruct (existsb _ _) eqn:Hex; [|reflexivity].
    apply existsb_exists in Hex as (f & Hf & Heq).
    apply filter_In in Hf as [_ Hf].
    apply andb_true_iff in Heq as [Heq Hu].
    apply dirent_eqb_spec in Heq; subst f.
    unfold name_of, dirent_named in Hf. rewrite Hf, Hu in Hm. discriminate.
Qed.

Lemma try_finally_cleanup {A} (body : M A) w :
  try_finally body cleanup_temp w = (fst (body w), cleaned (snd (body w))).
Proof.
  unfold try_finally. destruct (body w) as [r w1]. rewrite cleanup_temp_run.
  reflexivity.
Qed.

Lemma datetime_now_run w :
  datetime_now E w
  = (Ret (fromtimestamp E (clock E (ticks w))),
     {| temp_dir := temp_dir w; transcripts_dir := transcripts_dir w;
        ticks := S (ticks w); whisper_model := whisper_model w;
        calls := calls w |}).
Proof. reflexivity. Qed.

(** The handler is its [try] block followed by the [finally] block. *)
Lemma handle_transcribe_url_run url language w :
  handle_transcribe_url E url language w
  = (fst (url_flow_try E url language w),
     cleaned (snd (url_flow_try E url language w))).
Proof.
  unfold handle_transcribe_url, url_flow_try.
  destruct (get_video_info_run url w) as (info & Hinfo & _).
  unfold bind. rewrite Hinfo. cbv beta iota. unfold datetime_now.
  apply try_finally_cleanup.
Qed.

Lemma fnmatch_star_any n : fnmatch [chr "*"] n = true.
Proof.
  induction n as [|c n IH]; [reflexivity|].
  cbn in *. exact IH.
Qed.

Lemma fnmatch_literal_cons c pat n :
  is_literal c = true ->
  fnmatch (c :: pat) n
  = match n with [] => false | x :: n' => (c =? x)%N && fnmatch pat n' end.
Proof.
  unfold is_literal. intros H. apply andb_true_iff in H as [H1 H2].
  apply negb_true_iff in H1, H2. cbn [fnmatch]. rewrite H1.
  destruct n; [reflexivity|]. rewrite H2. reflexivity.
Qed.

Lemma fnmatch_literal_prefix pre pat n :
  forallb is_literal pre = true ->
  fnmatch (pre ++ pat) n = true <->
  exists m, n = pre ++ m /\ fnmatch pat m = true.
Proof.
  revert n. induction pre as [|c pre IH]; intros n Hl.
  - simpl. split; [intros H; exists n; auto | intros (m & -> & H); exact H].
  - cbn [forallb] in Hl. apply andb_true_iff in Hl as [Hc Hl].
    cbn [app]. rewrite (fnmatch_literal_cons c _ n Hc).
    destruct n as [|x n].
    + split; [discriminate | intros (m & Hm & _); discriminate].
    + rewrite andb_true_iff, N.eqb_eq, (IH n Hl). split.
      * intros (-> & m & -> & H). exists m; auto.
      * intros (m & Hm & H). inversion Hm; subst. split; [reflexivity|].
        exists m; auto.
Qed.

Lemma fnmatch_audio_prefix rest :
  fnmatch (lit "audio_*") (lit "audio_" ++ rest) = true.
Proof.
  change (lit "audio_*") with (lit "audio_" ++ [chr "*"]).
  apply fnmatch_literal_prefix; [reflexivity|].
  exists rest. split; [reflexivity | apply fnmatch_star_any].
Qed.

(** What the scan for the artifact accepts, the [finally] block removes. *)
Lemma scan_pattern_is_cleaned name :
  fnmatch (lit "audio_*.mp3") name = true ->
  fnmatch (lit "audio_*") name = true.
Proof.
  change (lit "audio_*.mp3") with (lit "audio_" ++ chr "*" :: lit ".mp3").
  intros H. apply fnmatch_literal_prefix in H; [|reflexivity].
  destruct H as (m & -> & _). apply fnmatch_audio_prefix.
Qed.

(** C1: whatever the [try] block of [handle_transcribe_url] does (return a
    result or an error dict, or raise), the handler hands back exactly that
    outcome, and the temp directory it leaves is the one the [try] block
    left minus every entry that matches the pattern audio_* and can be
    unlinked.  So no matching entry survives unless its removal failed, a
    failed removal changes neither the outcome nor the other removals, and
    the job's own temp name is covered by the pattern. *)
Theorem transcribe_url_cleanup
    (url : pystr) (language : option pystr) (w : world) :
  let tried := url_flow_try E url language w in
  let done := handle_transcribe_url E url language w in
  fst done = fst tried
  /\ temp_dir (snd done)
     = filter (fun d => negb (fnmatch (lit "audio_*") (d_name d) && d_unlinkable d))
              (temp_dir (snd tried))
  /\ (forall d, In d (temp_dir (snd done)) ->
       fnmatch (lit "audio_*") (d_name d) = true -> d_unlinkable d = false)
  /\ (forall d, In d (temp_dir (snd tried)) ->
       fnmatch (lit "audio_*") (d_name d) = true -> d_unlinkable d = true ->
       ~ In d (temp_dir (snd done)))
  /\ fnmatch (lit "audio_*") (temp_audio_name E w) = true
  /\ transcripts_dir (snd done) = transcripts_dir (snd tried)
  /\ calls (snd done) = calls (snd tried).
Proof.
  intros tried done. subst tried done.
  rewrite handle_transcribe_url_run. cbn [fst snd cleaned temp_dir transcripts_dir calls].
  split; [reflexivity|]. split; [reflexivity|]. split; [|split; [|split]].
  - intros d Hd Hm. apply filter_In in Hd as [_ Hd].
    unfold removable in Hd. rewrite Hm in Hd. simpl in Hd.
    destruct (d_unlinkable d); [discriminate | reflexivity].
  - intros d _ Hm Hu Hd. apply filter_In in Hd as [_ Hd].
    unfold removable in Hd. rewrite Hm, Hu in Hd. discriminate.
  - unfold temp_audio_name. apply fnmatch_audio_prefix.
  - split; reflexivity.
Qed.

(** *** Stage by stage *)

Lemma url_flow_try_run url language w :
  exists info,
    (probe_failed E url w -> info = default_info)
    /\ url_flow_try E url language w
       = transcribe_url_try E url (resolve_language E language)
           (detect_platform E url) (vi_title info) (vi_duration info)
           (temp_audio_path E w) (before_acquisition E url w).
Proof.
  destruct (get_video_info_run url w) as (info & Hinfo & Hdef).
  exists info. split; [exact Hdef|].
  unfold url_flow_try, bind. rewrite Hinfo. reflexivity.
Qed.

(** The engine adapter touches neither directory; it logs a model load
    when the global is unset, and the engine call when the model is there. *)
Lemma transcribe_audio_run path language w :
  exists r b l,
    transcribe_audio E path language w
    = (r, {| temp_dir := temp_dir w; transcripts_dir := transcripts_dir w;
             ticks := ticks w; whisper_model := b; calls := calls w ++ l |})
    /\ l <> []
    /\ (forall c, In c l ->
          c = CallLoadModel
          \/ c = CallTranscribe path
                 (if str_eqb language (lit "auto") then None else Some language)).
Proof.
  unfold transcribe_audio, get_whisper_model, engine_call. unfold_py.
  destruct w as [tmp store n loaded log].
  cbn [temp_dir transcripts_dir ticks whisper_model calls].
  destruct loaded.
  - destruct (engine_transcribe E path _) as [segs|e];
      do 3 eexists; (split; [reflexivity|]);
      (split; [discriminate|]); intros c [<-|[]]; auto.
  - destruct (load_model E) as [e|]; unfold_py.
    + do 3 eexists. split; [reflexivity|].
      split; [discriminate|]. intros c [<-|[]]; auto.
    + cbn [calls temp_dir transcripts_dir ticks whisper_model].
      destruct (engine_transcribe E path _) as [segs|e];
        do 3 eexists; (split; [rewrite <- app_assoc; reflexivity|]);
        (split; [discriminate|]); intros c [<-|[<-|[]]]; auto.
Qed.

(** The store writes nothing to the temp directory and logs at most the
    one write. *)
Lemma save_transcript_run url platform title duration segments language w :
  exists r t n l,
    save_transcript E url platform title duration segments language w
    = (r, {| temp_dir := temp_dir w; transcripts_dir := t; ticks := n;
             whisper_model := whisper_model w; calls := calls w ++ l |}).
Proof.
  unfold save_transcript, datetime_now, expect_str, expect_int, write_text.
  unfold_py.
  destruct title; try (do 4 eexists; rewrite app_nil_r; reflexivity).
  destruct duration; try (do 4 eexists; rewrite app_nil_r; reflexivity);
    (destruct (open_for_writing E _); [|destruct (utf8_encode _)]);
    do 4 eexists; reflexivity.
Qed.

(** From the acquisition on, the [try] block only appends to the log. *)
Lemma transcribe_url_try_calls url language platform title duration out w :
  exists l,
    calls (snd (transcribe_url_try E url language platform title duration out w))
    = calls w ++ CallYtDlp (download_argv url out) 300 :: l.
Proof.
  unfold transcribe_url_try. unfold bind at 1. rewrite download_audio_run.
  destruct (negb _).
  - exists []. reflexivity.
  - unfold bind at 1. unfold get_world.
    destruct (hd_error _) as [f|]; [|exists []; reflexivity].
    destruct (negb (d_exists f)); [exists []; reflexivity|].
    unfold bind at 1.
    match goal with |- context [transcribe_audio E ?p ?l ?x] =>
      destruct (transcribe_audio_run p l x) as (r & b & l1 & -> & _ & _) end.
    destruct r as [[|s segs]|e]; try (eexists; cbn; rewrite <- app_assoc; reflexivity).
    unfold bind at 1.
    match goal with |- context [save_transcript E ?a ?b ?c ?d ?e ?f ?x] =>
      destruct (save_transcript_run a b c d e f x) as (r & t & n & l2 & ->) end.
    destruct r as [fp|e]; cbn.
    + unfold bind, expect_int.
      destruct duration; cbn; eexists; rewrite <- !app_assoc; reflexivity.
    + eexists; rewrite <- !app_assoc; reflexivity.
Qed.

(** C5: the metadata probe always returns a record of title, duration and
    uploader and never raises; whenever the probe failed (non-zero exit,
    timeout or any other exception from the run, output that is not the
    text of a JSON object) the record is the all-default one; and in every
    case the URL flow goes on to run the audio acquisition. *)
Theorem metadata_probe_absorbs_failure (url : pystr) (w : world) :
  (exists info,
     get_video_info E url w = (Ret info, after_run E w (info_argv url) 60)
     /\ (probe_failed E url w ->
         info = {| vi_title := JStr (lit "Unknown");
                   vi_duration := JInt 0;
                   vi_uploader := JStr (lit "Unknown") |}))
  /\ (forall language,
       In (acquisition_call E url w)
          (calls (snd (handle_transcribe_url E url language w)))).
Proof.
  split; [apply get_video_info_run|].
  intros language. rewrite handle_transcribe_url_run. cbn [snd cleaned calls].
  destruct (url_flow_try_run url language w) as (info & _ & ->).
  match goal with |- context [transcribe_url_try E ?a ?b ?c ?d ?e ?f ?x] =>
    destruct (transcribe_url_try_calls a b c d e f x) as (l & ->) end.
  apply in_or_app; right; left; reflexivity.
Qed.

Lemma url_flow_try_download_failed url language w :
  run_failed (fst (acquisition E url w)) ->
  url_flow_try E url language w
  = (Ret (error_dict (lit "Failed to download audio from " ++ url
                      ++ lit ". Make sure the video is public.")),
     after_run E (before_acquisition E url w)
       (download_argv url (temp_audio_path E w)) 300).
Proof.
  intros Hfail.
  destruct (url_flow_try_run url language w) as (info & _ & ->).
  unfold transcribe_url_try. unfold bind at 1. rewrite download_audio_run.
  unfold acquisition in Hfail.
  destruct (fst (yt_dlp E _ _)) as [rc so|e]; [|reflexivity].
  simpl in Hfail. apply Z.eqb_neq in Hfail. rewrite Hfail. reflexivity.
Qed.

(** C2: when the acquisition run fails (non-zero exit status, timeout or
    any other exception from the run), [handle_transcribe_url] returns the
    dict with the single key error and the download message around the
    URL; the two yt-dlp runs are the only calls made, so neither the
    engine nor the transcript store is reached, and the transcripts
    directory is as it was. *)
Theorem transcribe_url_download_failed
    (url : pystr) (language : option pystr) (w : world) :
  run_failed (fst (acquisition E url w)) ->
  let done := handle_transcribe_url E url language w in
  fst done
  = Ret (JDict [(lit "error",
                 JStr (lit "Failed to download audio from " ++ url
                       ++ lit ". Make sure the video is public."))])
  /\ transcripts_dir (snd done) = transcripts_dir w
  /\ whisper_model (snd done) = whisper_model w
  /\ calls (snd done)
     = calls w ++ [CallYtDlp (info_argv url) 60; acquisition_call E url w].
Proof.
  intros Hfail done; subst done.
  rewrite handle_transcribe_url_run, (url_flow_try_download_failed _ _ _ Hfail).
  cbn [fst snd cleaned after_run before_acquisition calls transcripts_dir
       whisper_model].
  unfold error_dict, acquisition_call. rewrite <- app_assoc.
  repeat split; reflexivity.
Qed.

(** *** Locating the artifact *)

Lemma fnmatch_star_cons pat n :
  fnmatch (chr "*" :: pat) n
  = fnmatch pat n
    || match n with [] => false | _ :: n' => fnmatch (chr "*" :: pat) n' end.
Proof. destruct n; reflexivity. Qed.

Lemma fnmatch_literal_exact suf n :
  forallb is_literal suf = true -> fnmatch suf n = true <-> n = suf.
Proof.
  intros Hl. rewrite <- (app_nil_r suf) at 1.
  rewrite (fnmatch_literal_prefix suf [] n Hl). split.
  - intros (m & -> & Hm). destruct m; [apply app_nil_r | discriminate].
  - intros ->. exists []. split; [symmetry; apply app_nil_r | reflexivity].
Qed.

Lemma fnmatch_star_suffix suf n :
  forallb is_literal suf = true ->
  fnmatch (chr "*" :: suf) n = true <-> exists mid, n = mid ++ suf.
Proof.
  intros Hl. induction n as [|x n IH].
  - rewrite fnmatch_star_cons, orb_false_r, (fnmatch_literal_exact _ _ Hl). split.
    + intros <-. exists []; reflexivity.
    + intros (mid & H). symmetry in H. apply app_eq_nil in H as [_ H]. auto.
  - rewrite fnmatch_star_cons, orb_true_iff, (fnmatch_literal_exact _ _ Hl), IH.
    split.
    + intros [->|(mid & ->)]; [exists [] | exists (x :: mid)]; reflexivity.
    + intros ([|y mid] & H); [left; exact H|].
      right. inversion H; subst. exists mid; reflexivity.
Qed.





End UrlFlow.


(** ** The transcript store *)

Lemma join_cons_cons {A} (sep a b : list A) r :
  join sep (a :: b :: r) = a ++ sep ++ join sep (b :: r).
Proof. reflexivity. Qed.

Lemma join_cons_app {A} (sep a : list A) l t r :
  join sep (a :: l ++ t :: r) = a ++ sep ++ join sep (l ++ t :: r).
Proof. destruct l; reflexivity. Qed.

Lemma join_map_app {A B} (sep : list A) (f : B -> list A) xs t r :
  join sep (map f xs ++ t :: r)
  = List.concat (map (fun x => f x ++ sep) xs) ++ join sep (t :: r).
Proof.
  induction xs as [|x xs IH]; [reflexivity|].
  cbn [map app List.concat]. rewrite join_cons_app, IH, <- !app_assoc.
  reflexivity.
Qed.

Lemma fold_left_append {A B} (f : B -> A) xs (acc : list A) :
  fold_left (fun acc x => acc ++ [f x]) xs acc = acc ++ map f xs.
Proof.
  revert acc. induction xs as [|x xs IH]; intros acc; simpl.
  - symmetry; apply app_nil_r.
  - rewrite IH, <- app_assoc. reflexivity.
Qed.

Lemma utf8_bytes_app a b : utf8_bytes (a ++ b) = utf8_bytes a ++ utf8_bytes b.
Proof. apply flat_map_app. Qed.

Lemma utf8_bytes_join sep parts :
  utf8_bytes (join sep parts) = join (utf8_bytes sep) (map utf8_bytes parts).
Proof.
  induction parts as [|p [|q parts] IH]; [reflexivity | reflexivity |].
  change (join sep (p :: q :: parts)) with (p ++ sep ++ join sep (q :: parts)).
  rewrite !utf8_bytes_app, IH. reflexivity.
Qed.

(** The shape of the file, whatever the labels: nine header lines, the
    body lines, six trailer lines, joined by [nl]. *)
Lemma layout_join {A} (nl l1 v1 l2 v2 l3 v3 l4 v4 l5 v5 l6 v6 r t full : list A)
    (body : list (list A)) :
  join nl ([l1 ++ v1; l2 ++ v2; l3 ++ v3; l4 ++ v4; l5 ++ v5; l6 ++ v6; []; r; []]
           ++ body ++ [[]; r; t; r; []; full])
  = l1 ++ v1 ++ nl ++ l2 ++ v2 ++ nl ++ l3 ++ v3 ++ nl ++ l4 ++ v4 ++ nl
    ++ l5 ++ v5 ++ nl ++ l6 ++ v6 ++ nl ++ nl ++ r ++ nl ++ nl
    ++ List.concat (map (fun x => x ++ nl) body)
    ++ nl ++ r ++ nl ++ t ++ nl ++ r ++ nl ++ nl ++ full.
Proof.
  cbn [app]. rewrite !join_cons_cons.
  rewrite (join_cons_app nl []).
  rewrite <- (map_id body) at 1. rewrite join_map_app.
  cbn [join app]. rewrite <- !app_assoc. reflexivity.
Qed.

(** The labels, on disk, are the UTF-8 bytes of the source literals. *)
Lemma labels_are_utf8 :
  utf8_bytes (lit "Источник: ") = list_byte_of_string "Источник: "
  /\ utf8_bytes (lit "Платформа: ") = list_byte_of_string "Платформа: "
  /\ utf8_bytes (lit "Название: ") = list_byte_of_string "Название: "
  /\ utf8_bytes (lit "Дата транскрипции: ")
     = list_byte_of_string "Дата транскрипции: "
  /\ utf8_bytes (lit "Длительность: ") = list_byte_of_string "Длительность: "
  /\ utf8_bytes (lit "Язык: ") = list_byte_of_string "Язык: "
  /\ utf8_bytes (lit "ПОЛНЫЙ ТЕКСТ (без таймкодов):")
     = list_byte_of_string "ПОЛНЫЙ ТЕКСТ (без таймкодов):"
  /\ rule = lit "=================================================="
  /\ utf8_bytes newline = [Byte.x0a].
Proof. vm_compute. repeat split. Qed.

Lemma encodable_first_surrogate s i :
  encodable s = true -> first_surrogate i s = None.
Proof.
  revert i. induction s as [|c s IH]; intros i; [reflexivity|].
  cbn [encodable forallb first_surrogate]. intros H.
  apply andb_true_iff in H as [Hc Hs]. apply andb_true_iff in Hc as [Hc _].
  apply negb_true_iff in Hc. rewrite Hc. apply IH, Hs.
Qed.

(** A text without surrogates encodes. *)
Lemma utf8_encode_encodable s :
  encodable s = true -> utf8_encode s = Ret (utf8_bytes s).
Proof.
  intros H. unfold utf8_encode. rewrite (encodable_first_surrogate s 0 H).
  reflexivity.
Qed.

Section Store.

Variable E : env.

(** [save_transcript] on a [str] title and an [int] duration: two clock
    readings, then the write. *)
Lemma save_transcript_typed url platform title duration segments language w :
  save_transcript E url platform (JStr title) (JInt duration) segments language w
  = match write_text E (transcript_name E (ticks w) platform title)
            (join newline
               (written_lines url platform title
                  (fromtimestamp E (clock E (S (ticks w)))) duration language
                  segments))
            {| temp_dir := temp_dir w; transcripts_dir := transcripts_dir w;
               ticks := S (S (ticks w)); whisper_model := whisper_model w;
               calls := calls w |} with
    | (Ret _, w1) =>
      (Ret (path_join (TRANSCRIPTS_DIR E)
              (transcript_name E (ticks w) platform title)), w1)
    | (Raise e, w1) => (Raise e, w1)
    end.
Proof. reflexivity. Qed.

Lemma save_transcript_saved url platform title duration segments language w :
  writable E (ticks w) url platform title duration language segments ->
  save_transcript E url platform (JStr title) (JInt duration) segments language w
  = (Ret (path_join (TRANSCRIPTS_DIR E)
            (transcript_name E (ticks w) platform title)),
     saved E w platform title
       (written_lines url platform title
          (fromtimestamp E (clock E (S (ticks w)))) duration language segments)).
Proof.
  intros (Hopen & Henc & _). rewrite save_transcript_typed. unfold write_text.
  rewrite Hopen, (utf8_encode_encodable _ Henc). reflexivity.
Qed.

(** A file that cannot be opened: the exception, and nothing stored. *)
Lemma save_transcript_refused url platform title duration segments language w e :
  open_for_writing E
    (path_join (TRANSCRIPTS_DIR E) (transcript_name E (ticks w) platform title))
  = Some e ->
  save_transcript E url platform (JStr title) (JInt duration) segments language w
  = (Raise e,
     {| temp_dir := temp_dir w; transcripts_dir := transcripts_dir w;
        ticks := S (S (ticks w)); whisper_model := whisper_model w;
        calls := calls w
                 ++ [CallWriteText
                       (path_join (TRANSCRIPTS_DIR E)
                          (transcript_name E (ticks w) platform title))] |}).
Proof.
  intros Hopen. rewrite save_transcript_typed. unfold write_text.
  rewrite Hopen. reflexivity.
Qed.

Lemma written_lines_eq url platform title written duration language segments :
  written_lines url platform title written duration language segments
  = [ lit "Источник: " ++ url;
      lit "Платформа: " ++ platform;
      lit "Название: " ++ title;
      lit "Дата транскрипции: " ++ strftime written (lit "%Y-%m-%d %H:%M");
      lit "Длительность: " ++ format_duration duration;
      lit "Язык: " ++ language;
      [];
      lit "==================================================";
      [] ]
    ++ map (fun seg => format_timestamp (seg_start seg) ++ lit " " ++ seg_text seg)
           segments
    ++ [ [];
         lit "==================================================";
         lit "ПОЛНЫЙ ТЕКСТ (без таймкодов):";
         lit "==================================================";
         [];
         join (lit " ") (map seg_text segments) ].
Proof.
  unfold written_lines. rewrite fold_left_append.
  rewrite <- (app_assoc (header_lines url platform title written duration language)).
  unfold header_lines, full_text.
  replace rule with (lit "==================================================")
    by (vm_compute; reflexivity).
  reflexivity.
Qed.

Lemma utf8_bytes_join_lf (lines : list pystr) :
  utf8_bytes (join newline lines) = join [Byte.x0a] (map utf8_bytes lines).
Proof. apply (utf8_bytes_join newline lines). Qed.

Lemma lines_follow_spec url platform title written duration language segments :
  join newline
    ([ lit "Источник: " ++ url;
       lit "Платформа: " ++ platform;
       lit "Название: " ++ title;
       lit "Дата транскрипции: " ++ strftime written (lit "%Y-%m-%d %H:%M");
       lit "Длительность: " ++ format_duration duration;
       lit "Язык: " ++ language;
       [];
       lit "==================================================";
       [] ]
     ++ map (fun seg => format_timestamp (seg_start seg) ++ lit " " ++ seg_text seg)
            segments
     ++ [ [];
          lit "==================================================";
          lit "ПОЛНЫЙ ТЕКСТ (без таймкодов):";
          lit "==================================================";
          [];
          join (lit " ") (map seg_text segments) ])
  = spec_file_content url platform title written duration language segments.
Proof.
  unfold spec_file_content.
  rewrite (layout_join (A:=char)), map_map. reflexivity.
Qed.

(** C4, with what the claim leaves out: for a [str] title and an [int]
    duration, when the file can be opened for writing under a name
    without a slash, the text holds no lone surrogate and every segment
    starts at a time from 0 up to 2^53,
    [save_transcript] returns the path of, and writes, one file in the
    transcripts directory whose bytes are the UTF-8 encoding of its lines
    joined by line feeds: the six labelled header lines, a blank line, the
    rule of fifty equals signs, a blank line, then for each segment in
    input order the line made of its formatted start time, a space and its
    text, then a blank line, the rule, the plain-text title, the rule, a
    blank line, and finally all segment texts joined by single spaces.
    That text is the layout of the specification. *)
Theorem save_transcript_layout
    (url platform title : pystr) (duration : Z) (segments : list segment)
    (language : pystr) (w : world) :
  writable E (ticks w) url platform title duration language segments ->
  exact_starts segments = true ->
  let named := fromtimestamp E (clock E (ticks w)) in
  let written := fromtimestamp E (clock E (S (ticks w))) in
  let filename :=
    strftime named (lit "%Y-%m-%d_%H%M") ++ lit "_" ++ platform ++ lit "_"
    ++ sanitize_filename title ++ lit ".txt" in
  let lines :=
    [ lit "Источник: " ++ url;
      lit "Платформа: " ++ platform;
      lit "Название: " ++ title;
      lit "Дата транскрипции: " ++ strftime written (lit "%Y-%m-%d %H:%M");
      lit "Длительность: " ++ format_duration duration;
      lit "Язык: " ++ language;
      [];
      lit "==================================================";
      [] ]
    ++ map (fun seg => format_timestamp (seg_start seg) ++ lit " " ++ seg_text seg)
           segments
    ++ [ [];
         lit "==================================================";
         lit "ПОЛНЫЙ ТЕКСТ (без таймкодов):";
         lit "==================================================";
         [];
         join (lit " ") (map seg_text segments) ] in
  let done :=
    save_transcript E url platform (JStr title) (JInt duration) segments
      language w in
  fst done = Ret (path_join (TRANSCRIPTS_DIR E) filename)
  /\ (exists f,
        In f (transcripts_dir (snd done))
        /\ f_name f = filename
        /\ (forall g, In g (transcripts_dir (snd done)) ->
                      f_name g = filename -> g = f)
        /\ utf8_encode (join newline lines) = Ret (f_data f)
        /\ f_data f = join [Byte.x0a] (map utf8_bytes lines))
  /\ join newline lines
     = spec_file_content url platform title written duration language segments
  /\ (forall g, In g (transcripts_dir w) -> f_name g <> filename ->
                In g (transcripts_dir (snd done)))
  /\ calls (snd done)
     = calls w ++ [CallWriteText (path_join (TRANSCRIPTS_DIR E) filename)].
Proof.
  intros Hwrite _ named written filename lines done.
  assert (Hdone : done
    = (Ret (path_join (TRANSCRIPTS_DIR E) filename),
       {| temp_dir := temp_dir w;
          transcripts_dir :=
            filter (fun g => negb (str_eqb (f_name g) filename)) (transcripts_dir w)
            ++ [{| f_name := filename; f_data := utf8_bytes (join newline lines);
                   f_mtime := clock E (S (S (ticks w))) |}];
          ticks := S (S (S (ticks w))); whisper_model := whisper_model w;
          calls := calls w ++ [CallWriteText (path_join (TRANSCRIPTS_DIR E) filename)] |})).
  { subst done. rewrite (save_transcript_saved _ _ _ _ _ _ _ Hwrite).
    unfold saved. subst lines. rewrite written_lines_eq. reflexivity. }
  assert (Henc : encodable (join newline lines) = true).
  { destruct Hwrite as (_ & Henc & _). rewrite written_lines_eq in Henc.
    exact Henc. }
  rewrite Hdone. clear Hdone done.
  split; [reflexivity|]. split; [|split; [|split]].
  - eexists. split; [apply in_or_app; right; left; reflexivity|].
    split; [reflexivity|]. split; [|split].
    + intros g Hg Hname. apply in_app_or in Hg as [Hg|[<-|[]]]; [|reflexivity].
      apply filter_In in Hg as [_ Hg]. rewrite Hname, str_eqb_refl in Hg.
      discriminate.
    + cbn [f_data]. apply utf8_encode_encodable, Henc.
    + apply utf8_bytes_join_lf.
  - apply lines_follow_spec.
  - intros g Hg Hname. apply in_or_app; left. apply filter_In. split; [exact Hg|].
    rewrite (str_eqb_neq _ _ Hname). reflexivity.
  - reflexivity.
Qed.

End Store.

Ltac by_running := vm_compute; first [reflexivity | discriminate | tauto].

Lemma save_transcript_layout_witness :
  fst (save_transcript Scenario.env_success Scenario.url (lit "YouTube")
         (JStr (lit "Лекция 1/2: введение")) (JInt 213) Scenario.two_segments
         (lit "ru") Scenario.idle)
  = Ret (lit "/home/user/Documents/Transcripts/2024-01-01_1200_YouTube_Лекция 12 введение.txt").
Proof.
  assert (writable Scenario.env_success (ticks Scenario.idle) Scenario.url
            (lit "YouTube") (lit "Лекция 1/2: введение") 213 (lit "ru")
            Scenario.two_segments) as H1
    by (repeat split; vm_compute; reflexivity).
  assert (exact_starts Scenario.two_segments = true) as H2
    by (vm_compute; reflexivity).
  rewrite (proj1 (save_transcript_layout Scenario.env_success Scenario.url
                    (lit "YouTube") (lit "Лекция 1/2: введение") 213
                    Scenario.two_segments (lit "ru") Scenario.idle H1 H2)).
  vm_compute. reflexivity.
Defined.

(** C4 as stated fails where the write does.  A segment text that is a
    lone surrogate does not encode: [save_transcript] raises
    [UnicodeEncodeError] and leaves the file it opened empty.  A title of
    one hundred three-byte characters passes [sanitize_filename] whole and
    gives a name of more than 255 bytes; on a file system whose names hold
    255 bytes the file cannot be opened, [save_transcript] raises
    [OSError] and nothing is stored. *)
Lemma save_transcript_write_counterexample :
  let unencodable :=
    save_transcript Scenario.env_success Scenario.url (lit "YouTube")
      (JStr (lit "talk")) (JInt 1) Cases.broken_text (lit "ru") Scenario.idle in
  let too_long :=
    save_transcript Cases.env_name_max Scenario.url (lit "YouTube")
      (JStr Cases.long_title) (JInt 213) Scenario.two_segments (lit "ru")
      Scenario.idle in
  (exists e, fst unencodable = Raise e
             /\ exn_class_of e = UnicodeEncodeError)
  /\ map f_data (transcripts_dir (snd unencodable)) = [[]]
  /\ sanitize_filename Cases.long_title = Cases.long_title
  /\ length (utf8_bytes
               (transcript_name Cases.env_name_max 0 (lit "YouTube")
                  Cases.long_title)) = 328%nat
  /\ (exists e, fst too_long = Raise e /\ exn_class_of e = OSError)
  /\ transcripts_dir (snd too_long) = [].
Proof.
  cbv zeta.
  assert (fst (save_transcript Scenario.env_success Scenario.url (lit "YouTube")
                 (JStr (lit "talk")) (JInt 1) Cases.broken_text (lit "ru")
                 Scenario.idle)
          = Raise (Exn UnicodeEncodeError
                     (lit "'utf-8' codec can't encode character '\ud800' in position 198: surrogates not allowed")))
    as H1 by (vm_compute; reflexivity).
  assert (exists e,
            fst (save_transcript Cases.env_name_max Scenario.url (lit "YouTube")
                   (JStr Cases.long_title) (JInt 213) Scenario.two_segments
                   (lit "ru") Scenario.idle) = Raise e
            /\ exn_class_of e = OSError) as H2
    by (eexists; split; vm_compute; reflexivity).
  split; [eexists; split; [exact H1 | reflexivity]|].
  split; [vm_compute; reflexivity|].
  split; [vm_compute; reflexivity|].
  split; [vm_compute; reflexivity|].
  split; [exact H2|].
  vm_compute. reflexivity.
Qed.

(** ** Listing the transcripts *)

Lemma str_leb_total a b : str_leb a b = true \/ str_leb b a = true.
Proof.
  revert b. induction a as [|x a IH]; intros [|y b]; simpl; auto.
  destruct (N.lt_trichotomy x y) as [H|[H|H]].
  - left. apply N.ltb_lt in H. rewrite H. reflexivity.
  - subst y. rewrite N.ltb_irrefl, N.eqb_refl. simpl. apply IH.
  - right. apply N.ltb_lt in H. rewrite H. reflexivity.
Qed.

Lemma str_leb_trans a b c :
  str_leb a b = true -> str_leb b c = true -> str_leb a c = true.
Proof.
  revert b c. induction a as [|x a IH]; intros [|y b] [|z c]; simpl; auto;
    try discriminate.
  rewrite !orb_true_iff, !andb_true_iff, !N.ltb_lt, !N.eqb_eq.
  intros [H1|[H1 H1']] [H2|[H2 H2']].
  - left; lia.
  - left; lia.
  - left; lia.
  - right. split; [lia | eapply IH; eauto].
Qed.

Lemma str_leb_antisym a b :
  str_leb a b = true -> str_leb b a = true -> a = b.
Proof.
  revert b. induction a as [|x a IH]; intros [|y b]; simpl; auto;
    try discriminate.
  rewrite !orb_true_iff, !andb_true_iff, !N.ltb_lt, !N.eqb_eq.
  intros [H1|[H1 H1']] [H2|[H2 H2']]; try lia.
  subst y. f_equal. apply IH; assumption.
Qed.

Lemma insert_desc_perm f l : Permutation (insert_desc f l) (f :: l).
Proof.
  induction l as [|g r IH]; simpl; [reflexivity|].
  destruct (str_leb (f_name g) (f_name f)); [reflexivity|].
  rewrite IH. apply perm_swap.
Qed.

Lemma sorted_reverse_perm l : Permutation (sorted_reverse l) l.
Proof.
  induction l as [|f l IH]; simpl; [reflexivity|].
  rewrite insert_desc_perm. apply perm_skip, IH.
Qed.

Lemma insert_desc_sorted f l :
  StronglySorted name_ge l -> StronglySorted name_ge (insert_desc f l).
Proof.
  induction 1 as [|g r Hr IH Hg]; simpl.
  - constructor; constructor.
  - destruct (str_leb (f_name g) (f_name f)) eqn:Hle.
    + constructor; [constructor; assumption|].
      constructor; [exact Hle|].
      eapply Forall_impl; [|exact Hg]. intros x Hx. unfold name_ge in *.
      eapply str_leb_trans; eauto.
    + constructor; [exact IH|].
      eapply Permutation_Forall; [symmetry; apply insert_desc_perm|].
      constructor; [|exact Hg]. unfold name_ge.
      destruct (str_leb_total (f_name f) (f_name g)); congruence.
Qed.

Lemma sorted_reverse_sorted l : StronglySorted name_ge (sorted_reverse l).
Proof.
  induction l as [|f l IH]; simpl; [constructor|].
  apply insert_desc_sorted, IH.
Qed.

Lemma StronglySorted_app {A} (R : A -> A -> Prop) l1 l2 :
  StronglySorted R (l1 ++ l2) ->
  StronglySorted R l1 /\ StronglySorted R l2
  /\ (forall x y, In x l1 -> In y l2 -> R x y).
Proof.
  induction l1 as [|a l1 IH]; simpl; intros H.
  - repeat split; [constructor | exact H | intros x y []].
  - inversion H as [|? ? Hs Hf]; subst.
    destruct (IH Hs) as (H1 & H2 & H3).
    rewrite Forall_app in Hf. destruct Hf as [Hf1 Hf2].
    repeat split; [constructor; assumption | exact H2|].
    intros x y [<-|Hx] Hy; [|auto].
    rewrite Forall_forall in Hf2. auto.
Qed.

(** A prefix of the sorted listing: sorted, drawn from the store, and
    ahead of everything left out. *)
Lemma sorted_prefix n (stored : list tfile) :
  let files := firstn n (sorted_reverse stored) in
  let dropped := skipn n (sorted_reverse stored) in
  sorted_reverse stored = files ++ dropped
  /\ StronglySorted name_ge files
  /\ (forall f, In f files -> In f stored)
  /\ (forall f g, In f files -> In g dropped -> name_ge f g)
  /\ (forall f g, In f files -> In g stored -> ~ In g files -> name_ge f g)
  /\ Permutation (files ++ dropped) stored.
Proof.
  intros files dropped.
  assert (Hsplit : sorted_reverse stored = files ++ dropped)
    by (symmetry; apply firstn_skipn).
  pose proof (sorted_reverse_sorted stored) as Hs. rewrite Hsplit in Hs.
  apply StronglySorted_app in Hs as (H1 & _ & H3).
  assert (Hperm : Permutation (files ++ dropped) stored)
    by (rewrite <- Hsplit; apply sorted_reverse_perm).
  repeat split; try assumption.
  - intros f Hf. eapply Permutation_in; [exact Hperm|].
    apply in_or_app; left; exact Hf.
  - intros f g Hf Hg Hn. apply H3; [exact Hf|].
    apply (Permutation_in _ (Permutation_sym Hperm)) in Hg.
    apply in_app_or in Hg as [Hg|Hg]; [contradiction | exact Hg].
Qed.

Lemma filter_perm {A} (p : A -> bool) l l' :
  Permutation l l' -> Permutation (filter p l) (filter p l').
Proof.
  induction 1 as [|x l l' _ IH|x y l|l l' l'' _ IH1 _ IH2]; simpl.
  - constructor.
  - destruct (p x); [apply perm_skip|]; exact IH.
  - destruct (p x), (p y); try reflexivity. apply perm_swap.
  - etransitivity; eauto.
Qed.

Lemma filter_names_nodup (p : tfile -> bool) l :
  NoDup (map f_name l) -> NoDup (map f_name (filter p l)).
Proof.
  induction l as [|a l IH]; simpl; intros H; [constructor|].
  inversion H as [|? ? Hn Hd]; subst.
  destruct (p a); [|auto]. simpl. constructor; [|auto].
  intros Hin. apply Hn. apply in_map_iff in Hin as (x & Hx & Hin).
  apply filter_In in Hin as [Hin _]. apply in_map_iff. exists x; auto.
Qed.

(** Among files of distinct names the descending order is unique. *)
Lemma name_ge_sorted_unique l1 l2 :
  StronglySorted name_ge l1 -> StronglySorted name_ge l2 ->
  Permutation l1 l2 -> NoDup (map f_name l1) -> l1 = l2.
Proof.
  revert l2. induction l1 as [|a l1 IH]; intros l2 H1 H2 Hp Hn.
  - apply Permutation_nil in Hp. auto.
  - destruct l2 as [|b l2]; [symmetry in Hp; apply Permutation_nil in Hp; discriminate|].
    inversion H1 as [|? ? Hs1 Hf1]; subst. inversion H2 as [|? ? Hs2 Hf2]; subst.
    inversion Hn as [|? ? Hna Hnd]; subst.
    rewrite Forall_forall in Hf1, Hf2.
    assert (a = b) as ->.
    { assert (In a (b :: l2)) as Ha
        by (eapply Permutation_in; [exact Hp | left; reflexivity]).
      assert (In b (a :: l1)) as Hb
        by (eapply Permutation_in; [symmetry; exact Hp | left; reflexivity]).
      destruct Ha as [Ha|Ha]; [auto|]. destruct Hb as [Hb|Hb]; [auto|].
      exfalso. apply Hna.
      assert (f_name a = f_name b) as ->
        by (apply str_leb_antisym; [apply (Hf2 a Ha) | apply (Hf1 b Hb)]).
      apply in_map; exact Hb. }
    f_equal. apply IH; try assumption.
    eapply Permutation_cons_inv; exact Hp.
Qed.

(** The listing does not depend on the order in which the directory is
    scanned. *)
Lemma listing_ignores_scan_order limit w w' :
  Permutation (transcripts_dir w) (transcripts_dir w') ->
  NoDup (map f_name (transcripts_dir w)) ->
  listed_files limit w' = listed_files limit w.
Proof.
  intros Hp Hn. unfold listed_files.
  assert (Hg : Permutation (glob (lit "*.txt") (transcripts_dir w))
                 (glob (lit "*.txt") (transcripts_dir w')))
    by (apply filter_perm; exact Hp).
  assert (Hs : sorted_reverse (glob (lit "*.txt") (transcripts_dir w))
               = sorted_reverse (glob (lit "*.txt") (transcripts_dir w'))).
  { apply name_ge_sorted_unique; try apply sorted_reverse_sorted.
    - rewrite sorted_reverse_perm, Hg. symmetry. apply sorted_reverse_perm.
    - eapply Permutation_NoDup;
        [apply Permutation_map; symmetry; apply sorted_reverse_perm|].
      apply filter_names_nodup; exact Hn. }
  rewrite Hs. reflexivity.
Qed.

Lemma txt_pattern : lit "*.txt" = chr "*" :: lit ".txt".
Proof. vm_compute. reflexivity. Qed.

Section Listing.

Variable E : env.

Lemma handle_list_transcripts_run limit w :
  handle_list_transcripts E limit w
  = (Ret (JDict
            [ (lit "transcripts_dir", JStr (TRANSCRIPTS_DIR E));
              (lit "count",
               JInt (Z.of_nat (length (map (transcript_entry E)
                                         (listed_files limit w)))));
              (lit "files", JList (map (transcript_entry E) (listed_files limit w))) ]),
     w).
Proof.
  unfold handle_list_transcripts. unfold_py.
  rewrite (fold_left_append (transcript_entry E)). reflexivity.
Qed.

Lemma round_half_even_close q :
  (Qabs (inject_Z (round_half_even q) - q) <= 1 # 2)%Q.
Proof.
  unfold round_half_even.
  pose proof (Qfloor_le q) as Hlo. pose proof (Qlt_floor q) as Hhi.
  rewrite inject_Z_plus in Hhi. change (inject_Z 1) with 1%Q in Hhi.
  apply Qabs_Qle_condition.
  destruct (Qcompare_spec (q - inject_Z (Qfloor q)) (1 # 2)) as [H|H|H].
  - destruct (Z.even (Qfloor q)).
    + split; lra.
    + rewrite inject_Z_plus. change (inject_Z 1) with 1%Q. split; lra.
  - split; lra.
  - rewrite inject_Z_plus. change (inject_Z 1) with 1%Q. split; lra.
Qed.

(** [round(x, 1)] is within a twentieth of [x]. *)
Lemma py_round1_close x : (Qabs (py_round1 x - x) <= 1 # 20)%Q.
Proof.
  unfold py_round1. pose proof (round_half_even_close (x * 10)) as H.
  apply Qabs_Qle_condition in H. destruct H as [H1 H2].
  unfold Qdiv. change (/ 10)%Q with (1 # 10)%Q.
  apply Qabs_Qle_condition. split; lra.
Qed.

(** What one listed entry carries. *)
Lemma transcript_entry_fields (f : tfile) :
  exists tenths : Z,
    transcript_entry E f
    = JDict
        [ (lit "filename", JStr (f_name f));
          (lit "path", JStr (path_join (TRANSCRIPTS_DIR E) (f_name f)));
          (lit "size_kb", JFloat (inject_Z tenths / 10));
          (lit "modified",
           JStr (strftime (fromtimestamp E (f_mtime f)) (lit "%Y-%m-%d %H:%M"))) ]
    /\ (Qabs (inject_Z tenths / 10 - inject_Z (st_size f) / 1024) <= 1 # 20)%Q
    /\ (startswith (lit "/") (TRANSCRIPTS_DIR E) = true ->
        startswith (lit "/") (path_join (TRANSCRIPTS_DIR E) (f_name f)) = true).
Proof.
  exists (round_half_even (inject_Z (st_size f) / 1024 * 10)).
  split; [reflexivity|]. split; [apply py_round1_close|].
  unfold path_join. intros H.
  destruct (str_eqb (TRANSCRIPTS_DIR E) (lit ".")) eqn:Hdot.
  - apply str_eqb_spec in Hdot. rewrite Hdot in H. vm_compute in H.
    discriminate H.
  - destruct (endswith (lit "/") (TRANSCRIPTS_DIR E));
      destruct (TRANSCRIPTS_DIR E) as [|c d]; try discriminate H; exact H.
Qed.

(** The scan for *.txt finds the entries whose name ends in .txt. *)
Lemma glob_txt (listing : list tfile) :
  glob (lit "*.txt") listing = txt_files listing.
Proof.
  unfold glob, txt_files. apply filter_ext. intros f.
  unfold name_of, tfile_named. apply eq_true_iff_eq.
  rewrite txt_pattern, endswith_spec.
  apply fnmatch_star_suffix. vm_compute. reflexivity.
Qed.

Lemma txt_files_spec (listing : list tfile) (f : tfile) :
  In f (txt_files listing)
  <-> In f listing /\ exists stem, f_name f = stem ++ lit ".txt".
Proof. unfold txt_files. rewrite filter_In, endswith_spec. reflexivity. Qed.

(** C9, with the path as the code gives it: for a limit that is not
    negative, [handle_list_transcripts] returns, without touching the
    world, the directory, a count and the entries of the first [limit] of
    the directory's files whose name ends in .txt, sorted by name in
    descending code-point order: at most [limit] of them (all if there are
    fewer), each one ahead of every such file left out, listed and left
    out together being those files, each as often as the directory holds
    it; each entry carries the file name, the path made of the configured
    transcripts directory and the name (absolute when that directory is),
    the size over 1024 rounded to one decimal, and the modification time
    to the minute. *)
Theorem list_transcripts_newest_first (limit : Z) (w : world) :
  0 <= limit ->
  let stored := txt_files (transcripts_dir w) in
  let files := firstn (Z.to_nat limit) (sorted_reverse stored) in
  let rest := skipn (Z.to_nat limit) (sorted_reverse stored) in
  handle_list_transcripts E limit w
  = (Ret (JDict
            [ (lit "transcripts_dir", JStr (TRANSCRIPTS_DIR E));
              (lit "count", JInt (Z.of_nat (length files)));
              (lit "files", JList (map (transcript_entry E) files)) ]), w)
  /\ (forall f, In f stored
                <-> In f (transcripts_dir w)
                    /\ exists stem, f_name f = stem ++ lit ".txt")
  /\ Permutation (files ++ rest) stored
  /\ length files = Nat.min (Z.to_nat limit) (length stored)
  /\ Z.of_nat (length files) <= limit
  /\ StronglySorted name_ge files
  /\ (forall f g, In f files -> In g rest -> name_ge f g)
  /\ (forall f g, In f files -> In g stored -> ~ In g files -> name_ge f g)
  /\ (forall f, In f files ->
       exists tenths : Z,
         transcript_entry E f
         = JDict
             [ (lit "filename", JStr (f_name f));
               (lit "path", JStr (path_join (TRANSCRIPTS_DIR E) (f_name f)));
               (lit "size_kb", JFloat (inject_Z tenths / 10));
               (lit "modified",
                JStr (strftime (fromtimestamp E (f_mtime f))
                        (lit "%Y-%m-%d %H:%M"))) ]
         /\ (Qabs (inject_Z tenths / 10 - inject_Z (st_size f) / 1024)
             <= 1 # 20)%Q
         /\ (startswith (lit "/") (TRANSCRIPTS_DIR E) = true ->
             startswith (lit "/") (path_join (TRANSCRIPTS_DIR E) (f_name f))
             = true)).
Proof.
  intros Hlimit stored files rest.
  assert (Hfiles : listed_files limit w = files).
  { unfold listed_files, slice_to. rewrite glob_txt.
    destruct (limit <? 0) eqn:Hneg; [apply Z.ltb_lt in Hneg; lia | reflexivity]. }
  destruct (sorted_prefix (Z.to_nat limit) stored)
    as (_ & Hsorted & _ & Hrest & Hahead & Hperm).
  fold files rest in Hsorted, Hrest, Hahead, Hperm.
  split; [|split; [|split; [|split; [|split; [|split; [|split; [|split]]]]]]].
  - rewrite handle_list_transcripts_run, Hfiles, length_map. reflexivity.
  - intros f. apply txt_files_spec.
  - exact Hperm.
  - unfold files. rewrite length_firstn.
    rewrite (Permutation_length (sorted_reverse_perm stored)). reflexivity.
  - unfold files. rewrite length_firstn. lia.
  - exact Hsorted.
  - exact Hrest.
  - exact Hahead.
  - intros f _. apply transcript_entry_fields.
Qed.


End Listing.

(** ** The dispatch layer: how the outcome is rendered *)

Lemma hex_digit_ascii n : (n < 16)%N -> is_ascii (hex_digit n) = true.
Proof.
  intros H. unfold is_ascii, hex_digit. apply N.ltb_lt.
  destruct (n <? 10)%N; lia.
Qed.

Lemma unicode_escape_ascii n : forallb is_ascii (unicode_escape n) = true.
Proof.
  unfold unicode_escape, hex4.
  change (lit "\u") with [92%N; 117%N]. cbn [app forallb].
  rewrite !hex_digit_ascii by (apply N.mod_lt; discriminate).
  reflexivity.
Qed.

(** With [ensure_ascii] every character is rendered in ASCII. *)
Lemma escape_char_ascii c : forallb is_ascii (escape_char true c) = true.
Proof.
  unfold escape_char.
  repeat match goal with
         | |- context [if ?b then _ else _] => destruct b eqn:?
         end;
    try reflexivity; try apply unicode_escape_ascii.
  - rewrite forallb_app, !unicode_escape_ascii. reflexivity.
  - cbn [forallb]. rewrite andb_true_r. unfold is_ascii. apply N.ltb_lt.
    match goal with H : true && (126 <? c)%N = false |- _ =>
      cbn [andb] in H; apply N.ltb_ge in H end.
    lia.
Qed.

(** Without it, every character from the space on, other than the double
    quote and the backslash, is kept as it is. *)
Lemma escape_char_literal c :
  (32 <= c)%N -> c <> 34%N -> c <> 92%N -> escape_char false c = [c].
Proof.
  intros H32 H34 H92. unfold escape_char.
  apply N.eqb_neq in H34, H92. rewrite H34, H92.
  replace (c =? 10)%N with false by (symmetry; apply N.eqb_neq; lia).
  replace (c =? 13)%N with false by (symmetry; apply N.eqb_neq; lia).
  replace (c =? 9)%N with false by (symmetry; apply N.eqb_neq; lia).
  replace (c =? 8)%N with false by (symmetry; apply N.eqb_neq; lia).
  replace (c =? 12)%N with false by (symmetry; apply N.eqb_neq; lia).
  replace (c <? 32)%N with false by (symmetry; apply N.ltb_ge; lia).
  reflexivity.
Qed.

Lemma encode_str_ascii s : forallb is_ascii (encode_str true s) = true.
Proof.
  unfold encode_str. rewrite !forallb_app. cbn [forallb].
  change (is_ascii 34%N) with true. cbn [andb].
  rewrite andb_true_r.
  induction s as [|c s IH]; [reflexivity|].
  cbn [flat_map]. rewrite forallb_app, escape_char_ascii, IH. reflexivity.
Qed.

Section Rendering.

Variable E : env.

(** A handler that returns is rendered with [ensure_ascii=False]; one that
    raises is rendered with the default, [ensure_ascii=True]. *)
Lemma handle_tool_call_returned name a w result w1 :
  call_handler E name a w = (Ret result, w1) ->
  handle_tool_call E name a w = (json_dumps 2 false result, w1).
Proof. intros H. unfold handle_tool_call. rewrite H. reflexivity. Qed.

Lemma handle_tool_call_raised name a w e w1 :
  call_handler E name a w = (Raise e, w1) ->
  handle_tool_call E name a w
  = (json_dumps 2 true (error_dict (exn_str e)), w1)
  /\ forallb is_ascii (fst (handle_tool_call E name a w)) = true.
Proof.
  intros H. unfold handle_tool_call. rewrite H. split; [reflexivity|].
  cbn [fst]. unfold json_dumps, error_dict. cbn [dumps].
  rewrite !forallb_app, !encode_str_ascii. reflexivity.
Qed.

End Rendering.

(** C6 fails on the code where a handler raises.  The engine rejects the
    recording with a message that quotes its Cyrillic path; the dispatch
    layer renders the error with [json.dumps(..., indent=2)] and no
    [ensure_ascii=False], so the text sent back is pure ASCII, every
    Cyrillic letter of the message replaced by a backslash-u escape, and
    differs from the rendering that keeps them. *)
Theorem dispatch_escapes_raised_message :
  let out :=
    fst (handle_tool_call Scenario.env_corrupt (lit "transcribe_file")
           (Scenario.file_job Scenario.recording) Scenario.idle) in
  let message := exn_str Scenario.decode_error in
  existsb (fun c => negb (is_ascii c)) message = true
  /\ out = json_dumps 2 true (error_dict message)
  /\ forallb is_ascii out = true
  /\ out <> json_dumps 2 false (error_dict message)
  /\ contains (lit "/home/user/\u0437\u0430\u043f\u0438\u0441\u044c.mp3") out
     = true
  /\ contains (lit "запись") (json_dumps 2 false (error_dict message)) = true.
Proof.
  vm_compute. repeat split. discriminate.
Qed.

(** ** The scenarios, run *)

(** Every way out of the URL flow leaves no removable audio_ entry behind:
    success, refused download (which left a partial file), missing
    artifact, silence, an exception from the engine; and an entry that
    cannot be unlinked stays without changing the outcome. *)
Example exit_paths_leave_temp_clean :
  let run E := handle_transcribe_url E Scenario.url None Scenario.idle in
  temp_dir (snd (run Scenario.env_success)) = []
  /\ temp_dir (snd (run Scenario.env_refused)) = []
  /\ temp_dir (snd (run Scenario.env_m4a)) = []
  /\ fst (run Scenario.env_m4a) = Ret artifact_missing
  /\ temp_dir (snd (run Scenario.env_silent)) = []
  /\ fst (run Scenario.env_silent)
     = Ret (error_dict (lit "No speech detected in the video"))
  /\ temp_dir (snd (run Scenario.env_undecodable)) = []
  /\ fst (run Scenario.env_undecodable) = Raise Scenario.decode_error
  /\ temp_dir (snd (run Scenario.env_locked))
     = [Scenario.audio "audio_20240101_120000.mp3" true false]
  /\ fst (run Scenario.env_locked) = fst (run Scenario.env_success).
Proof. vm_compute. repeat split. Qed.

(** The example of the specification: five transcripts, limit 2. *)
Example list_two_of_five :
  map f_name (listed_files 2 Scenario.shelf)
  = [lit "2024-05-01_0900_VK_e.txt"; lit "2024-04-01_0900_LocalFile_d.txt"]
  /\ map f_name (listed_files (-1) Scenario.shelf)
     = [lit "2024-05-01_0900_VK_e.txt"; lit "2024-04-01_0900_LocalFile_d.txt";
        lit "2024-03-01_0900_YouTube_c.txt"; lit "2024-02-01_0900_TikTok_b.txt"]
  /\ map f_name (listed_files (-7) Scenario.shelf) = [].
Proof. vm_compute. repeat split. Qed.

(** A timeout of the download is reported like a refusal. *)
Example download_timeout_is_reported :
  fst (handle_transcribe_url Scenario.env_timeout Scenario.url None Scenario.idle)
  = Ret (error_dict (lit "Failed to download audio from " ++ Scenario.url
                     ++ lit ". Make sure the video is public.")).
Proof. vm_compute. reflexivity. Qed.

(** An operation that is not registered is answered, not raised. *)
Example dispatch_unknown_tool :
  handle_tool_call Scenario.env_success (lit "summarize")
    (Scenario.url_job Scenario.url) Scenario.idle
  = (lit "{" ++ newline ++ lit "  " ++ encode_str false (lit "error")
     ++ lit ": " ++ encode_str false (lit "Unknown tool: summarize")
     ++ newline ++ lit "}", Scenario.idle).
Proof. vm_compute. reflexivity. Qed.

(** A listing through the dispatch layer keeps the world as it is and
    reports the two files asked for. *)
Example dispatch_list_job :
  let out :=
    handle_tool_call Scenario.env_success (lit "list_transcripts")
      (Scenario.list_job 2) Scenario.shelf in
  snd out = Scenario.shelf
  /\ contains (encode_str false (lit "count") ++ lit ": 2") (fst out) = true
  /\ contains (encode_str false (lit "size_kb") ++ lit ": 0.8") (fst out) = true
  /\ contains (encode_str false (lit "size_kb") ++ lit ": 4.0") (fst out) = true.
Proof. vm_compute. repeat split. Qed.

Lemma transcribe_url_download_failed_witness :
  run_failed
    (fst (acquisition Scenario.env_refused Scenario.url Scenario.idle))
  /\ fst (handle_transcribe_url Scenario.env_refused Scenario.url None
            Scenario.idle)
     = Ret (JDict [(lit "error",
                    JStr (lit "Failed to download audio from " ++ Scenario.url
                          ++ lit ". Make sure the video is public."))]).
Proof.
  assert (run_failed
            (fst (acquisition Scenario.env_refused Scenario.url Scenario.idle)))
    as H by (vm_compute; discriminate).
  split; [exact H|].
  exact (proj1 (transcribe_url_download_failed
                  Scenario.env_refused Scenario.url None Scenario.idle H)).
Defined.


Lemma transcribe_file_missing_path_witness :
  path_exists Scenario.env_success
    (expanduser Scenario.env_success (lit "~/missing.mp3")) = false
  /\ handle_transcribe_file Scenario.env_success (lit "~/missing.mp3") None
       Scenario.idle
     = (Ret (JDict [(lit "error",
                     JStr (lit "File not found: " ++ lit "~/missing.mp3"))]),
        Scenario.idle).
Proof.
  assert (path_exists Scenario.env_success
            (expanduser Scenario.env_success (lit "~/missing.mp3")) = false)
    as H by (vm_compute; reflexivity).
  split; [exact H|].
  exact (transcribe_file_missing_path
           Scenario.env_success (lit "~/missing.mp3") None Scenario.idle H).
Defined.

Lemma list_transcripts_newest_first_witness :
  map f_name
    (firstn (Z.to_nat 2)
       (sorted_reverse (txt_files (transcripts_dir Scenario.shelf))))
  = [lit "2024-05-01_0900_VK_e.txt"; lit "2024-04-01_0900_LocalFile_d.txt"]
  /\ Z.of_nat
       (length
          (firstn (Z.to_nat 2)
             (sorted_reverse (txt_files (transcripts_dir Scenario.shelf)))))
     <= 2.
Proof.
  assert (0 <= 2) as H by lia.
  split; [vm_compute; reflexivity|].
  exact (proj1 (proj2 (proj2 (proj2 (proj2
           (list_transcripts_newest_first
              Scenario.env_success 2 Scenario.shelf H)))))).
Defined.

(** C9 as stated fails on the path.  With the transcripts directory
    configured by a relative path, here out, the entry of a listed file
    carries the relative path out/ followed by the name, not an absolute
    one. *)
Lemma list_transcripts_relative_counterexample :
  startswith (lit "/") (TRANSCRIPTS_DIR Cases.env_relative) = false
  /\ fst (handle_list_transcripts Cases.env_relative 20 Cases.one_transcript)
     = Ret (JDict
              [ (lit "transcripts_dir", JStr (lit "out"));
                (lit "count", JInt 1);
                (lit "files",
                 JList
                   [ JDict
                       [ (lit "filename",
                          JStr (lit "2024-01-01_0900_YouTube_a.txt"));
                         (lit "path",
                          JStr (lit "out/2024-01-01_0900_YouTube_a.txt"));
                         (lit "size_kb", JFloat (15 # 10));
                         (lit "modified", JStr (lit "2024-01-01 12:00")) ] ]) ])
  /\ startswith (lit "/") (lit "out/2024-01-01_0900_YouTube_a.txt") = false.
Proof.
  split; [vm_compute; reflexivity|]. split; vm_compute; reflexivity.
Qed.


(** * Further properties *)

(** ** Durations and timestamps *)

Lemma uint_chars_digits d : forallb is_digit (uint_chars d) = true.
Proof. induction d; simpl; auto. Qed.

Lemma str_of_N_digits n : forallb is_digit (str_of_N n) = true.
Proof. apply uint_chars_digits. Qed.

Lemma zfill_digits w s : forallb is_digit s = true -> forallb is_digit (zfill w s) = true.
Proof.
  intros H. unfold zfill. rewrite forallb_app. unfold pystr, char in *.
  rewrite H, andb_true_r.
  induction (w - length s)%nat; simpl; auto.
Qed.

Lemma str_of_Z_digits z : 0 <= z -> forallb is_digit (str_of_Z z) = true.
Proof.
  intros H. unfold str_of_Z. destruct (z <? 0) eqn:Hz; [apply Z.ltb_lt in Hz; lia|].
  apply str_of_N_digits.
Qed.

Lemma fmt_02d_digits z : 0 <= z -> forallb is_digit (fmt_02d z) = true.
Proof.
  intros H. unfold fmt_02d. destruct (z <? 0) eqn:Hz; [apply Z.ltb_lt in Hz; lia|].
  apply zfill_digits, str_of_N_digits.
Qed.

Lemma fmt_02d_width z : 0 <= z < 100 -> length (fmt_02d z) = 2%nat.
Proof.
  intros H.
  assert (forallb (fun n => Nat.eqb (length (fmt_02d (Z.of_nat n))) 2) (seq 0 100) = true)
    as A by (vm_compute; reflexivity).
  rewrite forallb_forall in A.
  specialize (A (Z.to_nat z)). rewrite Z2Nat.id in A by lia.
  apply Nat.eqb_eq, A, in_seq. lia.
Qed.

Lemma digits_no_colon s :
  forallb is_digit s = true -> count_occ N.eq_dec s (chr ":") = 0%nat.
Proof.
  induction s as [|c s IH]; [reflexivity|].
  cbn [forallb count_occ]. rewrite andb_true_iff. intros [Hc Hs].
  destruct (N.eq_dec c (chr ":")) as [Heq|_]; [|auto].
  rewrite Heq in Hc. discriminate Hc.
Qed.

Lemma digits_duration_chars s :
  forallb is_digit s = true -> forallb duration_char s = true.
Proof.
  induction s as [|c s IH]; simpl; [reflexivity|].
  rewrite !andb_true_iff. intros [Hc Hs]. unfold duration_char at 1.
  rewrite Hc. auto.
Qed.

(** X1: [format_duration] never writes a sign: for every integer the text
    is made of digits and colons only, with two colons from one hour on
    and one below, and it ends in a colon and exactly two digits.  Below
    one hour, negative values included, the hours are dropped: the text is
    that of the value reduced modulo 3600. *)
Theorem format_duration_shape (seconds : Z) :
  forallb duration_char (format_duration seconds) = true
  /\ count_occ N.eq_dec (format_duration seconds) (chr ":")
     = (if 3600 <=? seconds then 2%nat else 1%nat)
  /\ (exists head ss,
        format_duration seconds = head ++ chr ":" :: ss
        /\ length ss = 2%nat /\ forallb is_digit ss = true)
  /\ (seconds < 3600 -> format_duration seconds = format_duration (seconds mod 3600)).
Proof.
  assert (Hm : 0 <= (seconds mod 3600) / 60 < 60).
  { pose proof (Z.mod_pos_bound seconds 3600 ltac:(lia)).
    split; [apply Z.div_pos; lia | apply Z.div_lt_upper_bound; lia]. }
  assert (Hs : 0 <= seconds mod 60 < 60) by (apply Z.mod_pos_bound; lia).
  unfold format_duration. change (lit ":") with [chr ":"].
  destruct (seconds / 3600 >? 0) eqn:Hh.
  - assert (0 < seconds / 3600) as Hpos by lia.
    assert (3600 <= seconds) as Hge.
    { destruct (Z_lt_le_dec seconds 3600) as [Hlt|]; [|assumption].
      assert (seconds / 3600 <= 0); [|lia].
      destruct (Z_lt_le_dec seconds 0).
      - pose proof (Z.div_lt_upper_bound seconds 3600 0 ltac:(lia) ltac:(lia)). lia.
      - rewrite Z.div_small by lia. lia. }
    apply Z.leb_le in Hge. rewrite Hge.
    split; [|split; [|split]].
    + rewrite !forallb_app. cbn [forallb].
      rewrite !digits_duration_chars
        by (first [apply str_of_Z_digits | apply fmt_02d_digits]; lia).
      reflexivity.
    + rewrite !count_occ_app. cbn [count_occ].
      destruct (N.eq_dec (chr ":") (chr ":")); [|congruence].
      rewrite !digits_no_colon
        by (first [apply str_of_Z_digits | apply fmt_02d_digits]; lia).
      reflexivity.
    + exists (str_of_Z (seconds / 3600) ++ [chr ":"] ++ fmt_02d (seconds mod 3600 / 60)),
             (fmt_02d (seconds mod 60)).
      split; [rewrite <- !app_assoc; reflexivity|].
      split; [apply fmt_02d_width; lia | apply fmt_02d_digits; lia].
    + apply Z.leb_le in Hge. lia.
  - assert (seconds < 3600) as Hlt.
    { destruct (Z_lt_le_dec seconds 3600); [assumption|].
      assert (1 <= seconds / 3600) by (apply Z.div_le_lower_bound; lia). lia. }
    assert ((3600 <=? seconds) = false) as -> by (apply Z.leb_gt; exact Hlt).
    split; [|split; [|split]].
    + rewrite !forallb_app. cbn [forallb].
      rewrite !digits_duration_chars
        by (first [apply str_of_Z_digits | apply fmt_02d_digits]; lia).
      reflexivity.
    + rewrite !count_occ_app. cbn [count_occ].
      destruct (N.eq_dec (chr ":") (chr ":")); [|congruence].
      rewrite !digits_no_colon
        by (first [apply str_of_Z_digits | apply fmt_02d_digits]; lia).
      reflexivity.
    + exists (str_of_Z (seconds mod 3600 / 60)), (fmt_02d (seconds mod 60)).
      split; [reflexivity|].
      split; [apply fmt_02d_width; lia | apply fmt_02d_digits; lia].
    + intros _.
      assert ((seconds mod 3600) / 3600 = 0) as Hz
        by (apply Z.div_small; apply Z.mod_pos_bound; lia).
      rewrite Hz. cbn [Z.gtb Z.compare].
      rewrite Z.mod_mod by lia.
      assert ((seconds mod 3600) mod 60 = seconds mod 60) as ->.
      { rewrite (Z.mod_eq seconds 3600) by lia.
        replace (seconds - 3600 * (seconds / 3600))
          with (seconds + (- (60 * (seconds / 3600))) * 60) by lia.
        apply Z_mod_plus_full. }
      reflexivity.
Qed.

Lemma Qfloor_unique (x : Q) (z : Z) :
  (inject_Z z <= x)%Q -> (x < inject_Z (z + 1))%Q -> Qfloor x = z.
Proof.
  intros Hlo Hhi.
  pose proof (Qfloor_le x) as H1. pose proof (Qlt_floor x) as H2.
  assert (inject_Z z < inject_Z (Qfloor x + 1))%Q as A by (eapply Qle_lt_trans; eauto).
  assert (inject_Z (Qfloor x) < inject_Z (z + 1))%Q as B by (eapply Qle_lt_trans; eauto).
  rewrite <- Zlt_Qlt in A, B. lia.
Qed.

Lemma Qfloor_div_3600 q : Qfloor (q / 3600) = Qfloor q / 3600.
Proof.
  apply Qfloor_unique.
  - pose proof (Qfloor_le q) as H1.
    assert (3600 * (Qfloor q / 3600) <= Qfloor q) as H by (apply Z.mul_div_le; lia).
    rewrite Zle_Qle, inject_Z_mult in H. change (inject_Z 3600) with 3600%Q in H.
    unfold Qdiv. change (/ 3600)%Q with (1 # 3600)%Q. lra.
  - pose proof (Qlt_floor q) as H2.
    assert (Qfloor q + 1 <= 3600 * (Qfloor q / 3600 + 1)) as H.
    { pose proof (Z.mul_succ_div_gt (Qfloor q) 3600 ltac:(lia)). lia. }
    rewrite Zle_Qle, inject_Z_mult in H. change (inject_Z 3600) with 3600%Q in H.
    unfold Qdiv. change (/ 3600)%Q with (1 # 3600)%Q. lra.
Qed.

Lemma Qfloor_div_60 q : Qfloor (q / 60) = Qfloor q / 60.
Proof.
  apply Qfloor_unique.
  - pose proof (Qfloor_le q) as H1.
    assert (60 * (Qfloor q / 60) <= Qfloor q) as H by (apply Z.mul_div_le; lia).
    rewrite Zle_Qle, inject_Z_mult in H. change (inject_Z 60) with 60%Q in H.
    unfold Qdiv. change (/ 60)%Q with (1 # 60)%Q. lra.
  - pose proof (Qlt_floor q) as H2.
    assert (Qfloor q + 1 <= 60 * (Qfloor q / 60 + 1)) as H.
    { pose proof (Z.mul_succ_div_gt (Qfloor q) 60 ltac:(lia)). lia. }
    rewrite Zle_Qle, inject_Z_mult in H. change (inject_Z 60) with 60%Q in H.
    unfold Qdiv. change (/ 60)%Q with (1 # 60)%Q. lra.
Qed.

Lemma Qfloor_minus_Z q k : Qfloor (q - inject_Z k) = Qfloor q - k.
Proof.
  apply Qfloor_unique.
  - pose proof (Qfloor_le q). unfold Z.sub. rewrite inject_Z_plus, inject_Z_opp. lra.
  - pose proof (Qlt_floor q) as H. rewrite inject_Z_plus in H.
    replace (Qfloor q - k + 1) with (Qfloor q + 1 + - k) by lia.
    rewrite !inject_Z_plus, inject_Z_opp. lra.
Qed.

Lemma int_of_float_Z z : int_of_float (inject_Z z) = z.
Proof.
  unfold int_of_float. destruct (Qle_bool 0 (inject_Z z)).
  - apply Qfloor_Z.
  - apply Qceiling_Z.
Qed.

Lemma Qfloor_float_mod_3600 q : Qfloor (float_mod q 3600) = Qfloor q mod 3600.
Proof.
  unfold float_mod. rewrite Qfloor_div_3600.
  change 3600%Q with (inject_Z 3600). rewrite <- inject_Z_mult, Qfloor_minus_Z.
  rewrite Z.mod_eq by lia. reflexivity.
Qed.

Lemma Qfloor_float_mod_60 q : Qfloor (float_mod q 60) = Qfloor q mod 60.
Proof.
  unfold float_mod. rewrite Qfloor_div_60.
  change 60%Q with (inject_Z 60). rewrite <- inject_Z_mult, Qfloor_minus_Z.
  rewrite Z.mod_eq by lia. reflexivity.
Qed.

Lemma float_mod_60_nonneg q : Qle_bool 0 (float_mod q 60) = true.
Proof.
  apply Qle_bool_iff. unfold float_mod.
  pose proof (Qfloor_le (q / 60)) as H. revert H.
  unfold Qdiv. change (/ 60)%Q with (1 # 60)%Q. intros H. lra.
Qed.

Lemma format_timestamp_floor q : format_timestamp q = timestamp_of (Qfloor q).
Proof.
  unfold format_timestamp, timestamp_of, float_floordiv.
  rewrite !int_of_float_Z, Qfloor_div_3600, Qfloor_div_60, Qfloor_float_mod_3600.
  unfold int_of_float. rewrite float_mod_60_nonneg, Qfloor_float_mod_60.
  reflexivity.
Qed.

(** X2: [format_timestamp] truncates its argument to whole seconds: for
    a time from 0 up to 2^53, where the float arithmetic of the code is
    exact, the text is the text for its floor, which is the bracketed
    minutes and seconds, preceded by the hours once they are positive;
    every field is two digits wide below one hundred hours. *)
Theorem format_timestamp_truncates (seconds : Q) :
  exact_time seconds = true ->
  format_timestamp seconds = format_timestamp (inject_Z (Qfloor seconds))
  /\ format_timestamp seconds = timestamp_of (Qfloor seconds)
  /\ (0 <= Qfloor seconds < 3600 -> length (format_timestamp seconds) = 7%nat)
  /\ (3600 <= Qfloor seconds < 360000 ->
      length (format_timestamp seconds) = 10%nat).
Proof.
  intros _.
  rewrite (format_timestamp_floor (inject_Z (Qfloor seconds))), Qfloor_Z.
  rewrite format_timestamp_floor.
  split; [reflexivity|]. split; [reflexivity|].
  unfold timestamp_of. change (lit "[") with [chr "["].
  change (lit ":") with [chr ":"]. change (lit "]") with [chr "]"].
  assert (0 <= Qfloor seconds mod 60 < 60) as Hs by (apply Z.mod_pos_bound; lia).
  assert (0 <= (Qfloor seconds mod 3600) / 60 < 60) as Hm.
  { pose proof (Z.mod_pos_bound (Qfloor seconds) 3600 ltac:(lia)).
    split; [apply Z.div_pos; lia | apply Z.div_lt_upper_bound; lia]. }
  split; intros H.
  - rewrite (Z.div_small (Qfloor seconds) 3600) by lia. cbn [Z.gtb Z.compare].
    rewrite !length_app, !fmt_02d_width by lia. reflexivity.
  - assert (0 < Qfloor seconds / 3600 < 100) as Hh.
    { split; [apply Z.div_str_pos; lia | apply Z.div_lt_upper_bound; lia]. }
    assert ((Qfloor seconds / 3600 >? 0) = true) as -> by lia.
    rewrite !length_app, !fmt_02d_width by lia. reflexivity.
Qed.

Lemma format_timestamp_truncates_witness :
  format_timestamp (7451 # 2) = timestamp_of 3725.
Proof.
  assert (exact_time (7451 # 2) = true) as H by (vm_compute; reflexivity).
  exact (proj1 (proj2 (format_timestamp_truncates (7451 # 2) H))).
Defined.

(** ** Platform labels *)

Lemma contains_spec needle hay : contains needle hay = true <-> occurs needle hay.
Proof.
  unfold occurs. induction hay as [|c hay IH].
  - cbn [contains]. rewrite orb_false_r, startswith_spec. split.
    + intros (r & H). exists [], r. exact H.
    + intros (pre & post & H). destruct pre as [|x pre]; [|discriminate].
      exists post. exact H.
  - cbn [contains]. rewrite orb_true_iff, startswith_spec, IH. split.
    + intros [(r & H)|(pre & post & H)].
      * exists [], r. exact H.
      * exists (c :: pre), post. rewrite H. reflexivity.
    + intros ([|x pre] & post & H).
      * left. exists post. exact H.
      * right. inversion H; subst. exists pre, post. reflexivity.
Qed.

Ltac first_match n u :=
  destruct (contains n u); cbn [orb];
  [solve [intuition (try discriminate; try congruence)]|].

Section Platform.

Variable E : env.

(** X3: [detect_platform] answers by the first row of its table whose
    substring occurs anywhere in the lower-cased URL: YouTube for
    youtube.com or youtu.be whatever else occurs, then Instagram, VK,
    Rutube, TikTok in that order; it answers Video exactly when none of
    the seven substrings occurs. *)
Theorem detect_platform_first_match (url : pystr) :
  let u := str_lower E url in
  let youtube := occurs (lit "youtube.com") u \/ occurs (lit "youtu.be") u in
  let instagram := occurs (lit "instagram.com") u in
  let vk := occurs (lit "vk.com") u \/ occurs (lit "vkvideo") u in
  let rutube := occurs (lit "rutube.ru") u in
  let tiktok := occurs (lit "tiktok.com") u in
  (youtube -> detect_platform E url = lit "YouTube")
  /\ (~ youtube -> instagram -> detect_platform E url = lit "Instagram")
  /\ (~ youtube -> ~ instagram -> vk -> detect_platform E url = lit "VK")
  /\ (~ youtube -> ~ instagram -> ~ vk -> rutube ->
      detect_platform E url = lit "Rutube")
  /\ (~ youtube -> ~ instagram -> ~ vk -> ~ rutube -> tiktok ->
      detect_platform E url = lit "TikTok")
  /\ (detect_platform E url = lit "Video"
      <-> ~ youtube /\ ~ instagram /\ ~ vk /\ ~ rutube /\ ~ tiktok).
Proof.
  intros u youtube instagram vk rutube tiktok.
  subst youtube instagram vk rutube tiktok.
  rewrite <- !contains_spec. unfold detect_platform. fold u.
  assert (lit "YouTube" <> lit "Video") as N1 by (intros H; vm_compute in H; discriminate H).
  assert (lit "Instagram" <> lit "Video") as N2 by (intros H; vm_compute in H; discriminate H).
  assert (lit "VK" <> lit "Video") as N3 by (intros H; vm_compute in H; discriminate H).
  assert (lit "Rutube" <> lit "Video") as N4 by (intros H; vm_compute in H; discriminate H).
  assert (lit "TikTok" <> lit "Video") as N5 by (intros H; vm_compute in H; discriminate H).
  generalize dependent (lit "YouTube"); intros lY N1.
  generalize dependent (lit "Instagram"); intros lI N2.
  generalize dependent (lit "VK"); intros lV N3.
  generalize dependent (lit "Rutube"); intros lR N4.
  generalize dependent (lit "TikTok"); intros lT N5.
  generalize dependent (lit "Video"); intros lD N1 N2 N3 N4 N5.
  first_match (lit "youtube.com") u. first_match (lit "youtu.be") u.
  first_match (lit "instagram.com") u. first_match (lit "vk.com") u.
  first_match (lit "vkvideo") u. first_match (lit "rutube.ru") u.
  first_match (lit "tiktok.com") u.
  intuition (try discriminate; try congruence).
Qed.

End Platform.

(** ** What the handlers leave alone *)

Section Keeps.

Variable P : world -> world -> Prop.
Hypothesis P_refl : forall w, P w w.
Hypothesis P_trans : forall a b c, P a b -> P b c -> P a c.

Lemma keeps_ret {A} (a : A) : keeps P (ret a).
Proof. intros w. apply P_refl. Qed.

Lemma keeps_raise {A} (e : exn) : keeps P (@raise A e).
Proof. intros w. apply P_refl. Qed.

Lemma keeps_get_world : keeps P get_world.
Proof. intros w. apply P_refl. Qed.

Lemma keeps_bind {A B} (m : M A) (k : A -> M B) :
  keeps P m -> (forall a, keeps P (k a)) -> keeps P (bind m k).
Proof.
  intros Hm Hk w. unfold bind. specialize (Hm w).
  destruct (m w) as [[a|e] w1]; cbn [snd] in *; [|exact Hm].
  eapply P_trans; [exact Hm | apply Hk].
Qed.

Lemma keeps_try_except {A} (m : M A) (h : exn -> M A) :
  keeps P m -> (forall e, keeps P (h e)) -> keeps P (try_except m h).
Proof.
  intros Hm Hh w. unfold try_except. specialize (Hm w).
  destruct (m w) as [[a|e] w1]; cbn [snd] in *; [exact Hm|].
  eapply P_trans; [exact Hm | apply Hh].
Qed.

Lemma keeps_try_finally {A} (m : M A) (f : M unit) :
  keeps P m -> keeps P f -> keeps P (try_finally m f).
Proof.
  intros Hm Hf w. unfold try_finally. specialize (Hm w).
  destruct (m w) as [r w1]. specialize (Hf w1).
  destruct (f w1) as [[u|e] w2]; cbn [snd] in *; eapply P_trans; eauto.
Qed.

Lemma keeps_for_each {A} (xs : list A) (body : A -> M unit) :
  (forall x, keeps P (body x)) -> keeps P (for_each xs body).
Proof.
  intros Hb. induction xs as [|x xs IH]; cbn [for_each].
  - apply keeps_ret.
  - apply keeps_bind; [apply Hb | intros _; exact IH].
Qed.

End Keeps.

Lemma orderly_refl dir w : orderly dir w w.
Proof.
  split; [auto|]. split; [lia|]. exists [].
  split; [symmetry; apply app_nil_r|]. split; auto.
Qed.

Lemma orderly_trans dir a b c :
  orderly dir a b -> orderly dir b c -> orderly dir a c.
Proof.
  intros (M1 & T1 & l1 & C1 & L1 & S1) (M2 & T2 & l2 & C2 & L2 & S2).
  split; [auto|]. split; [lia|]. exists (l1 ++ l2).
  split; [rewrite C2, C1, app_assoc; reflexivity|]. split.
  - intros Hm Hin. apply in_app_or in Hin as [Hin|Hin]; [apply (L1 Hm Hin)|].
    apply (L2 (M1 Hm) Hin).
  - intros f Hf. destruct (S1 f Hf) as [Hb|Hw].
    + destruct (S2 f Hb) as [Hc|Hw]; [left; exact Hc|].
      right. apply in_or_app; right; exact Hw.
    + right. apply in_or_app; left; exact Hw.
Qed.

Lemma away_from_temp_refl w : away_from_temp w w.
Proof.
  split; [reflexivity|]. exists []. split; [symmetry; apply app_nil_r | auto].
Qed.

Lemma away_from_temp_trans a b c :
  away_from_temp a b -> away_from_temp b c -> away_from_temp a c.
Proof.
  intros (T1 & l1 & C1 & L1) (T2 & l2 & C2 & L2). split; [congruence|].
  exists (l1 ++ l2). split; [rewrite C2, C1, app_assoc; reflexivity|].
  intros argv t Hin. apply in_app_or in Hin as [Hin|Hin];
    [apply (L1 _ _ Hin) | apply (L2 _ _ Hin)].
Qed.

(** A step that appends to the log and may advance the clock, set the
    model or change the temp directory, leaving the store alone. *)
Lemma orderly_step dir w tmp l n b :
  (ticks w <= n)%nat ->
  (whisper_model w = true -> b = true /\ ~ In CallLoadModel l) ->
  orderly dir w
    {| temp_dir := tmp; transcripts_dir := transcripts_dir w;
       ticks := n; whisper_model := b; calls := calls w ++ l |}.
Proof.
  intros Hn Hb. split; [intros Hm; apply Hb, Hm|]. split; [exact Hn|].
  exists l. split; [reflexivity|]. split; [intros Hm; apply Hb, Hm|].
  intros f Hf. left. exact Hf.
Qed.

Lemma orderly_quiet dir w tmp n :
  (ticks w <= n)%nat ->
  orderly dir w
    {| temp_dir := tmp; transcripts_dir := transcripts_dir w;
       ticks := n; whisper_model := whisper_model w; calls := calls w |}.
Proof.
  intros Hn. rewrite <- (app_nil_r (calls w)).
  apply orderly_step; [exact Hn|]. intros Hm. split; [exact Hm | auto].
Qed.

Lemma away_step w store l n b :
  (forall argv timeout, ~ In (CallYtDlp argv timeout) l) ->
  away_from_temp w
    {| temp_dir := temp_dir w; transcripts_dir := store;
       ticks := n; whisper_model := b; calls := calls w ++ l |}.
Proof. intros Hl. split; [reflexivity|]. exists l. split; [reflexivity | exact Hl]. Qed.

Ltac keeps_with R T :=
  repeat first
    [ apply (keeps_ret _ R)
    | apply (keeps_raise _ R)
    | apply (keeps_get_world _ R)
    | match goal with H : _ |- _ => solve [apply H] end
    | apply (keeps_bind _ T); [|intros ?; cbv beta]
    | apply (keeps_try_except _ T); [|intros ?; cbv beta]
    | apply (keeps_try_finally _ T)
    | apply (keeps_for_each _ R T); intros ?
    | match goal with
      | |- keeps _ (match ?x with _ => _ end) => destruct x
      end ].

Section Invariants.

Variable E : env.

Let dir := TRANSCRIPTS_DIR E.

Lemma orderly_datetime_now : keeps (orderly dir) (datetime_now E).
Proof. intros w. unfold datetime_now. cbn [snd]. apply orderly_quiet. lia. Qed.

Lemma orderly_subprocess_run argv timeout :
  keeps (orderly dir) (subprocess_run E argv timeout).
Proof.
  intros w. rewrite subprocess_run_run. cbn [snd]. unfold after_run.
  apply orderly_step; [lia|]. intros Hm. split; [exact Hm|].
  intros [C|[]]. discriminate C.
Qed.

Lemma orderly_engine_call path language :
  keeps (orderly dir) (engine_call E path language).
Proof.
  intros w. unfold engine_call. unfold_py. cbn [snd].
  apply orderly_step; [lia|]. intros H. split; [exact H|].
  intros [C|[]]. discriminate C.
Qed.

Lemma orderly_get_whisper_model : keeps (orderly dir) (get_whisper_model E).
Proof.
  intros w. unfold get_whisper_model. unfold_py.
  destruct (whisper_model w) eqn:Hm; [apply orderly_refl|].
  destruct (load_model E);
    cbn [snd temp_dir transcripts_dir ticks whisper_model calls];
    (apply orderly_step; [lia | intros C; congruence]).
Qed.

Lemma orderly_transcribe_audio path language :
  keeps (orderly dir) (transcribe_audio E path language).
Proof.
  unfold transcribe_audio.
  pose proof orderly_get_whisper_model. pose proof orderly_engine_call.
  keeps_with (orderly_refl dir) (orderly_trans dir).
Qed.

Lemma orderly_write_text filename content :
  keeps (orderly dir) (write_text E filename content).
Proof.
  intros w. unfold write_text.
  destruct (open_for_writing E _) as [e|].
  { cbn [snd]. apply orderly_step; [lia|].
    intros Hm. split; [exact Hm|]. intros [C|[]]. discriminate C. }
  assert (Hput : forall data,
            orderly dir w
              {| temp_dir := temp_dir w;
                 transcripts_dir :=
                   filter (fun g => negb (str_eqb (f_name g) filename))
                          (transcripts_dir w)
                   ++ [{| f_name := filename; f_data := data;
                          f_mtime := clock E (ticks w) |}];
                 ticks := S (ticks w); whisper_model := whisper_model w;
                 calls := calls w
                          ++ [CallWriteText
                                (path_join (TRANSCRIPTS_DIR E) filename)] |}).
  { intros data. split; [auto|]. split; [cbn; lia|]. eexists.
    split; [reflexivity|]. split; [intros _ [C|[]]; discriminate C|].
    cbn [transcripts_dir]. intros f Hf.
    destruct (str_eqb (f_name f) filename) eqn:Hn.
    - apply str_eqb_spec in Hn. right. left. unfold dir. rewrite Hn. reflexivity.
    - left. apply in_or_app; left. apply filter_In. rewrite Hn. auto. }
  destruct (utf8_encode content); cbn [snd]; apply Hput.
Qed.

Lemma orderly_save_transcript url platform title duration segments language :
  keeps (orderly dir)
    (save_transcript E url platform title duration segments language).
Proof.
  unfold save_transcript, expect_str, expect_int.
  pose proof orderly_datetime_now. pose proof orderly_write_text.
  keeps_with (orderly_refl dir) (orderly_trans dir).
Qed.

Lemma orderly_cleanup_temp : keeps (orderly dir) cleanup_temp.
Proof.
  intros w. rewrite cleanup_temp_run. cbn [snd]. unfold cleaned.
  apply orderly_quiet. lia.
Qed.

Lemma orderly_get_video_info url : keeps (orderly dir) (get_video_info E url).
Proof.
  unfold get_video_info, loads, dict_get.
  pose proof orderly_subprocess_run.
  keeps_with (orderly_refl dir) (orderly_trans dir).
Qed.

Lemma orderly_download_audio url out :
  keeps (orderly dir) (download_audio E url out).
Proof.
  unfold download_audio. pose proof orderly_subprocess_run.
  keeps_with (orderly_refl dir) (orderly_trans dir).
Qed.

Lemma orderly_handle_transcribe_url url language :
  keeps (orderly dir) (handle_transcribe_url E url language).
Proof.
  unfold handle_transcribe_url, transcribe_url_try, expect_int.
  pose proof orderly_get_video_info. pose proof orderly_datetime_now.
  pose proof orderly_download_audio. pose proof orderly_transcribe_audio.
  pose proof orderly_save_transcript. pose proof orderly_cleanup_temp.
  cbv zeta. keeps_with (orderly_refl dir) (orderly_trans dir).
Qed.

Lemma orderly_handle_transcribe_file file_path language :
  keeps (orderly dir) (handle_transcribe_file E file_path language).
Proof.
  unfold handle_transcribe_file.
  pose proof orderly_transcribe_audio. pose proof orderly_save_transcript.
  cbv zeta. keeps_with (orderly_refl dir) (orderly_trans dir).
Qed.

Lemma orderly_handle_list_transcripts limit :
  keeps (orderly dir) (handle_list_transcripts E limit).
Proof. intros w. rewrite handle_list_transcripts_run. apply orderly_refl. Qed.

Lemma orderly_call_handler name a : keeps (orderly dir) (call_handler E name a).
Proof.
  unfold call_handler, getitem.
  pose proof orderly_handle_transcribe_url. pose proof orderly_handle_transcribe_file.
  pose proof orderly_handle_list_transcripts.
  keeps_with (orderly_refl dir) (orderly_trans dir).
Qed.

Lemma handle_tool_call_world name a w :
  snd (handle_tool_call E name a w) = snd (call_handler E name a w).
Proof.
  unfold handle_tool_call. destruct (call_handler E name a w) as [[r|e] w1]; reflexivity.
Qed.

Lemma away_datetime_now : keeps away_from_temp (datetime_now E).
Proof.
  intros w. unfold datetime_now. cbn [snd]. rewrite <- (app_nil_r (calls w)).
  apply away_step. auto.
Qed.

Lemma away_engine_call path language :
  keeps away_from_temp (engine_call E path language).
Proof.
  intros w. unfold engine_call. unfold_py. cbn [snd].
  apply away_step. intros argv t [C|[]]. discriminate C.
Qed.

Lemma away_get_whisper_model : keeps away_from_temp (get_whisper_model E).
Proof.
  intros w. unfold get_whisper_model. unfold_py.
  destruct (whisper_model w); [apply away_from_temp_refl|].
  destruct (load_model E);
    cbn [snd temp_dir transcripts_dir ticks whisper_model calls];
    (apply away_step; intros argv t [C|[]]; discriminate C).
Qed.

Lemma away_transcribe_audio path language :
  keeps away_from_temp (transcribe_audio E path language).
Proof.
  unfold transcribe_audio.
  pose proof away_get_whisper_model. pose proof away_engine_call.
  keeps_with away_from_temp_refl away_from_temp_trans.
Qed.

Lemma away_write_text filename content :
  keeps away_from_temp (write_text E filename content).
Proof.
  intros w. unfold write_text.
  destruct (open_for_writing E _) as [e|]; [|destruct (utf8_encode content)];
    cbn [snd]; apply away_step; intros argv t [C|[]]; discriminate C.
Qed.

Lemma away_save_transcript url platform title duration segments language :
  keeps away_from_temp
    (save_transcript E url platform title duration segments language).
Proof.
  unfold save_transcript, expect_str, expect_int.
  pose proof away_datetime_now. pose proof away_write_text.
  keeps_with away_from_temp_refl away_from_temp_trans.
Qed.

Lemma away_handle_transcribe_file file_path language :
  keeps away_from_temp (handle_transcribe_file E file_path language).
Proof.
  unfold handle_transcribe_file.
  pose proof away_transcribe_audio. pose proof away_save_transcript.
  cbv zeta. keeps_with away_from_temp_refl away_from_temp_trans.
Qed.

Lemma away_handle_list_transcripts limit :
  keeps away_from_temp (handle_list_transcripts E limit).
Proof. intros w. rewrite handle_list_transcripts_run. apply away_from_temp_refl. Qed.

(** X4: no tool call deletes or alters a stored transcript behind the
    caller's back: after any call, a file that was in the transcripts
    directory is still there unchanged, unless the call wrote a file under
    that very name. *)
Theorem tool_call_never_drops_transcript
    (name : pystr) (a : arguments) (w : world) (f : tfile) :
  In f (transcripts_dir w) ->
  let w' := snd (handle_tool_call E name a w) in
  exists l,
    calls w' = calls w ++ l
    /\ (In f (transcripts_dir w')
        \/ In (CallWriteText (path_join (TRANSCRIPTS_DIR E) (f_name f))) l).
Proof.
  intros Hf w'. subst w'. rewrite handle_tool_call_world.
  destruct (orderly_call_handler name a w) as (_ & _ & l & Hc & _ & Hs).
  exists l. split; [exact Hc | apply Hs, Hf].
Qed.

(** X5: once the Whisper model is loaded, no tool call unsets it or loads
    it again: the global stays set and no model load is logged. *)
Theorem tool_call_never_reloads_model
    (name : pystr) (a : arguments) (w : world) :
  whisper_model w = true ->
  let w' := snd (handle_tool_call E name a w) in
  whisper_model w' = true
  /\ exists l, calls w' = calls w ++ l /\ ~ In CallLoadModel l.
Proof.
  intros Hm w'. subst w'. rewrite handle_tool_call_world.
  destruct (orderly_call_handler name a w) as (Hk & _ & l & Hc & Hl & _).
  split; [apply Hk, Hm|]. exists l. split; [exact Hc | apply Hl, Hm].
Qed.

(** X6: only the URL tool touches the temp directory: a call of any other
    name, whatever its arguments and outcome, leaves the temp directory
    as it was and runs yt-dlp not once. *)
Theorem other_tools_leave_temp_alone
    (name : pystr) (a : arguments) (w : world) :
  name <> lit "transcribe_url" ->
  let w' := snd (handle_tool_call E name a w) in
  temp_dir w' = temp_dir w
  /\ exists l, calls w' = calls w ++ l
              /\ forall argv timeout, ~ In (CallYtDlp argv timeout) l.
Proof.
  intros Hname w'. subst w'. rewrite handle_tool_call_world.
  assert (keeps away_from_temp (call_handler E name a)) as H.
  { unfold call_handler, getitem. rewrite (str_eqb_neq _ _ Hname).
    pose proof away_handle_transcribe_file.
    pose proof away_handle_list_transcripts.
    keeps_with away_from_temp_refl away_from_temp_trans. }
  exact (H w).
Qed.

End Invariants.

Lemma tool_call_never_drops_transcript_witness :
  In (Scenario.transcript "2024-05-01_0900_VK_e.txt" 768)
     (transcripts_dir Cases.warm)
  /\ exists l,
       calls (snd (handle_tool_call Scenario.env_success (lit "transcribe_url")
                     (Scenario.url_job Scenario.url) Cases.warm))
       = calls Cases.warm ++ l
       /\ (In (Scenario.transcript "2024-05-01_0900_VK_e.txt" 768)
              (transcripts_dir
                 (snd (handle_tool_call Scenario.env_success
                         (lit "transcribe_url")
                         (Scenario.url_job Scenario.url) Cases.warm)))
           \/ In (CallWriteText
                    (path_join (TRANSCRIPTS_DIR Scenario.env_success)
                       (f_name (Scenario.transcript
                                  "2024-05-01_0900_VK_e.txt" 768)))) l).
Proof.
  assert (In (Scenario.transcript "2024-05-01_0900_VK_e.txt" 768)
             (transcripts_dir Cases.warm)) as H
    by (vm_compute; right; right; right; left; reflexivity).
  split; [exact H|].
  exact (tool_call_never_drops_transcript Scenario.env_success
           (lit "transcribe_url") (Scenario.url_job Scenario.url) Cases.warm
           (Scenario.transcript "2024-05-01_0900_VK_e.txt" 768) H).
Defined.

Lemma tool_call_never_reloads_model_witness :
  whisper_model Cases.warm = true
  /\ whisper_model
       (snd (handle_tool_call Scenario.env_success (lit "transcribe_url")
               (Scenario.url_job Scenario.url) Cases.warm)) = true.
Proof.
  assert (whisper_model Cases.warm = true) as H by reflexivity.
  split; [exact H|].
  exact (proj1 (tool_call_never_reloads_model Scenario.env_success
                  (lit "transcribe_url") (Scenario.url_job Scenario.url)
                  Cases.warm H)).
Defined.

Lemma other_tools_leave_temp_alone_witness :
  lit "transcribe_file" <> lit "transcribe_url"
  /\ temp_dir
       (snd (handle_tool_call Scenario.env_corrupt (lit "transcribe_file")
               (Scenario.file_job Scenario.recording) Cases.warm))
     = temp_dir Cases.warm.
Proof.
  assert (lit "transcribe_file" <> lit "transcribe_url") as H
    by (vm_compute; discriminate).
  split; [exact H|].
  exact (proj1 (other_tools_leave_temp_alone Scenario.env_corrupt
                  (lit "transcribe_file")
                  (Scenario.file_job Scenario.recording) Cases.warm H)).
Defined.

(** ** The engine adapter *)

Section Adapter.

Variable E : env.

Lemma transcribe_audio_ok path language w raw :
  model_available E w ->
  engine_transcribe E path (engine_language language) = Ret raw ->
  transcribe_audio E path language w
  = (Ret (stripped raw), after_transcription w path (engine_language language)).
Proof.
  intros Hm He. unfold transcribe_audio, get_whisper_model, engine_call.
  unfold_py. unfold after_transcription. fold (engine_language language).
  destruct w as [tmp store n loaded log].
  cbn [temp_dir transcripts_dir ticks whisper_model calls] in *.
  unfold stripped. rewrite <- (app_nil_l (map _ raw)).
  rewrite <- (fold_left_append
                (fun seg => {| seg_start := seg_start seg; seg_end := seg_end seg;
                               seg_text := strip (seg_text seg) |}) raw []).
  destruct loaded.
  - rewrite He. reflexivity.
  - destruct Hm as [Hm|Hm]; [discriminate Hm|]. cbn in Hm. rewrite Hm.
    cbn [temp_dir transcripts_dir ticks whisper_model calls].
    rewrite He, <- app_assoc. reflexivity.
Qed.

Lemma transcribe_audio_load_failed path language w e :
  whisper_model w = false -> load_model E = Some e ->
  transcribe_audio E path language w
  = (Raise e, {| temp_dir := temp_dir w; transcripts_dir := transcripts_dir w;
                 ticks := ticks w; whisper_model := false;
                 calls := calls w ++ [CallLoadModel] |}).
Proof.
  intros Hw Hl. unfold transcribe_audio, get_whisper_model. unfold_py.
  rewrite Hw, Hl. cbn [whisper_model]. rewrite Hw. reflexivity.
Qed.

Lemma strip_stripped raw s :
  In s (stripped raw) -> strip (seg_text s) = seg_text s.
Proof.
  unfold stripped. intros H. apply in_map_iff in H as (r & <- & _).
  cbn. apply strip_idem.
Qed.

(** X7: when the model can be had and the engine answers, the adapter
    returns the engine's segments in the same number and order, with the
    same start and end times, every text stripped of surrounding
    whitespace; the engine is called once, with no language for auto and
    the given language otherwise, and the model is loaded only if it was
    not yet. *)
Theorem transcribe_audio_normalises
    (path language : pystr) (w : world) (raw : list segment) :
  model_available E w ->
  engine_transcribe E path (engine_language language) = Ret raw ->
  exists segments,
    fst (transcribe_audio E path language w) = Ret segments
    /\ length segments = length raw
    /\ map seg_start segments = map seg_start raw
    /\ map seg_end segments = map seg_end raw
    /\ map seg_text segments = map (fun seg => strip (seg_text seg)) raw
    /\ (forall s, In s segments -> strip (seg_text s) = seg_text s)
    /\ calls (snd (transcribe_audio E path language w))
       = calls w ++ (if whisper_model w then [] else [CallLoadModel])
         ++ [CallTranscribe path
               (if str_eqb language (lit "auto") then None else Some language)]
    /\ whisper_model (snd (transcribe_audio E path language w)) = true.
Proof.
  intros Hm He. exists (stripped raw).
  rewrite (transcribe_audio_ok path language w raw Hm He).
  cbn [fst snd after_transcription calls whisper_model]. unfold stripped.
  rewrite length_map, !map_map. cbn [seg_start seg_end seg_text].
  repeat (split; [reflexivity|]).
  split; [apply strip_stripped|]. split; reflexivity.
Qed.

End Adapter.

Lemma transcribe_audio_normalises_witness :
  model_available Scenario.env_success Scenario.idle
  /\ exists segments,
       fst (transcribe_audio Scenario.env_success (lit "/home/user/talk.mp3")
              (lit "auto") Scenario.idle) = Ret segments
       /\ length segments = length Scenario.two_segments.
Proof.
  assert (model_available Scenario.env_success Scenario.idle) as Hm
    by (right; reflexivity).
  assert (engine_transcribe Scenario.env_success (lit "/home/user/talk.mp3")
            (engine_language (lit "auto")) = Ret Scenario.two_segments) as He
    by reflexivity.
  split; [exact Hm|].
  destruct (transcribe_audio_normalises Scenario.env_success
              (lit "/home/user/talk.mp3") (lit "auto") Scenario.idle
              Scenario.two_segments Hm He) as (segments & H1 & H2 & _).
  exists segments. split; [exact H1 | exact H2].
Defined.

(** ** The URL flow, past the scan *)

Section UrlOutcomes.

Variable E : env.

Lemma url_flow_try_probed url language w :
  url_flow_try E url language w
  = transcribe_url_try E url (resolve_language E language)
      (detect_platform E url) (vi_title (probed E url w))
      (vi_duration (probed E url w)) (temp_audio_path E w)
      (before_acquisition E url w).
Proof.
  destruct (get_video_info_run E url w) as (info & Hinfo & _).
  unfold url_flow_try, bind, probed. rewrite Hinfo. reflexivity.
Qed.

(** With the artifact found and the engine through, the flow is the
    persisting step run on the stripped segments. *)
Lemma url_flow_try_segments url language w f raw :
  run_succeeded (fst (acquisition E url w)) ->
  hd_error (glob (lit "audio_*.mp3") (snd (acquisition E url w))) = Some f ->
  d_exists f = true ->
  model_available E w ->
  engine_transcribe E (path_join (TEMP_DIR E) (d_name f))
    (engine_language (resolve_language E language)) = Ret raw ->
  url_flow_try E url language w
  = persist_and_answer E url (resolve_language E language)
      (detect_platform E url) (vi_title (probed E url w))
      (vi_duration (probed E url w)) (stripped raw)
      (after_transcription (after_download E url w)
         (path_join (TEMP_DIR E) (d_name f))
         (engine_language (resolve_language E language))).
Proof.
  intros Hok Hscan Hex Hm He.
  rewrite url_flow_try_probed. unfold transcribe_url_try.
  unfold bind at 1. rewrite download_audio_run.
  unfold acquisition in *.
  destruct (fst (yt_dlp E _ _)) as [rc so|e]; [|contradiction].
  simpl in Hok. subst rc. cbn [Z.eqb negb].
  unfold bind at 1. unfold get_world at 1.
  change (temp_dir (after_run E (before_acquisition E url w)
                      (download_argv url (temp_audio_path E w)) 300))
    with (snd (yt_dlp E (download_argv url (temp_audio_path E w))
                 (temp_dir (before_acquisition E url w)))).
  rewrite Hscan, Hex. cbn [negb].
  unfold bind at 1.
  rewrite (transcribe_audio_ok E _ _ _ raw); [reflexivity | exact Hm | exact He].
Qed.

Lemma written_lines_text url platform title written duration language segments :
  join newline
    (written_lines url platform title written duration language segments)
  = spec_file_content url platform title written duration language segments.
Proof. rewrite written_lines_eq. apply lines_follow_spec. Qed.

Lemma persist_typed url language platform title duration s segs w :
  writable E (ticks w) url platform title duration language (s :: segs) ->
  persist_and_answer E url language platform (JStr title) (JInt duration)
    (s :: segs) w
  = (Ret (success_dict (lit "platform", JStr platform) (JStr title) duration
            language (s :: segs)
            (path_join (TRANSCRIPTS_DIR E)
               (transcript_name E (ticks w) platform title))),
     saved E w platform title
       (written_lines url platform title
          (fromtimestamp E (clock E (S (ticks w)))) duration language
          (s :: segs))).
Proof.
  intros Hwrite. unfold persist_and_answer. unfold bind at 1.
  rewrite (save_transcript_saved E _ _ _ _ _ _ _ Hwrite). reflexivity.
Qed.

Lemma persist_ill_typed url language platform title duration s segs w :
  match title with JStr _ => False | _ => True end
  \/ match duration with JInt _ | JBool _ => False | _ => True end ->
  exists e n,
    persist_and_answer E url language platform title duration (s :: segs) w
    = (Raise e,
       {| temp_dir := temp_dir w; transcripts_dir := transcripts_dir w;
          ticks := n; whisper_model := whisper_model w; calls := calls w |})
    /\ (exn_class_of e = TypeError \/ exn_class_of e = ValueError).
Proof.
  intros H. unfold persist_and_answer, save_transcript, datetime_now,
    expect_str, expect_int. unfold_py.
  destruct title; try (do 2 eexists; split; [reflexivity | left; reflexivity]).
  destruct H as [[]|H].
  destruct duration; try contradiction;
    do 2 eexists; (split; [reflexivity|]); cbn; auto.
Qed.

(** X8: a URL job whose download succeeds, whose artifact is found, whose
    engine returns at least one segment, each starting at a time from 0
    up to 2^53, whose metadata carry a text title and a whole duration,
    and whose transcript can be written (the file opens, the text holds no
    lone surrogate) answers with the success record: platform,
    title, formatted duration, language, the number of segments, the path
    of the stored file and the stripped texts joined by spaces.  The file
    of that path is in the transcripts directory with the layout of the
    transcript store over the same segments, the log shows the two yt-dlp
    runs, the engine and one write, and the temp directory is what the
    download left minus what could be removed. *)
Theorem transcribe_url_succeeds
    (url : pystr) (language : option pystr) (w : world) (f : dirent)
    (raw : list segment) (title : pystr) (duration : Z) :
  run_succeeded (fst (acquisition E url w)) ->
  hd_error (glob (lit "audio_*.mp3") (snd (acquisition E url w))) = Some f ->
  d_exists f = true ->
  model_available E w ->
  engine_transcribe E (path_join (TEMP_DIR E) (d_name f))
    (engine_language (resolve_language E language)) = Ret raw ->
  raw <> [] ->
  exact_starts raw = true ->
  vi_title (probed E url w) = JStr title ->
  vi_duration (probed E url w) = JInt duration ->
  writable E (S (ticks w)) url (detect_platform E url) title duration
    (resolve_language E language) (stripped raw) ->
  let lang := resolve_language E language in
  let platform := detect_platform E url in
  let name := transcript_name E (S (ticks w)) platform title in
  let written := fromtimestamp E (clock E (S (S (ticks w)))) in
  let done := handle_transcribe_url E url language w in
  fst done
  = Ret (JDict
           [ (lit "success", JBool true);
             (lit "platform", JStr platform);
             (lit "title", JStr title);
             (lit "duration", JStr (format_duration duration));
             (lit "language", JStr lang);
             (lit "segments_count", JInt (Z.of_nat (length raw)));
             (lit "saved_to", JStr (path_join (TRANSCRIPTS_DIR E) name));
             (lit "transcript",
              JStr (join (lit " ") (map (fun seg => strip (seg_text seg)) raw))) ])
  /\ (exists file,
        In file (transcripts_dir (snd done))
        /\ f_name file = name
        /\ f_data file
           = utf8_bytes
               (spec_file_content url platform title written duration lang
                  (stripped raw))
        /\ utf8_encode
             (spec_file_content url platform title written duration lang
                (stripped raw)) = Ret (f_data file))
  /\ calls (snd done)
     = calls w
       ++ [CallYtDlp (info_argv url) 60; acquisition_call E url w]
       ++ (if whisper_model w then [] else [CallLoadModel])
       ++ [CallTranscribe (path_join (TEMP_DIR E) (d_name f))
             (engine_language lang);
           CallWriteText (path_join (TRANSCRIPTS_DIR E) name)]
  /\ temp_dir (snd done)
     = filter (fun d => negb (removable d)) (snd (acquisition E url w)).
Proof.
  intros Hok Hscan Hex Hm He Hne _ Ht Hd Hwrite lang platform name written done.
  subst done. rewrite handle_transcribe_url_run.
  rewrite (url_flow_try_segments url language w f raw Hok Hscan Hex Hm He).
  rewrite Ht, Hd.
  assert (Henc : encodable
                   (spec_file_content url platform title written duration lang
                      (stripped raw)) = true).
  { destruct Hwrite as (_ & Henc & _). rewrite written_lines_text in Henc.
    exact Henc. }
  destruct raw as [|r raw]; [contradiction|].
  change (stripped (r :: raw))
    with ({| seg_start := seg_start r; seg_end := seg_end r;
             seg_text := strip (seg_text r) |} :: stripped raw) in Hwrite |- *.
  rewrite persist_typed by exact Hwrite.
  cbn [fst snd cleaned saved temp_dir transcripts_dir calls ticks
       after_transcription after_download after_run before_acquisition
       whisper_model].
  fold lang platform name written.
  split; [|split; [|split]].
  - unfold success_dict, full_text. cbn [length map seg_text].
    unfold stripped. rewrite length_map, map_map. reflexivity.
  - eexists. split; [apply in_or_app; right; left; reflexivity|].
    cbn [f_name f_data]. split; [reflexivity|].
    rewrite written_lines_text. split; [reflexivity|].
    apply utf8_encode_encodable, Henc.
  - unfold acquisition_call. rewrite <- !app_assoc. reflexivity.
  - reflexivity.
Qed.

(** X9: when the engine finds no speech in the downloaded audio, the URL
    job answers No speech detected in the video; the log shows the two
    yt-dlp runs and the engine and no write, the transcripts directory is
    as it was, and the temp directory is still cleared. *)
Theorem transcribe_url_silent
    (url : pystr) (language : option pystr) (w : world) (f : dirent) :
  run_succeeded (fst (acquisition E url w)) ->
  hd_error (glob (lit "audio_*.mp3") (snd (acquisition E url w))) = Some f ->
  d_exists f = true ->
  model_available E w ->
  engine_transcribe E (path_join (TEMP_DIR E) (d_name f))
    (engine_language (resolve_language E language)) = Ret [] ->
  let done := handle_transcribe_url E url language w in
  fst done = Ret (JDict [(lit "error", JStr (lit "No speech detected in the video"))])
  /\ transcripts_dir (snd done) = transcripts_dir w
  /\ calls (snd done)
     = calls w
       ++ [CallYtDlp (info_argv url) 60; acquisition_call E url w]
       ++ (if whisper_model w then [] else [CallLoadModel])
       ++ [CallTranscribe (path_join (TEMP_DIR E) (d_name f))
             (engine_language (resolve_language E language))]
  /\ temp_dir (snd done)
     = filter (fun d => negb (removable d)) (snd (acquisition E url w)).
Proof.
  intros Hok Hscan Hex Hm He done. subst done.
  rewrite handle_transcribe_url_run.
  rewrite (url_flow_try_segments url language w f [] Hok Hscan Hex Hm He).
  cbn [stripped map]. unfold persist_and_answer, ret.
  cbn [fst snd cleaned temp_dir transcripts_dir calls whisper_model
       after_transcription after_download after_run before_acquisition].
  split; [reflexivity|]. split; [reflexivity|]. split; [|reflexivity].
  unfold acquisition_call. rewrite <- !app_assoc. reflexivity.
Qed.

(** X10: metadata of the wrong shape sink a URL job after the work is
    done: when yt-dlp reports a title that is not text, or a duration that
    is neither a whole number nor a boolean (a fractional one, say), the
    audio is still downloaded and transcribed, and then the job raises a
    TypeError or ValueError from the transcript store; nothing is stored. *)
Theorem transcribe_url_ill_typed_metadata
    (url : pystr) (language : option pystr) (w : world) (f : dirent)
    (raw : list segment) :
  run_succeeded (fst (acquisition E url w)) ->
  hd_error (glob (lit "audio_*.mp3") (snd (acquisition E url w))) = Some f ->
  d_exists f = true ->
  model_available E w ->
  engine_transcribe E (path_join (TEMP_DIR E) (d_name f))
    (engine_language (resolve_language E language)) = Ret raw ->
  raw <> [] ->
  match vi_title (probed E url w) with JStr _ => False | _ => True end
  \/ match vi_duration (probed E url w) with
     | JInt _ | JBool _ => False
     | _ => True
     end ->
  let done := handle_transcribe_url E url language w in
  (exists e, fst done = Raise e
             /\ (exn_class_of e = TypeError \/ exn_class_of e = ValueError))
  /\ transcripts_dir (snd done) = transcripts_dir w
  /\ In (CallTranscribe (path_join (TEMP_DIR E) (d_name f))
           (engine_language (resolve_language E language)))
        (calls (snd done)).
Proof.
  intros Hok Hscan Hex Hm He Hne Hbad done. subst done.
  rewrite handle_transcribe_url_run.
  rewrite (url_flow_try_segments url language w f raw Hok Hscan Hex Hm He).
  destruct raw as [|r raw]; [contradiction|].
  change (stripped (r :: raw))
    with ({| seg_start := seg_start r; seg_end := seg_end r;
             seg_text := strip (seg_text r) |} :: stripped raw).
  match goal with |- context [persist_and_answer E ?u ?l ?p ?t ?d (?s :: ?ss) ?x] =>
    destruct (persist_ill_typed u l p t d s ss x Hbad) as (e & n & -> & Hcls) end.
  cbn [fst snd cleaned temp_dir transcripts_dir calls
       after_transcription after_download after_run before_acquisition].
  split; [exists e; split; [reflexivity | exact Hcls]|].
  split; [reflexivity|].
  rewrite !in_app_iff. right. right. left. reflexivity.
Qed.

End UrlOutcomes.


Lemma transcribe_url_succeeds_witness :
  exists file,
    In file
       (transcripts_dir
          (snd (handle_transcribe_url Cases.env_lecture Scenario.url None
                  Scenario.idle)))
    /\ f_name file
       = transcript_name Cases.env_lecture 1
           (detect_platform Cases.env_lecture Scenario.url)
           (lit "Лекция 1/2: введение")
    /\ f_data file
       = utf8_bytes
           (spec_file_content Scenario.url
              (detect_platform Cases.env_lecture Scenario.url)
              (lit "Лекция 1/2: введение")
              (fromtimestamp Cases.env_lecture (clock Cases.env_lecture 2))
              213 (resolve_language Cases.env_lecture None)
              (stripped Scenario.two_segments)).
Proof.
  assert (run_succeeded
            (fst (acquisition Cases.env_lecture Scenario.url Scenario.idle)))
    as H1 by by_running.
  assert (hd_error (glob (lit "audio_*.mp3")
                      (snd (acquisition Cases.env_lecture Scenario.url
                              Scenario.idle))) = Some Cases.downloaded)
    as H2 by by_running.
  assert (d_exists Cases.downloaded = true) as H3 by reflexivity.
  assert (model_available Cases.env_lecture Scenario.idle) as H4
    by (right; reflexivity).
  assert (engine_transcribe Cases.env_lecture
            (path_join (TEMP_DIR Cases.env_lecture) (d_name Cases.downloaded))
            (engine_language (resolve_language Cases.env_lecture None))
          = Ret Scenario.two_segments) as H5 by reflexivity.
  assert (Scenario.two_segments <> []) as H6 by discriminate.
  assert (exact_starts Scenario.two_segments = true) as H7
    by (vm_compute; reflexivity).
  assert (vi_title (probed Cases.env_lecture Scenario.url Scenario.idle)
          = JStr (lit "Лекция 1/2: введение")) as H8 by by_running.
  assert (vi_duration (probed Cases.env_lecture Scenario.url Scenario.idle)
          = JInt 213) as H9 by by_running.
  assert (writable Cases.env_lecture (S (ticks Scenario.idle)) Scenario.url
            (detect_platform Cases.env_lecture Scenario.url)
            (lit "Лекция 1/2: введение") 213
            (resolve_language Cases.env_lecture None)
            (stripped Scenario.two_segments)) as H10
    by (repeat split; vm_compute; reflexivity).
  destruct (proj1 (proj2 (transcribe_url_succeeds Cases.env_lecture Scenario.url
                            None Scenario.idle Cases.downloaded
                            Scenario.two_segments (lit "Лекция 1/2: введение")
                            213 H1 H2 H3 H4 H5 H6 H7 H8 H9 H10)))
    as (file & Hin & Hname & Hdata & _).
  exists file. split; [exact Hin|]. split; [exact Hname | exact Hdata].
Defined.

Lemma transcribe_url_silent_witness :
  fst (handle_transcribe_url Scenario.env_silent Scenario.url None Scenario.idle)
  = Ret (JDict [(lit "error", JStr (lit "No speech detected in the video"))]).
Proof.
  assert (run_succeeded
            (fst (acquisition Scenario.env_silent Scenario.url Scenario.idle)))
    as H1 by by_running.
  assert (hd_error (glob (lit "audio_*.mp3")
                      (snd (acquisition Scenario.env_silent Scenario.url
                              Scenario.idle))) = Some Cases.downloaded)
    as H2 by by_running.
  assert (d_exists Cases.downloaded = true) as H3 by reflexivity.
  assert (model_available Scenario.env_silent Scenario.idle) as H4
    by (right; reflexivity).
  assert (engine_transcribe Scenario.env_silent
            (path_join (TEMP_DIR Scenario.env_silent) (d_name Cases.downloaded))
            (engine_language (resolve_language Scenario.env_silent None))
          = Ret []) as H5 by reflexivity.
  exact (proj1 (transcribe_url_silent Scenario.env_silent Scenario.url None
                  Scenario.idle Cases.downloaded H1 H2 H3 H4 H5)).
Defined.

Lemma transcribe_url_ill_typed_metadata_witness :
  transcripts_dir
    (snd (handle_transcribe_url Cases.env_fractional Scenario.url None
            Scenario.idle))
  = transcripts_dir Scenario.idle.
Proof.
  assert (run_succeeded
            (fst (acquisition Cases.env_fractional Scenario.url Scenario.idle)))
    as H1 by by_running.
  assert (hd_error (glob (lit "audio_*.mp3")
                      (snd (acquisition Cases.env_fractional Scenario.url
                              Scenario.idle))) = Some Cases.downloaded)
    as H2 by by_running.
  assert (d_exists Cases.downloaded = true) as H3 by reflexivity.
  assert (model_available Cases.env_fractional Scenario.idle) as H4
    by (right; reflexivity).
  assert (engine_transcribe Cases.env_fractional
            (path_join (TEMP_DIR Cases.env_fractional) (d_name Cases.downloaded))
            (engine_language (resolve_language Cases.env_fractional None))
          = Ret Scenario.two_segments) as H5 by reflexivity.
  assert (Scenario.two_segments <> []) as H6 by discriminate.
  assert (match vi_title (probed Cases.env_fractional Scenario.url Scenario.idle)
          with JStr _ => False | _ => True end
          \/ match vi_duration
                     (probed Cases.env_fractional Scenario.url Scenario.idle)
             with JInt _ | JBool _ => False | _ => True end) as H7
    by (right; vm_compute; exact I).
  exact (proj1 (proj2 (transcribe_url_ill_typed_metadata Cases.env_fractional
                         Scenario.url None Scenario.idle Cases.downloaded
                         Scenario.two_segments H1 H2 H3 H4 H5 H6 H7))).
Defined.

(** The lecture with the fractional duration, run: the job raises after
    transcribing, and the caller is sent the format error. *)
Example fractional_duration_run :
  fst (handle_transcribe_url Cases.env_fractional Scenario.url None Scenario.idle)
  = Raise (Exn ValueError
             (lit "Unknown format code 'd' for object of type 'float'"))
  /\ fst (handle_transcribe_url Cases.env_lecture Scenario.url None Scenario.idle)
     = Ret (success_dict (lit "platform", JStr (lit "YouTube"))
              (JStr (lit "Лекция 1/2: введение")) 213 (lit "ru")
              (stripped Scenario.two_segments)
              (lit "/home/user/Documents/Transcripts/2024-01-01_1200_YouTube_Лекция 12 введение.txt")).
Proof. vm_compute. split; reflexivity. Qed.

(** ** The file flow, past the existence check *)

Lemma last_map {A B} (f : A -> B) (l : list A) (d : A) :
  last (map f l) (f d) = f (last l d).
Proof.
  induction l as [|a l IH]; [reflexivity|].
  destruct l as [|b l]; [reflexivity|]. exact IH.
Qed.

Lemma last_end_stripped raw : last_end (stripped raw) = last_end raw.
Proof.
  destruct raw as [|r raw]; [reflexivity|].
  unfold last_end, stripped.
  set (f := fun seg : segment => _).
  change (int_of_float (seg_end (last (map f (r :: raw)) (f r)))
          = int_of_float (seg_end (last (r :: raw) r))).
  rewrite last_map. reflexivity.
Qed.

Section FileOutcomes.

Variable E : env.

(** With the file there and the engine through, what is left of the flow
    runs on the stripped segments. *)
Lemma transcribe_file_engine file_path language w raw :
  path_exists E (expanduser E file_path) = true ->
  model_available E w ->
  engine_transcribe E (expanduser E file_path)
    (engine_language (resolve_language E language)) = Ret raw ->
  handle_transcribe_file E file_path language w
  = let path := expanduser E file_path in
    let lang := resolve_language E language in
    let w1 := after_transcription w path (engine_language lang) in
    match stripped raw with
    | [] => (Ret (error_dict (lit "No speech detected in the file")), w1)
    | _ :: _ =>
      match save_transcript E (lit "file://" ++ path) (lit "LocalFile")
              (JStr (path_stem path)) (JInt (last_end (stripped raw)))
              (stripped raw) lang w1 with
      | (Ret filepath, w2) =>
        (Ret (JDict
                [ (lit "success", JBool true);
                  (lit "file", JStr path);
                  (lit "duration",
                   JStr (format_duration (last_end (stripped raw))));
                  (lit "language", JStr lang);
                  (lit "segments_count",
                   JInt (Z.of_nat (length (stripped raw))));
                  (lit "saved_to", JStr filepath);
                  (lit "transcript", JStr (full_text (stripped raw))) ]), w2)
      | (Raise e, w2) => (Raise e, w2)
      end
    end.
Proof.
  intros Hex Hm He. unfold handle_transcribe_file. rewrite Hex. cbn [negb].
  unfold bind at 1. rewrite (transcribe_audio_ok E _ _ _ raw Hm He).
  destruct (stripped raw) as [|s segs] eqn:Hs; reflexivity.
Qed.

(** X11: a local file that exists, in which the engine finds at least one
    segment, each starting at a time from 0 up to 2^53, and whose
    transcript can be written (the file opens, the text holds no lone
    surrogate) is answered with the success record: the expanded path, the
    end of the last segment cut to whole seconds and formatted, the
    language, the number of segments, the path of the stored file and the
    stripped texts joined by spaces.  The stored file has the layout of
    the transcript store with source file:// followed by the path,
    platform LocalFile and the stem of the path as title; yt-dlp is not
    run and the temp directory is not touched. *)
Theorem transcribe_file_succeeds
    (file_path : pystr) (language : option pystr) (w : world)
    (raw : list segment) :
  path_exists E (expanduser E file_path) = true ->
  model_available E w ->
  engine_transcribe E (expanduser E file_path)
    (engine_language (resolve_language E language)) = Ret raw ->
  raw <> [] ->
  exact_starts raw = true ->
  writable E (ticks w) (lit "file://" ++ expanduser E file_path)
    (lit "LocalFile") (path_stem (expanduser E file_path)) (last_end raw)
    (resolve_language E language) (stripped raw) ->
  let path := expanduser E file_path in
  let lang := resolve_language E language in
  let duration := last_end raw in
  let name := transcript_name E (ticks w) (lit "LocalFile") (path_stem path) in
  let written := fromtimestamp E (clock E (S (ticks w))) in
  let done := handle_transcribe_file E file_path language w in
  fst done
  = Ret (JDict
           [ (lit "success", JBool true);
             (lit "file", JStr path);
             (lit "duration", JStr (format_duration duration));
             (lit "language", JStr lang);
             (lit "segments_count", JInt (Z.of_nat (length raw)));
             (lit "saved_to", JStr (path_join (TRANSCRIPTS_DIR E) name));
             (lit "transcript",
              JStr (join (lit " ") (map (fun seg => strip (seg_text seg)) raw))) ])
  /\ (exists file,
        In file (transcripts_dir (snd done))
        /\ f_name file = name
        /\ f_data file
           = utf8_bytes
               (spec_file_content (lit "file://" ++ path) (lit "LocalFile")
                  (path_stem path) written duration lang (stripped raw))
        /\ utf8_encode
             (spec_file_content (lit "file://" ++ path) (lit "LocalFile")
                (path_stem path) written duration lang (stripped raw))
           = Ret (f_data file))
  /\ calls (snd done)
     = calls w
       ++ (if whisper_model w then [] else [CallLoadModel])
       ++ [CallTranscribe path (engine_language lang);
           CallWriteText (path_join (TRANSCRIPTS_DIR E) name)]
  /\ temp_dir (snd done) = temp_dir w.
Proof.
  intros Hex Hm He Hne _ Hwrite path lang duration name written done.
  subst done. rewrite (transcribe_file_engine _ _ _ raw Hex Hm He).
  rewrite last_end_stripped. cbv zeta.
  assert (Henc : encodable
                   (spec_file_content (lit "file://" ++ path) (lit "LocalFile")
                      (path_stem path) written duration lang (stripped raw))
                 = true).
  { destruct Hwrite as (_ & Henc & _). rewrite written_lines_text in Henc.
    exact Henc. }
  rewrite (save_transcript_saved E) by exact Hwrite.
  destruct raw as [|r raw]; [contradiction|].
  change (stripped (r :: raw))
    with ({| seg_start := seg_start r; seg_end := seg_end r;
             seg_text := strip (seg_text r) |} :: stripped raw).
  cbn [fst snd saved temp_dir transcripts_dir calls ticks after_transcription
       whisper_model].
  fold path lang duration name written.
  split; [|split; [|split]].
  - unfold full_text. cbn [length map seg_text].
    unfold stripped. rewrite length_map, map_map. reflexivity.
  - eexists. split; [apply in_or_app; right; left; reflexivity|].
    cbn [f_name f_data]. split; [reflexivity|].
    rewrite written_lines_text. split; [reflexivity|].
    apply utf8_encode_encodable, Henc.
  - rewrite <- !app_assoc. reflexivity.
  - reflexivity.
Qed.

(** X12: a local file that exists and in which the engine finds nothing
    is answered No speech detected in the file; nothing is stored, the
    temp directory is as it was, and the log gains the engine call and,
    if the model was not loaded yet, its load. *)
Theorem transcribe_file_silent
    (file_path : pystr) (language : option pystr) (w : world) :
  path_exists E (expanduser E file_path) = true ->
  model_available E w ->
  engine_transcribe E (expanduser E file_path)
    (engine_language (resolve_language E language)) = Ret [] ->
  let done := handle_transcribe_file E file_path language w in
  fst done = Ret (JDict [(lit "error", JStr (lit "No speech detected in the file"))])
  /\ transcripts_dir (snd done) = transcripts_dir w
  /\ temp_dir (snd done) = temp_dir w
  /\ whisper_model (snd done) = true
  /\ calls (snd done)
     = calls w
       ++ (if whisper_model w then [] else [CallLoadModel])
       ++ [CallTranscribe (expanduser E file_path)
             (engine_language (resolve_language E language))].
Proof.
  intros Hex Hm He done. subst done.
  rewrite (transcribe_file_engine _ _ _ [] Hex Hm He).
  cbn [stripped map fst snd after_transcription temp_dir transcripts_dir
       whisper_model calls].
  repeat (split; [reflexivity|]). reflexivity.
Qed.

(** X13: when the model is not loaded and its constructor raises, a file
    job raises that exception before the engine is called and stores
    nothing; the failure is not remembered, the global stays unset, so
    with a constructor that keeps raising the next job tries the load
    again and ends the same way. *)
Theorem model_load_failure_is_retried
    (file_path : pystr) (language : option pystr) (w : world) (e : exn) :
  path_exists E (expanduser E file_path) = true ->
  whisper_model w = false ->
  load_model E = Some e ->
  let once := handle_transcribe_file E file_path language w in
  let twice := handle_transcribe_file E file_path language (snd once) in
  fst once = Raise e
  /\ calls (snd once) = calls w ++ [CallLoadModel]
  /\ whisper_model (snd once) = false
  /\ fst twice = Raise e
  /\ calls (snd twice) = calls w ++ [CallLoadModel; CallLoadModel]
  /\ transcripts_dir (snd twice) = transcripts_dir w.
Proof.
  intros Hex Hw Hl once twice.
  assert (Hrun : forall v, whisper_model v = false ->
            handle_transcribe_file E file_path language v
            = (Raise e, {| temp_dir := temp_dir v;
                           transcripts_dir := transcripts_dir v;
                           ticks := ticks v; whisper_model := false;
                           calls := calls v ++ [CallLoadModel] |})).
  { intros v Hv. unfold handle_transcribe_file. rewrite Hex. cbn [negb].
    unfold bind at 1.
    rewrite (transcribe_audio_load_failed E _ _ v e Hv Hl). reflexivity. }
  subst twice once. rewrite (Hrun w Hw). cbn [fst snd].
  rewrite Hrun by reflexivity.
  cbn [fst snd calls whisper_model transcripts_dir].
  rewrite <- app_assoc.
  repeat (split; [reflexivity|]). reflexivity.
Qed.

End FileOutcomes.

Lemma transcribe_file_succeeds_witness :
  fst (handle_transcribe_file Scenario.env_success Cases.talk (Some (lit "auto"))
         Cases.warm)
  = Ret (JDict
           [ (lit "success", JBool true);
             (lit "file", JStr Cases.talk);
             (lit "duration", JStr (lit "1:02:05"));
             (lit "language", JStr (lit "auto"));
             (lit "segments_count", JInt 2);
             (lit "saved_to",
              JStr (lit "/home/user/Documents/Transcripts/2024-01-01_1200_LocalFile_talk.txt"));
             (lit "transcript", JStr (lit "Привет мир")) ]).
Proof.
  assert (path_exists Scenario.env_success
            (expanduser Scenario.env_success Cases.talk) = true) as H1
    by by_running.
  assert (model_available Scenario.env_success Cases.warm) as H2
    by (left; reflexivity).
  assert (engine_transcribe Scenario.env_success
            (expanduser Scenario.env_success Cases.talk)
            (engine_language
               (resolve_language Scenario.env_success (Some (lit "auto"))))
          = Ret Scenario.two_segments) as H3 by reflexivity.
  assert (Scenario.two_segments <> []) as H4 by discriminate.
  assert (exact_starts Scenario.two_segments = true) as H5
    by (vm_compute; reflexivity).
  assert (writable Scenario.env_success (ticks Cases.warm)
            (lit "file://" ++ expanduser Scenario.env_success Cases.talk)
            (lit "LocalFile")
            (path_stem (expanduser Scenario.env_success Cases.talk))
            (last_end Scenario.two_segments)
            (resolve_language Scenario.env_success (Some (lit "auto")))
            (stripped Scenario.two_segments)) as H6
    by (repeat split; vm_compute; reflexivity).
  pose proof (proj1 (transcribe_file_succeeds Scenario.env_success Cases.talk
                       (Some (lit "auto")) Cases.warm Scenario.two_segments
                       H1 H2 H3 H4 H5 H6)) as H.
  rewrite H. vm_compute. reflexivity.
Defined.

Lemma transcribe_file_silent_witness :
  fst (handle_transcribe_file Cases.env_quiet_file Cases.talk None Scenario.idle)
  = Ret (JDict [(lit "error", JStr (lit "No speech detected in the file"))]).
Proof.
  assert (path_exists Cases.env_quiet_file
            (expanduser Cases.env_quiet_file Cases.talk) = true) as H1
    by by_running.
  assert (model_available Cases.env_quiet_file Scenario.idle) as H2
    by (right; reflexivity).
  assert (engine_transcribe Cases.env_quiet_file
            (expanduser Cases.env_quiet_file Cases.talk)
            (engine_language (resolve_language Cases.env_quiet_file None))
          = Ret []) as H3 by reflexivity.
  exact (proj1 (transcribe_file_silent Cases.env_quiet_file Cases.talk None
                  Scenario.idle H1 H2 H3)).
Defined.

Lemma model_load_failure_is_retried_witness :
  fst (handle_transcribe_file Cases.env_no_model Cases.talk None Scenario.idle)
  = Raise Cases.no_weights.
Proof.
  assert (path_exists Cases.env_no_model
            (expanduser Cases.env_no_model Cases.talk) = true) as H1
    by by_running.
  assert (whisper_model Scenario.idle = false) as H2 by reflexivity.
  assert (load_model Cases.env_no_model = Some Cases.no_weights) as H3
    by reflexivity.
  exact (proj1 (model_load_failure_is_retried Cases.env_no_model Cases.talk
                  None Scenario.idle Cases.no_weights H1 H2 H3)).
Defined.

(** ** The dispatch layer against the declared tools *)

Lemma tools_required :
  map (fun t => (tool_name t, required_keys t)) TOOLS
  = [ (lit "transcribe_url", [lit "url"]);
      (lit "transcribe_file", [lit "file_path"]);
      (lit "list_transcripts", []) ].
Proof. vm_compute. reflexivity. Qed.

Lemma tool_names :
  map tool_name TOOLS
  = [lit "transcribe_url"; lit "transcribe_file"; lit "list_transcripts"].
Proof. vm_compute. reflexivity. Qed.

Lemma tool_names_differ :
  str_eqb (lit "transcribe_file") (lit "transcribe_url") = false
  /\ str_eqb (lit "list_transcripts") (lit "transcribe_url") = false
  /\ str_eqb (lit "list_transcripts") (lit "transcribe_file") = false
  /\ str_eqb (lit "file_path") (lit "url") = false.
Proof. vm_compute. repeat split. Qed.

Lemma arg_present_url a :
  arg_present (lit "url") a = false -> arg_url a = None.
Proof.
  unfold arg_present. rewrite str_eqb_refl.
  destruct (arg_url a); [discriminate | reflexivity].
Qed.

Lemma arg_present_file_path a :
  arg_present (lit "file_path") a = false -> arg_file_path a = None.
Proof.
  unfold arg_present.
  rewrite (proj2 (proj2 (proj2 tool_names_differ))), str_eqb_refl.
  destruct (arg_file_path a); [discriminate | reflexivity].
Qed.

Section Answers.

Context {A : Type} (Q : A -> Prop).

Lemma answers_ret (a : A) : Q a -> answers Q (ret a).
Proof. intros H w b Hb. injection Hb as <-. exact H. Qed.

Lemma answers_raise (e : exn) : answers Q (@raise A e).
Proof. intros w b Hb. discriminate Hb. Qed.

Lemma answers_bind {B} (m : M B) (k : B -> M A) :
  (forall b, answers Q (k b)) -> answers Q (bind m k).
Proof.
  intros H w a. unfold bind. destruct (m w) as [[b|e] w1].
  - apply H.
  - discriminate.
Qed.

Lemma answers_try_finally (m : M A) (f : M unit) :
  answers Q m -> answers Q (try_finally m f).
Proof.
  intros H w a. unfold try_finally.
  destruct (m w) as [r w1] eqn:Hm. destruct (f w1) as [[u|e] w2].
  - cbn [fst]. intros ->. apply (H w). rewrite Hm. reflexivity.
  - discriminate.
Qed.

End Answers.

Lemma handled_error message :
  hd_error message <> Some (chr "U") -> handled (error_dict message).
Proof.
  intros H name Heq. apply H. unfold error_dict in Heq.
  injection Heq as ->. vm_compute. reflexivity.
Qed.

Lemma handled_record kv kv' items : handled (JDict (kv :: kv' :: items)).
Proof. intros name Heq. discriminate Heq. Qed.

Ltac answers_step :=
  first
    [ apply answers_raise
    | apply answers_try_finally
    | apply answers_bind; intros ?
    | match goal with
      | |- answers _ (if ?b then _ else _) => destruct b
      | |- answers _ (match ?x with _ => _ end) => destruct x
      end
    | apply answers_ret;
      first [ apply handled_record
            | apply handled_error; vm_compute; discriminate ] ].

Section Declared.

Variable E : env.

Lemma handled_transcribe_url url language :
  answers handled (handle_transcribe_url E url language).
Proof.
  unfold handle_transcribe_url, transcribe_url_try. repeat answers_step.
Qed.

Lemma handled_transcribe_file file_path language :
  answers handled (handle_transcribe_file E file_path language).
Proof. unfold handle_transcribe_file. repeat answers_step. Qed.

Lemma handled_list_transcripts limit :
  answers handled (handle_list_transcripts E limit).
Proof. unfold handle_list_transcripts. repeat answers_step. Qed.

Lemma call_handler_undeclared name a w :
  ~ In name (map tool_name TOOLS) ->
  call_handler E name a w
  = (Ret (error_dict (lit "Unknown tool: " ++ name)), w).
Proof.
  rewrite tool_names. intros H. unfold call_handler.
  rewrite !str_eqb_neq; [reflexivity | | | ];
    intros ->; apply H; cbn [In]; auto.
Qed.

Lemma call_handler_declared name a :
  In name (map tool_name TOOLS) -> answers handled (call_handler E name a).
Proof.
  rewrite tool_names. destruct tool_names_differ as (H21 & H31 & H32 & _).
  intros [<-|[<-|[<-|[]]]]; unfold call_handler.
  - rewrite str_eqb_refl. apply answers_bind. intros url.
    apply handled_transcribe_url.
  - rewrite H21, str_eqb_refl. apply answers_bind. intros file_path.
    apply handled_transcribe_file.
  - rewrite H31, H32, str_eqb_refl. apply handled_list_transcripts.
Qed.

Lemma call_handler_missing_url a w :
  arg_url a = None ->
  call_handler E (lit "transcribe_url") a w
  = (Raise (Exn KeyError (lit "'" ++ lit "url" ++ lit "'")), w).
Proof.
  intros H. unfold call_handler. rewrite str_eqb_refl, H. reflexivity.
Qed.

Lemma call_handler_missing_file_path a w :
  arg_file_path a = None ->
  call_handler E (lit "transcribe_file") a w
  = (Raise (Exn KeyError (lit "'" ++ lit "file_path" ++ lit "'")), w).
Proof.
  intros H. unfold call_handler.
  rewrite (proj1 tool_names_differ), str_eqb_refl, H. reflexivity.
Qed.

(** X14: for every declared tool and every key its schema lists as
    required, a call that lacks the key is answered with the error record
    whose message is the key between single quotes, the text of the
    [KeyError]; no handler runs, so the world is as it was. *)
Theorem missing_required_argument
    (t : tool) (key : pystr) (a : arguments) (w : world) :
  In t TOOLS ->
  In key (required_keys t) ->
  arg_present key a = false ->
  handle_tool_call E (tool_name t) a w
  = (json_dumps 2 true (error_dict (lit "'" ++ key ++ lit "'")), w).
Proof.
  intros Ht Hkey Ha.
  apply (in_map (fun t => (tool_name t, required_keys t))) in Ht.
  rewrite tools_required in Ht.
  destruct Ht as [Ht|[Ht|[Ht|[]]]]; injection Ht as Hname Hreq;
    rewrite <- Hname; rewrite <- Hreq in Hkey.
  - destruct Hkey as [<-|[]]. apply arg_present_url in Ha.
    exact (proj1 (handle_tool_call_raised E _ _ _ _ _
                    (call_handler_missing_url a w Ha))).
  - destruct Hkey as [<-|[]]. apply arg_present_file_path in Ha.
    exact (proj1 (handle_tool_call_raised E _ _ _ _ _
                    (call_handler_missing_file_path a w Ha))).
  - destruct Hkey.
Qed.

(** X15: the dispatcher and the declared tools agree.  The names of the
    declared tools are pairwise distinct; a call is answered with
    Unknown tool: followed by the name exactly when the name is not that
    of a declared tool; and then no handler runs: the answer is rendered
    with the name as it is and the world is as it was. *)
Theorem unknown_tool_iff_undeclared (name : pystr) (a : arguments) (w : world) :
  NoDup (map tool_name TOOLS)
  /\ (fst (call_handler E name a w)
      = Ret (JDict [(lit "error", JStr (lit "Unknown tool: " ++ name))])
      <-> ~ In name (map tool_name TOOLS))
  /\ (~ In name (map tool_name TOOLS) ->
      handle_tool_call E name a w
      = (json_dumps 2 false (error_dict (lit "Unknown tool: " ++ name)), w)).
Proof.
  split; [|split].
  - rewrite tool_names. destruct tool_names_differ as (H21 & H31 & H32 & _).
    repeat constructor; cbn [In]; intros H;
      repeat match goal with H : _ \/ _ |- _ => destruct H as [H|H] end;
      try contradiction.
    + rewrite <- H, str_eqb_refl in H21. discriminate.
    + rewrite <- H, str_eqb_refl in H31. discriminate.
    + rewrite <- H, str_eqb_refl in H32. discriminate.
  - split.
    + intros Hr Hin.
      exact (call_handler_declared name a Hin w _ Hr name eq_refl).
    + intros Hn. rewrite (call_handler_undeclared name a w Hn). reflexivity.
  - intros Hn. apply handle_tool_call_returned.
    apply call_handler_undeclared. exact Hn.
Qed.

Lemma flat_map_shown_as_is s :
  forallb shown_as_is s = true -> flat_map (escape_char false) s = s.
Proof.
  induction s as [|c s IH]; [reflexivity|].
  cbn [forallb flat_map]. intros H. apply andb_true_iff in H as [Hc Hs].
  unfold shown_as_is in Hc.
  apply andb_true_iff in Hc as [Hc H92]. apply andb_true_iff in Hc as [H32 H34].
  apply N.leb_le in H32. apply negb_true_iff, N.eqb_neq in H34, H92.
  rewrite escape_char_literal, IH by assumption. reflexivity.
Qed.

Lemma encode_str_shown_as_is s :
  forallb shown_as_is s = true -> encode_str false s = quoted s.
Proof.
  intros H. unfold encode_str, quoted. rewrite flat_map_shown_as_is by exact H.
  reflexivity.
Qed.

Lemma dumps_error_dict ensure_ascii message :
  json_dumps 2 ensure_ascii (error_dict message)
  = lit "{" ++ newline ++ lit "  " ++ encode_str ensure_ascii (lit "error")
    ++ lit ": " ++ encode_str ensure_ascii message ++ newline ++ lit "}".
Proof.
  unfold json_dumps, error_dict. cbn [dumps]. unfold newline_indent.
  assert (repeat 32%N (2 * 1) = lit "  ") as -> by (vm_compute; reflexivity).
  assert (repeat 32%N (2 * 0) = @nil char) as -> by reflexivity.
  rewrite app_nil_r, <- !app_assoc. reflexivity.
Qed.

(** X16: when a handler returns an error record whose message holds no
    control character, double quote or backslash, the text sent back is
    the two-space-indented object with the message between double quotes,
    character for character: nothing of it is escaped, whatever the
    script, and the world is the one the handler left. *)
Theorem returned_error_keeps_its_text
    (name : pystr) (a : arguments) (w : world) (message : pystr) (w1 : world) :
  call_handler E name a w = (Ret (error_dict message), w1) ->
  forallb shown_as_is message = true ->
  handle_tool_call E name a w
  = (lit "{" ++ newline ++ lit "  " ++ quoted (lit "error") ++ lit ": "
     ++ quoted message ++ newline ++ lit "}", w1).
Proof.
  intros Hr Hm. rewrite (handle_tool_call_returned E _ _ _ _ _ Hr).
  rewrite dumps_error_dict.
  rewrite (encode_str_shown_as_is message Hm).
  rewrite (encode_str_shown_as_is (lit "error")) by (vm_compute; reflexivity).
  reflexivity.
Qed.

End Declared.

Lemma missing_required_argument_witness :
  handle_tool_call Scenario.env_success (lit "transcribe_url")
    Cases.no_arguments Cases.warm
  = (lit "{" ++ newline ++ lit "  " ++ quoted (lit "error") ++ lit ": "
     ++ quoted (lit "'url'") ++ newline ++ lit "}", Cases.warm).
Proof.
  assert (In (nth 0 TOOLS (Build_tool [] [] JNull)) TOOLS) as H1
    by (left; reflexivity).
  assert (In (lit "url") (required_keys (nth 0 TOOLS (Build_tool [] [] JNull))))
    as H2 by (vm_compute; left; reflexivity).
  assert (arg_present (lit "url") Cases.no_arguments = false) as H3
    by by_running.
  pose proof (missing_required_argument Scenario.env_success _ _ _ Cases.warm
                H1 H2 H3) as H.
  assert (tool_name (nth 0 TOOLS (Build_tool [] [] JNull))
          = lit "transcribe_url") as Hn by (vm_compute; reflexivity).
  rewrite Hn in H. rewrite H.
  apply (f_equal (fun text => (text, Cases.warm))).
  vm_compute. reflexivity.
Defined.

Lemma returned_error_keeps_its_text_witness :
  fst (handle_tool_call Scenario.env_success (lit "transcribe_file")
         (Scenario.file_job Scenario.recording) Scenario.idle)
  = lit "{" ++ newline ++ lit "  " ++ quoted (lit "error") ++ lit ": "
    ++ quoted (lit "File not found: /home/user/запись.mp3") ++ newline
    ++ lit "}".
Proof.
  assert (call_handler Scenario.env_success (lit "transcribe_file")
            (Scenario.file_job Scenario.recording) Scenario.idle
          = (Ret (error_dict (lit "File not found: /home/user/запись.mp3")),
             Scenario.idle)) as H1 by by_running.
  assert (forallb shown_as_is (lit "File not found: /home/user/запись.mp3")
          = true) as H2 by by_running.
  rewrite (returned_error_keeps_its_text Scenario.env_success _ _ _ _ _ H1 H2).
  reflexivity.
Defined.

(** ** The download step *)

Section Download.

Variable E : env.

(** X17: [download_audio] never raises.  It runs yt-dlp once, with a
    timeout of 300 and the URL as last argument, and returns true exactly
    when the run ends with exit status zero and false when it ends with
    another status or raises; the transcripts, the clock and the model are
    as they were. *)
Theorem download_audio_never_raises (url out : pystr) (w : world) :
  let outcome := fst (yt_dlp E (download_argv url out) (temp_dir w)) in
  let done := download_audio E url out w in
  (exists ok,
     fst done = Ret ok
     /\ (ok = true <-> run_succeeded outcome)
     /\ (ok = false <-> run_failed outcome))
  /\ calls (snd done) = calls w ++ [CallYtDlp (download_argv url out) 300]
  /\ last (download_argv url out) [] = url
  /\ temp_dir (snd done) = snd (yt_dlp E (download_argv url out) (temp_dir w))
  /\ transcripts_dir (snd done) = transcripts_dir w
  /\ ticks (snd done) = ticks w
  /\ whisper_model (snd done) = whisper_model w.
Proof.
  intros outcome done. subst done. rewrite download_audio_run.
  cbn [fst snd after_run calls temp_dir transcripts_dir ticks whisper_model].
  split; [|repeat (split; [reflexivity|]); reflexivity].
  eexists. split; [reflexivity|]. fold outcome.
  destruct outcome as [rc so|e]; cbn [run_succeeded run_failed].
  - rewrite Z.eqb_eq. split; [tauto|].
    rewrite <- Z.eqb_neq. destruct (rc =? 0); split; congruence.
  - split; split; (discriminate || contradiction || auto).
Qed.

End Download.

(** ** From the store to the listing *)

Lemma filter_opposite {A} (p : A -> bool) l :
  filter p (filter (fun x => negb (p x)) l) = [].
Proof.
  rewrite filter_filter_and. induction l as [|a l IH]; [reflexivity|].
  cbn [filter]. destruct (p a); cbn [negb andb]; exact IH.
Qed.

Lemma filter_twice {A} (p : A -> bool) l : filter p (filter p l) = filter p l.
Proof.
  apply filter_fixed. intros x Hx. apply filter_In in Hx. apply Hx.
Qed.

Section StoreAndList.

Variable E : env.

Lemma transcript_name_matches t platform title :
  fnmatch (lit "*.txt") (transcript_name E t platform title) = true.
Proof.
  rewrite txt_pattern. apply fnmatch_star_suffix; [vm_compute; reflexivity|].
  unfold transcript_name.
  exists (strftime (fromtimestamp E (clock E t)) (lit "%Y-%m-%d_%H%M")
          ++ lit "_" ++ platform ++ lit "_" ++ sanitize_filename title).
  rewrite <- !app_assoc. reflexivity.
Qed.

Lemma transcript_entry_path f :
  json_field (lit "path") (transcript_entry E f)
  = Some (JStr (path_join (TRANSCRIPTS_DIR E) (f_name f))).
Proof.
  unfold transcript_entry, json_field. cbn [find fst snd].
  assert (str_eqb (lit "filename") (lit "path") = false) as ->
      by (vm_compute; reflexivity).
  rewrite str_eqb_refl. reflexivity.
Qed.

(** X18: a transcript that was just stored is listed.  When the write
    goes through (the file opens, the text holds no lone surrogate, the
    segments start at times from 0 up to 2^53) and the limit exceeds the
    number of files the directory held, the listing that follows
    [save_transcript] has an entry for the new file, and the path of that
    entry is the path [save_transcript] returned. *)
Theorem saved_transcript_is_listed
    (url platform title : pystr) (duration : Z) (segments : list segment)
    (language : pystr) (limit : Z) (w : world) :
  Z.of_nat (length (transcripts_dir w)) < limit ->
  writable E (ticks w) url platform title duration language segments ->
  exact_starts segments = true ->
  let stored :=
    save_transcript E url platform (JStr title) (JInt duration) segments
      language w in
  let name := transcript_name E (ticks w) platform title in
  exists file entries,
    fst stored = Ret (path_join (TRANSCRIPTS_DIR E) name)
    /\ fst (handle_list_transcripts E limit (snd stored))
       = Ret (JDict
                [ (lit "transcripts_dir", JStr (TRANSCRIPTS_DIR E));
                  (lit "count", JInt (Z.of_nat (length entries)));
                  (lit "files", JList entries) ])
    /\ In file (transcripts_dir (snd stored))
    /\ f_name file = name
    /\ f_data file
       = utf8_bytes
           (spec_file_content url platform title
              (fromtimestamp E (clock E (S (ticks w)))) duration language
              segments)
    /\ In (transcript_entry E file) entries
    /\ json_field (lit "path") (transcript_entry E file)
       = Some (JStr (path_join (TRANSCRIPTS_DIR E) name)).
Proof.
  intros Hlimit Hwrite _ stored name. subst stored.
  rewrite (save_transcript_saved E _ _ _ _ _ _ _ Hwrite).
  cbn [fst snd]. rewrite handle_list_transcripts_run. cbn [fst].
  set (lines := written_lines _ _ _ _ _ _ _).
  set (file := {| f_name := name; f_data := utf8_bytes (join newline lines);
                  f_mtime := clock E (S (S (ticks w))) |}).
  assert (Hin : In file (transcripts_dir (saved E w platform title lines))).
  { cbn [saved transcripts_dir]. apply in_or_app; right; left; reflexivity. }
  exists file, (map (transcript_entry E)
                  (listed_files limit (saved E w platform title lines))).
  split; [reflexivity|]. split; [reflexivity|]. split; [exact Hin|].
  split; [reflexivity|].
  split; [cbn [file f_data]; unfold lines; rewrite written_lines_text;
          reflexivity|].
  split; [|apply transcript_entry_path].
  apply in_map. unfold listed_files, slice_to.
  destruct (limit <? 0) eqn:Hneg; [apply Z.ltb_lt in Hneg; lia|].
  set (matching := glob (lit "*.txt") _).
  assert (Hlen : (length matching <= S (length (transcripts_dir w)))%nat).
  { unfold matching, glob. etransitivity; [apply filter_length_le|].
    cbn [saved transcripts_dir]. rewrite length_app. cbn [length].
    pose proof (filter_length_le
                  (fun g => negb (str_eqb (f_name g) name)) (transcripts_dir w)).
    fold name. lia. }
  rewrite firstn_all2
    by (rewrite (Permutation_length (sorted_reverse_perm matching)); lia).
  apply (Permutation_in _ (Permutation_sym (sorted_reverse_perm matching))).
  unfold matching, glob. apply filter_In. split; [exact Hin|].
  apply transcript_name_matches.
Qed.

(** X19: two transcripts whose names come out the same, same minute,
    same platform and titles that sanitise to the same text, share one
    file.  When both writes go through (the file opens, the texts hold no
    lone surrogate, the segments of the second start at times from 0 up to
    2^53), the second [save_transcript] returns the path the first one
    returned, and afterwards the directory holds exactly one file of that
    name, with the content of the second; every file of another name is
    as it was. *)
Theorem same_name_transcript_is_replaced
    (url1 url2 platform1 platform2 title1 title2 : pystr) (duration1 duration2 : Z)
    (segments1 segments2 : list segment) (language1 language2 : pystr)
    (w : world) :
  transcript_name E (ticks w) platform1 title1
  = transcript_name E (3 + ticks w) platform2 title2 ->
  writable E (ticks w) url1 platform1 title1 duration1 language1 segments1 ->
  writable E (3 + ticks w) url2 platform2 title2 duration2 language2 segments2 ->
  exact_starts segments2 = true ->
  let name := transcript_name E (ticks w) platform1 title1 in
  let first :=
    save_transcript E url1 platform1 (JStr title1) (JInt duration1) segments1
      language1 w in
  let second :=
    save_transcript E url2 platform2 (JStr title2) (JInt duration2) segments2
      language2 (snd first) in
  fst first = Ret (path_join (TRANSCRIPTS_DIR E) name)
  /\ fst second = Ret (path_join (TRANSCRIPTS_DIR E) name)
  /\ filter (fun g => str_eqb (f_name g) name) (transcripts_dir (snd second))
     = [ {| f_name := name;
            f_data :=
              utf8_bytes
                (spec_file_content url2 platform2 title2
                   (fromtimestamp E (clock E (4 + ticks w))) duration2
                   language2 segments2);
            f_mtime := clock E (5 + ticks w) |} ]
  /\ filter (fun g => negb (str_eqb (f_name g) name))
       (transcripts_dir (snd second))
     = filter (fun g => negb (str_eqb (f_name g) name)) (transcripts_dir w).
Proof.
  intros Hname Hfirst Hsecond _ name first second. subst second first.
  rewrite (save_transcript_saved E _ _ _ _ _ _ _ Hfirst). cbn [fst snd].
  rewrite (save_transcript_saved E) by exact Hsecond.
  cbn [fst snd saved ticks transcripts_dir].
  change (3 + ticks w)%nat with (S (S (S (ticks w)))) in Hname.
  rewrite <- Hname. fold name.
  rewrite !written_lines_text.
  split; [reflexivity|]. split; [reflexivity|]. split.
  - rewrite filter_app, filter_opposite. cbn [filter app f_name].
    rewrite str_eqb_refl. reflexivity.
  - rewrite filter_app, filter_twice, filter_app, filter_twice.
    cbn [filter f_name]. rewrite str_eqb_refl. cbn [negb].
    rewrite !app_nil_r. reflexivity.
Qed.

End StoreAndList.

(** ** The characters of a stored name *)

Lemma invalid_chars_codes :
  invalid_chars = [60; 62; 58; 34; 47; 92; 124; 63; 42]%N.
Proof. vm_compute. reflexivity. Qed.

Lemma digit_valid c : is_digit c = true -> valid_char c = true.
Proof.
  unfold is_digit, valid_char, is_invalid. rewrite invalid_chars_codes.
  intros H. apply andb_true_iff in H as [Hlo Hhi].
  apply N.leb_le in Hlo, Hhi. unfold char_eqb. cbn [existsb].
  repeat match goal with
         | |- context [(c =? ?k)%N] =>
           replace (c =? k)%N with false by (symmetry; apply N.eqb_neq; lia)
         end.
  reflexivity.
Qed.

Lemma digits_valid s : forallb is_digit s = true -> forallb valid_char s = true.
Proof.
  induction s as [|c s IH]; [reflexivity|]. cbn [forallb].
  intros H. apply andb_true_iff in H as [Hc Hs].
  rewrite (digit_valid c Hc), (IH Hs). reflexivity.
Qed.

Lemma strftime_directive_valid d k :
  valid_char (chr "%") = true ->
  valid_char k = true -> forallb valid_char (strftime_directive d k) = true.
Proof.
  intros Hp Hk. unfold strftime_directive.
  repeat match goal with
         | |- context [if ?b then _ else _] => destruct b
         end;
    try (apply digits_valid, zfill_digits, str_of_N_digits).
  cbn [forallb]. rewrite Hp, Hk. reflexivity.
Qed.

Lemma strftime_valid_upto n d fmt :
  (length fmt <= n)%nat ->
  forallb valid_char fmt = true -> forallb valid_char (strftime d fmt) = true.
Proof.
  assert (Hp : valid_char (chr "%") = true) by (vm_compute; reflexivity).
  revert fmt. induction n as [|n IH]; intros fmt Hn Hf.
  - destruct fmt; [reflexivity | cbn [length] in Hn; lia].
  - destruct fmt as [|c r]; [reflexivity|].
    cbn [forallb length] in Hn, Hf. apply andb_true_iff in Hf as [Hc Hr].
    cbn [strftime]. destruct (c =? chr "%")%N.
    + destruct r as [|k r']; [cbn [forallb]; rewrite Hc; reflexivity|].
      cbn [forallb length] in Hn, Hr. apply andb_true_iff in Hr as [Hk Hr'].
      rewrite forallb_app, (strftime_directive_valid d k Hp Hk).
      apply IH; [lia | exact Hr'].
    + cbn [forallb]. rewrite Hc. apply IH; [lia | exact Hr].
Qed.

Section StoredNames.

Variable E : env.

Lemma detect_platform_valid url :
  forallb valid_char (detect_platform E url) = true.
Proof.
  unfold detect_platform.
  repeat match goal with
         | |- context [if ?b then _ else _] => destruct b
         end;
    vm_compute; reflexivity.
Qed.

(** X20: the name under which the handlers store a transcript holds none
    of the characters that [sanitize_filename] removes, the slash and the
    backslash among them, wherever the title came from; so the file lands
    in the transcripts directory itself.  The platform is the label of
    the URL or LocalFile. *)
Theorem stored_name_has_no_invalid_character
    (t : nat) (platform title : pystr) :
  (exists url, platform = detect_platform E url) \/ platform = lit "LocalFile" ->
  forallb valid_char (transcript_name E t platform title) = true
  /\ ~ In (chr "/") (transcript_name E t platform title).
Proof.
  intros Hp.
  assert (Hplatform : forallb valid_char platform = true).
  { destruct Hp as [(url & ->)| ->];
      [apply detect_platform_valid | vm_compute; reflexivity]. }
  assert (Hall : forallb valid_char (transcript_name E t platform title) = true).
  { unfold transcript_name. rewrite !forallb_app, Hplatform.
    rewrite (strftime_valid_upto 14) by (vm_compute; first [lia | reflexivity]).
    assert (forallb valid_char (sanitize_filename title) = true) as ->.
    { apply forallb_forall. intros c Hc. unfold valid_char.
      rewrite (sanitize_no_invalid title c Hc). reflexivity. }
    vm_compute. reflexivity. }
  split; [exact Hall|].
  intros Hin. rewrite forallb_forall in Hall. apply Hall in Hin.
  vm_compute in Hin. discriminate Hin.
Qed.

End StoredNames.

Lemma saved_transcript_is_listed_witness :
  exists file,
    In file
       (transcripts_dir
          (snd (save_transcript Scenario.env_success Scenario.url (lit "YouTube")
                  (JStr (lit "e")) (JInt 5) Scenario.two_segments (lit "ru")
                  Scenario.shelf)))
    /\ f_name file
       = transcript_name Scenario.env_success (ticks Scenario.shelf)
           (lit "YouTube") (lit "e").
Proof.
  assert (Z.of_nat (length (transcripts_dir Scenario.shelf)) < 20) as H
    by (vm_compute; reflexivity).
  assert (writable Scenario.env_success (ticks Scenario.shelf) Scenario.url
            (lit "YouTube") (lit "e") 5 (lit "ru") Scenario.two_segments) as Hw
    by (repeat split; vm_compute; reflexivity).
  assert (exact_starts Scenario.two_segments = true) as Ht
    by (vm_compute; reflexivity).
  destruct (saved_transcript_is_listed Scenario.env_success Scenario.url
              (lit "YouTube") (lit "e") 5 Scenario.two_segments (lit "ru") 20
              Scenario.shelf H Hw Ht)
    as (file & entries & _ & _ & Hin & Hname & _).
  exists file. split; [exact Hin | exact Hname].
Defined.

Lemma same_name_transcript_is_replaced_witness :
  let name := lit "2024-01-01_1200_YouTube_Q&A part 12.txt" in
  let first :=
    save_transcript Scenario.env_success Scenario.url (lit "YouTube")
      (JStr (lit "Q&A: part 1/2")) (JInt 60) Scenario.two_segments (lit "ru")
      Scenario.idle in
  let second :=
    save_transcript Scenario.env_success (lit "https://youtu.be/other")
      (lit "YouTube") (JStr (lit "Q&A part 12")) (JInt 90) [] (lit "en")
      (snd first) in
  fst first = fst second
  /\ map f_name (transcripts_dir (snd second)) = [name].
Proof.
  assert (transcript_name Scenario.env_success (ticks Scenario.idle)
            (lit "YouTube") (lit "Q&A: part 1/2")
          = transcript_name Scenario.env_success (3 + ticks Scenario.idle)
              (lit "YouTube") (lit "Q&A part 12")) as H
    by (vm_compute; reflexivity).
  assert (writable Scenario.env_success (ticks Scenario.idle) Scenario.url
            (lit "YouTube") (lit "Q&A: part 1/2") 60 (lit "ru")
            Scenario.two_segments) as Hw1
    by (repeat split; vm_compute; reflexivity).
  assert (writable Scenario.env_success (3 + ticks Scenario.idle)
            (lit "https://youtu.be/other") (lit "YouTube")
            (lit "Q&A part 12") 90 (lit "en") []) as Hw2
    by (repeat split; vm_compute; reflexivity).
  assert (exact_starts [] = true) as Ht by reflexivity.
  destruct (same_name_transcript_is_replaced Scenario.env_success Scenario.url
              (lit "https://youtu.be/other") (lit "YouTube") (lit "YouTube")
              (lit "Q&A: part 1/2") (lit "Q&A part 12") 60 90
              Scenario.two_segments [] (lit "ru") (lit "en") Scenario.idle
              H Hw1 Hw2 Ht)
    as (H1 & H2 & _).
  cbv zeta. split; [rewrite H1, H2; reflexivity|].
  vm_compute. reflexivity.
Defined.

Lemma stored_name_has_no_invalid_character_witness :
  ~ In (chr "/")
      (transcript_name Scenario.env_success 0 (lit "LocalFile")
         (lit "a/b\c: what?")).
Proof.
  exact (proj2 (stored_name_has_no_invalid_character Scenario.env_success 0
                  (lit "LocalFile") (lit "a/b\c: what?")
                  (or_intror eq_refl))).
Defined.

(** ** The exception path of the dispatch layer *)

Lemma forallb_false_ex {A} (f : A -> bool) l :
  forallb f l = false -> exists x, In x l /\ f x = false.
Proof.
  induction l as [|a l IH]; [discriminate|]. cbn [forallb].
  destruct (f a) eqn:Ha.
  - intros H. destruct (IH H) as (x & Hx & Hf).
    exists x. split; [right; exact Hx | exact Hf].
  - intros _. exists a. split; [left; reflexivity | exact Ha].
Qed.

Lemma encode_str_keeps_non_ascii s c :
  In c s -> is_ascii c = false -> In c (encode_str false s).
Proof.
  intros Hc Ha. unfold is_ascii in Ha. apply N.ltb_ge in Ha.
  unfold encode_str. apply in_or_app; right. apply in_or_app; left.
  apply in_flat_map. exists c. split; [exact Hc|].
  rewrite escape_char_literal by lia. left; reflexivity.
Qed.

Section Raised.

Variable E : env.

(** X21: whenever a handler raises, the text sent back is the error
    record with the message of the exception rendered by the default
    [json.dumps]: pure ASCII, every other character escaped.  So as soon
    as the message holds a character outside ASCII the text differs from
    the rendering a returned error with the same message gets. *)
Theorem raised_error_is_escaped
    (name : pystr) (a : arguments) (w : world) (e : exn) (w1 : world) :
  call_handler E name a w = (Raise e, w1) ->
  let text := fst (handle_tool_call E name a w) in
  snd (handle_tool_call E name a w) = w1
  /\ text
     = lit "{" ++ newline ++ lit "  " ++ quoted (lit "error") ++ lit ": "
       ++ encode_str true (exn_str e) ++ newline ++ lit "}"
  /\ forallb is_ascii text = true
  /\ (forallb is_ascii (exn_str e) = false ->
      text <> json_dumps 2 false (error_dict (exn_str e))).
Proof.
  intros Hr text. subst text.
  destruct (handle_tool_call_raised E name a w e w1 Hr) as [Hrun Hascii].
  split; [rewrite Hrun; reflexivity|].
  split.
  { rewrite Hrun. cbn [fst]. rewrite dumps_error_dict.
    assert (encode_str true (lit "error") = quoted (lit "error")) as ->
        by (vm_compute; reflexivity).
    reflexivity. }
  split; [exact Hascii|].
  intros Hm Heq. rewrite Heq in Hascii.
  destruct (forallb_false_ex _ _ Hm) as (c & Hc & Ha).
  rewrite forallb_forall in Hascii.
  assert (Ht : is_ascii c = true); [|congruence].
  apply Hascii. rewrite dumps_error_dict.
  do 5 (apply in_or_app; right). apply in_or_app; left.
  apply encode_str_keeps_non_ascii; assumption.
Qed.

End Raised.

(** ** The metadata probe, when it goes through *)

Section Probe.

Variable E : env.

(** X22: when yt-dlp exits with status zero and prints a JSON object, the
    probe returns the object's title, duration and uploader, each as it
    stands in the object whatever its type, and the default, Unknown, 0
    and Unknown, for a key the object lacks; the URL flow works with that
    record. *)
Theorem metadata_probe_reads_fields
    (url : pystr) (w : world) (stdout : pystr) (items : list (pystr * json)) :
  fst (yt_dlp E (info_argv url) (temp_dir w)) = Completed 0 stdout ->
  json_loads E stdout = Some (JDict items) ->
  let info :=
    {| vi_title := field_or items (lit "title") (JStr (lit "Unknown"));
       vi_duration := field_or items (lit "duration") (JInt 0);
       vi_uploader := field_or items (lit "uploader") (JStr (lit "Unknown")) |} in
  get_video_info E url w = (Ret info, after_run E w (info_argv url) 60)
  /\ probed E url w = info
  /\ (items = [] -> info = default_info).
Proof.
  intros Hrun Hjson info.
  assert (Hget : get_video_info E url w
                 = (Ret info, after_run E w (info_argv url) 60)).
  { unfold get_video_info. unfold_py. rewrite subprocess_run_run, Hrun.
    cbn [fst snd Z.eqb]. unfold loads. rewrite Hjson. unfold_py.
    unfold dict_get. unfold_py. subst info.
    unfold field_or, json_field.
    repeat match goal with
           | |- context [find ?p items] => destruct (find p items)
           end; reflexivity. }
  split; [exact Hget|]. split.
  - unfold probed. rewrite Hget. reflexivity.
  - intros ->. reflexivity.
Qed.

End Probe.

Lemma metadata_probe_reads_fields_witness :
  probed Cases.env_lecture Scenario.url Scenario.idle
  = {| vi_title := JStr (lit "Лекция 1/2: введение");
       vi_duration := JInt 213;
       vi_uploader := JStr (lit "МГУ") |}.
Proof.
  assert (fst (yt_dlp Cases.env_lecture (info_argv Scenario.url)
                 (temp_dir Scenario.idle)) = Completed 0 (lit "{}")) as H1
    by by_running.
  assert (json_loads Cases.env_lecture (lit "{}")
          = Some (JDict [ (lit "title", JStr (lit "Лекция 1/2: введение"));
                          (lit "duration", JInt 213);
                          (lit "uploader", JStr (lit "МГУ")) ])) as H2
    by reflexivity.
  rewrite (proj1 (proj2 (metadata_probe_reads_fields Cases.env_lecture
                           Scenario.url Scenario.idle _ _ H1 H2))).
  vm_compute. reflexivity.
Defined.

Lemma raised_error_is_escaped_witness :
  forallb is_ascii
    (fst (handle_tool_call Scenario.env_corrupt (lit "transcribe_file")
            (Scenario.file_job Scenario.recording) Scenario.idle))
  = true.
Proof.
  assert (call_handler Scenario.env_corrupt (lit "transcribe_file")
            (Scenario.file_job Scenario.recording) Scenario.idle
          = (Raise Scenario.decode_error,
             snd (call_handler Scenario.env_corrupt (lit "transcribe_file")
                    (Scenario.file_job Scenario.recording) Scenario.idle)))
    as H by by_running.
  exact (proj1 (proj2 (proj2 (raised_error_is_escaped Scenario.env_corrupt
                                _ _ _ _ _ H)))).
Defined.

(** ** The engine failing in the URL flow *)

Section UrlEngineFailure.

Variable E : env.

Lemma transcribe_audio_engine_raised path language w e :
  model_available E w ->
  engine_transcribe E path (engine_language language) = Raise e ->
  transcribe_audio E path language w
  = (Raise e, after_transcription w path (engine_language language)).
Proof.
  intros Hm He. unfold transcribe_audio, get_whisper_model, engine_call.
  unfold_py. unfold after_transcription. fold (engine_language language).
  destruct w as [tmp store n loaded log].
  cbn [temp_dir transcripts_dir ticks whisper_model calls] in *.
  destruct loaded.
  - rewrite He. reflexivity.
  - destruct Hm as [Hm|Hm]; [discriminate Hm|]. cbn in Hm. rewrite Hm.
    cbn [temp_dir transcripts_dir ticks whisper_model calls].
    rewrite He, <- app_assoc. reflexivity.
Qed.

(** X23: when the engine raises on the downloaded audio, the URL job
    raises that very exception, after the temp directory was cleared as
    on every other way out; nothing is stored, and the dispatch layer
    answers with the error record of the exception's message. *)
Theorem transcribe_url_engine_failure
    (url : pystr) (language : option pystr) (w : world) (f : dirent) (e : exn) :
  run_succeeded (fst (acquisition E url w)) ->
  hd_error (glob (lit "audio_*.mp3") (snd (acquisition E url w))) = Some f ->
  d_exists f = true ->
  model_available E w ->
  engine_transcribe E (path_join (TEMP_DIR E) (d_name f))
    (engine_language (resolve_language E language)) = Raise e ->
  let done := handle_transcribe_url E url language w in
  fst done = Raise e
  /\ transcripts_dir (snd done) = transcripts_dir w
  /\ temp_dir (snd done)
     = filter (fun d => negb (removable d)) (snd (acquisition E url w))
  /\ handle_tool_call E (lit "transcribe_url")
       {| arg_url := Some url; arg_file_path := None;
          arg_language := language; arg_limit := None |} w
     = (json_dumps 2 true (error_dict (exn_str e)), snd done).
Proof.
  intros Hok Hscan Hex Hm He done.
  assert (Htry : url_flow_try E url language w
                 = (Raise e,
                    after_transcription (after_download E url w)
                      (path_join (TEMP_DIR E) (d_name f))
                      (engine_language (resolve_language E language)))).
  { rewrite url_flow_try_probed. unfold transcribe_url_try.
    unfold bind at 1. rewrite download_audio_run.
    unfold acquisition in *.
    destruct (fst (yt_dlp E _ _)) as [rc so|e']; [|contradiction].
    simpl in Hok. subst rc. cbn [Z.eqb negb].
    unfold bind at 1. unfold get_world at 1.
    change (temp_dir (after_run E (before_acquisition E url w)
                        (download_argv url (temp_audio_path E w)) 300))
      with (snd (yt_dlp E (download_argv url (temp_audio_path E w))
                   (temp_dir (before_acquisition E url w)))).
    rewrite Hscan, Hex. cbn [negb].
    unfold bind at 1.
    rewrite (transcribe_audio_engine_raised _ _ _ e);
      [reflexivity | exact Hm | exact He]. }
  assert (Hdone : done
                  = (Raise e,
                     cleaned (after_transcription (after_download E url w)
                                (path_join (TEMP_DIR E) (d_name f))
                                (engine_language (resolve_language E language))))).
  { subst done. rewrite handle_transcribe_url_run, Htry. reflexivity. }
  rewrite Hdone.
  cbn [fst snd cleaned temp_dir transcripts_dir after_transcription
       after_download after_run before_acquisition].
  split; [reflexivity|]. split; [reflexivity|]. split; [reflexivity|].
  apply handle_tool_call_raised. unfold call_handler.
  rewrite str_eqb_refl. cbn [arg_url arg_language]. unfold getitem.
  unfold bind at 1. unfold ret at 1.
  fold done. rewrite Hdone. reflexivity.
Qed.

End UrlEngineFailure.

Lemma transcribe_url_engine_failure_witness :
  fst (handle_transcribe_url Scenario.env_undecodable Scenario.url None
         Scenario.idle)
  = Raise Scenario.decode_error.
Proof.
  assert (run_succeeded
            (fst (acquisition Scenario.env_undecodable Scenario.url
                    Scenario.idle))) as H1 by by_running.
  assert (hd_error (glob (lit "audio_*.mp3")
                      (snd (acquisition Scenario.env_undecodable Scenario.url
                              Scenario.idle))) = Some Cases.downloaded)
    as H2 by by_running.
  assert (d_exists Cases.downloaded = true) as H3 by reflexivity.
  assert (model_available Scenario.env_undecodable Scenario.idle) as H4
    by (right; reflexivity).
  assert (engine_transcribe Scenario.env_undecodable
            (path_join (TEMP_DIR Scenario.env_undecodable)
               (d_name Cases.downloaded))
            (engine_language (resolve_language Scenario.env_undecodable None))
          = Raise Scenario.decode_error) as H5 by reflexivity.
  exact (proj1 (transcribe_url_engine_failure Scenario.env_undecodable
                  Scenario.url None Scenario.idle Cases.downloaded
                  Scenario.decode_error H1 H2 H3 H4 H5)).
Defined.
